(** * Reset orchestrator: planning, execution and exit status

    A shallow embedding of [reset-orchestrator.py] (the cyber-range reset
    orchestrator): the task and operation records with their derived
    [status] and [progress], [ResetOrchestrator.plan_reset],
    [ResetOrchestrator.execute] with its per-task coroutines, and the
    validation and exit paths of [main].

    Conventions.
    - Python [str] is [string], [Optional[X]] is [option X], [int] is [Z].
    - [datetime.now()] reads a clock kept in the state; every read ticks it.
    - [operation.progress] is a Python float; it is modelled by the exact
      rational [completed / len(tasks) * 100] it rounds.  Rounding to
      binary64 is monotone and exact at 0 and 100.
    - A call that may raise returns a [PyResult]. *)

From Stdlib Require Import ZArith QArith Lia.
From stdpp Require Import base decidable option list strings pretty.

Open Scope string_scope.
Open Scope Z_scope.

(** ** Python values *)

(** Exceptions deriving from [Exception], by class name and [str(e)]. *)
Record Exception := mkExc { exc_type : string; exc_msg : string }.

Inductive PyResult (A : Type) : Type :=
| Returns (a : A)
| Raises (e : Exception).
Arguments Returns {A} a.
Arguments Raises {A} e.

(** Truthiness of an [Optional[str]]: [None] and the empty string are falsy. *)
Definition truthy_str (s : option string) : bool :=
  match s with
  | Some s => negb (bool_decide (s = ""))
  | None => false
  end.

(** Truthiness of an [Optional[int]]: [None] and [0] are falsy. *)
Definition truthy_int (n : option Z) : bool :=
  match n with
  | Some n => negb (bool_decide (n = 0))
  | None => false
  end.

(** [str(x)] of an optional string, as an f-string formats it. *)
Definition py_str (s : option string) : string := default "None" s.

(** [sep.join(items)]: [str.join] takes every item of the iterable and
    refuses the first one that is not a [str]. *)
Definition join (sep : string) (items : list (option string))
  : PyResult string :=
  match list_find (fun x => x = None) items with
  | Some (i, _) =>
    Raises (mkExc "TypeError"
              ("sequence item " ++ pretty i
                 ++ ": expected str instance, NoneType found"))
  | None => Returns (String.concat sep (omap id items))
  end.

(** ** Data model *)

Inductive ResetLevel := VM | TEAM | ZONE | FULL.

Inductive ResetAction :=
| SNAPSHOT_REVERT
| POWER_CYCLE
| CHECKPOINT_RESTORE
| REBUILD.

#[global] Instance ResetLevel_eq_dec : EqDecision ResetLevel.
Proof. solve_decision. Defined.

#[global] Instance ResetAction_eq_dec : EqDecision ResetAction.
Proof. solve_decision. Defined.

(** [str(action)] of a plain [Enum] member, as the f-string of
    [execute_task] formats it. *)
Definition ResetAction_str (a : ResetAction) : string :=
  match a with
  | SNAPSHOT_REVERT => "ResetAction.SNAPSHOT_REVERT"
  | POWER_CYCLE => "ResetAction.POWER_CYCLE"
  | CHECKPOINT_RESTORE => "ResetAction.CHECKPOINT_RESTORE"
  | REBUILD => "ResetAction.REBUILD"
  end.

Definition datetime := nat.

Record ResetTask := mkTask {
  vm_name : option string;
  action : ResetAction;
  snapshot_name : option string;
  status : string;
  start_time : option datetime;
  end_time : option datetime;
  error : option string
}.

Record ResetOperation := mkOperation {
  operation_id : string;
  level : ResetLevel;
  op_action : ResetAction;
  tasks : list ResetTask;
  op_start_time : option datetime;
  op_end_time : option datetime
}.

Definition has_status (s : string) (t : ResetTask) : bool :=
  bool_decide (status t = s).

(** [ResetOperation.status] (a property, recomputed on every read). *)
Definition operation_status (op : ResetOperation) : string :=
  match tasks op with
  | [] => "empty"
  | _ =>
    if existsb (has_status "failed") (tasks op) then "failed"
    else if forallb (has_status "completed") (tasks op) then "completed"
    else if existsb (has_status "running") (tasks op) then "running"
    else "pending"
  end.

(** [sum(1 for t in ts if t.status == s)]. *)
Fixpoint count_status (s : string) (ts : list ResetTask) : nat :=
  match ts with
  | [] => 0
  | t :: ts => ((if has_status s t then 1 else 0) + count_status s ts)%nat
  end.

Definition percent (completed total : nat) : Q :=
  (inject_Z (Z.of_nat completed) / inject_Z (Z.of_nat total) * 100)%Q.

(** [ResetOperation.progress]. *)
Definition progress (op : ResetOperation) : Q :=
  match tasks op with
  | [] => 0%Q
  | _ => percent (count_status "completed" (tasks op)) (length (tasks op))
  end.

(** ** Range configuration *)

(** One entry of a zone's [vms] list, read with [vm.get('name')] and
    [vm.get('team')]: an absent key reads as [None]. *)
Record VMEntry := mkVM {
  vm_get_name : option string;
  vm_get_team : option Z
}.

(** The loaded YAML: [zones] is a mapping in document order from zone name
    to the zone's [vms]; [platform_type] is [platform.type]: [None] when
    the key is absent, [Some None] when it is written as null. *)
Record Config := mkConfig {
  zones : list (string * list VMEntry);
  platform_type : option (option string)
}.

(** An element of [vms_to_reset]. *)
Record Target := mkTarget {
  target_name : option string;
  target_zone : string;
  target_team : option Z
}.

(** ** Planning *)

Section Planning.

Variables (level : ResetLevel) (zone : option string)
          (team : option Z) (vm : option string).

(** [level == ResetLevel.ZONE and zone and zone_name != zone] *)
Definition skip_zone (zone_name : string) : bool :=
  bool_decide (level = ZONE) && truthy_str zone
    && negb (bool_decide (Some zone_name = zone)).

(** The two [continue] guards of the inner loop. *)
Definition skip_vm (v : VMEntry) : bool :=
  (bool_decide (level = VM) && negb (bool_decide (vm_get_name v = vm)))
  || (bool_decide (level = TEAM) && truthy_int team
        && negb (bool_decide (vm_get_team v = team))).

(** The inner loop over one zone's [vms]. *)
Fixpoint collect_zone (zone_name : string) (vs : list VMEntry) : list Target :=
  match vs with
  | [] => []
  | v :: vs =>
    if skip_vm v then collect_zone zone_name vs
    else mkTarget (vm_get_name v) zone_name (vm_get_team v)
           :: collect_zone zone_name vs
  end.

(** The outer loop over [config.get('zones', {}).items()]. *)
Fixpoint collect_vms (zs : list (string * list VMEntry)) : list Target :=
  match zs with
  | [] => []
  | (zone_name, vs) :: zs =>
    if skip_zone zone_name then collect_vms zs
    else collect_zone zone_name vs ++ collect_vms zs
  end.

End Planning.

(** [ResetTask(vm_name=vm['name'], action=action, snapshot_name=snapshot_name)] *)
Definition new_task (a : ResetAction) (snapshot : option string) (v : Target)
  : ResetTask :=
  mkTask (target_name v) a snapshot "pending" None None None.

(** The orchestrator object: its configuration and [self.operation]. *)
Record ResetOrchestrator := mkOrchestrator {
  config : Config;
  operation : option ResetOperation
}.

(** [ResetOrchestrator.plan_reset].  [op_id] is the formatted
    [datetime.now()] it stamps the operation with.  The body has no [raise]:
    it stores the operation in [self.operation] and returns it. *)
Definition plan_reset (self : ResetOrchestrator) (op_id : string)
    (level : ResetLevel) (a : ResetAction) (snapshot zone : option string)
    (team : option Z) (vm : option string)
  : PyResult (ResetOrchestrator * ResetOperation) :=
  let vms_to_reset := collect_vms level zone team vm (zones (config self)) in
  let op := mkOperation op_id level a (new_task a snapshot <$> vms_to_reset)
              None None in
  Returns (mkOrchestrator (config self) (Some op), op).

(** ** Hypervisor adapter *)

(** The two mutating calls [execute_task] makes on [self.adapter]. *)
Inductive AdapterCall :=
| revert_snapshot (vm : option string) (snapshot : option string)
| power_cycle (vm : option string).

#[global] Instance AdapterCall_eq_dec : EqDecision AdapterCall.
Proof. solve_decision. Defined.

(** What an awaited adapter call does.  The adapter is a remote, stateful
    backend, so its answer is indexed by the task on whose behalf the call
    is made as well as by the call: it returns, raises an [Exception]
    (VM or snapshot not found, backend task failed, transport error), or
    never answers ([Hangs]). *)
Inductive Awaited (A : Type) : Type :=
| Done (r : PyResult A)
| Hangs.
Arguments Done {A} r.
Arguments Hangs {A}.

Definition Adapter := nat -> AdapterCall -> Awaited unit.

(** [DryRunAdapter]: both calls sleep, log, and return [True]. *)
Definition DryRunAdapter : Adapter := fun _ _ => Done (Returns tt).

(** ** Execution *)

(** Where the coroutine [execute_task(t)] of one task stands: not yet inside
    [async with semaphore]; suspended in the [await] of its adapter call;
    or returned. *)
Inductive Coroutine :=
| Queued
| Awaiting (call : AdapterCall)
| Finished.

#[global] Instance Coroutine_eq_dec : EqDecision Coroutine.
Proof. solve_decision. Defined.

Definition is_awaiting (c : Coroutine) : bool :=
  match c with Awaiting _ => true | _ => false end.

(** The state of one [execute] call between two suspension points: the
    operation being mutated, one coroutine per task, the clock, the adapter
    calls made so far, and what [progress_callback] has been shown. *)
Record ExecState := mkExec {
  run_op : ResetOperation;
  run_coros : list Coroutine;
  run_clock : datetime;
  run_calls : list (nat * AdapterCall);
  run_reports : list Q
}.

Definition with_tasks (op : ResetOperation) (ts : list ResetTask)
  : ResetOperation :=
  mkOperation (operation_id op) (level op) (op_action op) ts
    (op_start_time op) (op_end_time op).

(** [task.status = "running"; task.start_time = datetime.now()] *)
Definition set_running (now : datetime) (t : ResetTask) : ResetTask :=
  mkTask (vm_name t) (action t) (snapshot_name t) "running" (Some now)
    (end_time t) (error t).

(** [task.status = "completed"], then [finally: task.end_time = ...] *)
Definition set_completed (now : datetime) (t : ResetTask) : ResetTask :=
  mkTask (vm_name t) (action t) (snapshot_name t) "completed" (start_time t)
    (Some now) (error t).

(** [except Exception as e: task.status = "failed"; task.error = str(e)],
    then [finally: task.end_time = ...] *)
Definition set_failed (e : Exception) (now : datetime) (t : ResetTask)
  : ResetTask :=
  mkTask (vm_name t) (action t) (snapshot_name t) "failed" (start_time t)
    (Some now) (Some (exc_msg e)).

(** The [if]/[elif]/[else] of the [try] block: which adapter call the task's
    action selects, or the [ValueError] of the [else] branch. *)
Definition dispatch (t : ResetTask) : PyResult AdapterCall :=
  match action t with
  | SNAPSHOT_REVERT => Returns (revert_snapshot (vm_name t) (snapshot_name t))
  | POWER_CYCLE => Returns (power_cycle (vm_name t))
  | a => Raises (mkExc "ValueError" ("Unsupported action: " ++ ResetAction_str a))
  end.

(** [if progress_callback: progress_callback(self.operation)]: the callback
    reads the operation; what it is shown is logged. *)
Definition report (callback : bool) (op : ResetOperation) (seen : list Q)
  : list Q :=
  if callback then seen ++ [progress op] else seen.

(** The semaphore's counter is [parallel] minus the coroutines inside
    [async with semaphore], which are those suspended in their adapter
    call. *)
Definition in_flight (cs : list Coroutine) : nat :=
  length (filter (fun c => is_awaiting c = true) cs).

(** A coroutine runs from one suspension point to the next without
    interleaving.  [Acquire i]: coroutine [i] enters [async with semaphore].
    [Resume i]: the adapter call of coroutine [i] has answered. *)
Inductive Event :=
| Acquire (i : nat)
| Resume (i : nat).

Section Executor.

Variables (parallel : Z) (adapter : Adapter) (callback : bool).

(** [execute_task] from the head of [async with semaphore] to the [await]
    of the adapter call; with an unsupported action there is no [await]
    and the coroutine runs through [except] and [finally] to its end. *)
Definition execute_task_enter (i : nat) (t : ResetTask) (s : ExecState)
  : ExecState :=
  let now := run_clock s in
  let t1 := set_running now t in
  match dispatch t1 with
  | Returns call =>
    mkExec (with_tasks (run_op s) (<[i:=t1]> (tasks (run_op s))))
      (<[i:=Awaiting call]> (run_coros s)) (S now)
      (run_calls s ++ [(i, call)]) (run_reports s)
  | Raises e =>
    let t2 := set_failed e (S now) t1 in
    let op := with_tasks (run_op s) (<[i:=t2]> (tasks (run_op s))) in
    mkExec op (<[i:=Finished]> (run_coros s)) (S (S now)) (run_calls s)
      (report callback op (run_reports s))
  end.

(** [execute_task] from the adapter's answer to its end. *)
Definition execute_task_resume (i : nat) (r : PyResult unit) (t : ResetTask)
    (s : ExecState) : ExecState :=
  let now := run_clock s in
  let t2 := match r with
            | Returns _ => set_completed now t
            | Raises e => set_failed e now t
            end in
  let op := with_tasks (run_op s) (<[i:=t2]> (tasks (run_op s))) in
  mkExec op (<[i:=Finished]> (run_coros s)) (S now) (run_calls s)
    (report callback op (run_reports s)).

(** One scheduling step of the event loop; [None] when the event is not
    enabled in [s]. *)
Definition step (s : ExecState) (e : Event) : option ExecState :=
  match e with
  | Acquire i =>
    match run_coros s !! i, tasks (run_op s) !! i with
    | Some Queued, Some t =>
      if bool_decide (Z.of_nat (in_flight (run_coros s)) < parallel)
      then Some (execute_task_enter i t s)
      else None
    | _, _ => None
    end
  | Resume i =>
    match run_coros s !! i, tasks (run_op s) !! i with
    | Some (Awaiting call), Some t =>
      match adapter i call with
      | Done r => Some (execute_task_resume i r t s)
      | Hangs => None
      end
    | _, _ => None
    end
  end.

(** A schedule: the events of one run of the event loop, in order. *)
Fixpoint run (sched : list Event) (s : ExecState) : option ExecState :=
  match sched with
  | [] => Some s
  | e :: sched =>
    match step s e with
    | Some s' => run sched s'
    | None => None
    end
  end.

(** [asyncio.gather] returns once every coroutine has returned. *)
Definition gathered (s : ExecState) : bool :=
  forallb (fun c => bool_decide (c = Finished)) (run_coros s).

(** The event loop when adapter calls answer in the order they were made:
    the first waiting coroutine enters as soon as the semaphore has a free
    slot, otherwise the oldest pending adapter call answers. *)
Definition oldest_call (s : ExecState) : option Event :=
  match list_find (fun c => is_awaiting c = true) (run_coros s) with
  | Some (j, _) => Some (Resume j)
  | None => None
  end.

Definition next_event (s : ExecState) : option Event :=
  match list_find (fun c => c = Queued) (run_coros s) with
  | Some (i, _) =>
    if bool_decide (Z.of_nat (in_flight (run_coros s)) < parallel)
    then Some (Acquire i)
    else oldest_call s
  | None => oldest_call s
  end.

Fixpoint drive (fuel : nat) (s : ExecState) : ExecState :=
  match fuel with
  | O => s
  | S fuel =>
    match next_event s with
    | Some e =>
      match step s e with
      | Some s' => drive fuel s'
      | None => s
      end
    | None => s
    end
  end.

(** [execute] up to [asyncio.gather]: the guard on [self.operation], the
    operation's [start_time], and [asyncio.Semaphore(parallel)], which
    raises on a negative value. *)
Definition execute_begin (self : ResetOrchestrator) (clock : datetime)
  : PyResult ExecState :=
  match operation self with
  | None =>
    Raises (mkExc "RuntimeError" "No operation planned - call plan_reset first")
  | Some op =>
    if bool_decide (parallel < 0)
    then Raises (mkExc "ValueError" "Semaphore initial value must be >= 0")
    else
      Returns (mkExec
        (mkOperation (operation_id op) (level op) (op_action op) (tasks op)
           (Some clock) (op_end_time op))
        (replicate (length (tasks op)) Queued) (S clock) [] [])
  end.

(** [self.operation.end_time = datetime.now(); return self.operation] *)
Definition execute_end (s : ExecState) : ResetOperation :=
  mkOperation (operation_id (run_op s)) (level (run_op s))
    (op_action (run_op s)) (tasks (run_op s)) (op_start_time (run_op s))
    (Some (run_clock s)).

(** [ResetOrchestrator.execute] under a given schedule. *)
Definition execute_under (sched : list Event) (self : ResetOrchestrator)
    (clock : datetime) : Awaited ResetOperation :=
  match execute_begin self clock with
  | Raises e => Done (Raises e)
  | Returns s0 =>
    match run sched s0 with
    | Some s => if gathered s then Done (Returns (execute_end s)) else Hangs
    | None => Hangs
    end
  end.

(** [ResetOrchestrator.execute].  Every step retires a coroutine or moves
    it to its adapter call, so twice the number of tasks is fuel enough;
    the call hangs when the loop stops with a coroutine still waiting. *)
Definition execute (self : ResetOrchestrator) (clock : datetime)
  : Awaited ResetOperation :=
  match execute_begin self clock with
  | Raises e => Done (Raises e)
  | Returns s0 =>
    let s := drive (2 * length (run_coros s0)) s0 in
    if gathered s then Done (Returns (execute_end s)) else Hangs
  end.

End Executor.

(** ** Command line *)

(** The parsed arguments [main] reads.  [argparse] restricts [--action] to
    [snapshot_revert] and [power_cycle]. *)
Record Args := mkArgs {
  args_level : ResetLevel;
  args_action : ResetAction;
  args_snapshot : option string;
  args_zone : option string;
  args_team : option Z;
  args_vm : option string;
  args_parallel : Z;
  args_dry_run : bool;
  args_yes : bool
}.

(** What [main] meets outside the process: the configuration file, the
    clock, the answer typed at the prompt, and the hypervisor backend. *)
Record World := mkWorld {
  load_config : PyResult Config;
  now_id : string;
  now_clock : datetime;
  typed : string;
  backend_connect : PyResult unit;
  backend : Adapter;
  backend_disconnect : PyResult unit
}.

(** The four checks under [# Validate arguments]: the message handed to
    [parser.error], if any. *)
Definition validate (args : Args) : option string :=
  if bool_decide (args_action args = SNAPSHOT_REVERT)
       && negb (truthy_str (args_snapshot args))
  then Some "--snapshot is required for snapshot_revert action"
  else if bool_decide (args_level args = TEAM)
            && bool_decide (args_team args = None)
  then Some "--team is required for team-level reset"
  else if bool_decide (args_level args = ZONE)
            && negb (truthy_str (args_zone args))
  then Some "--zone is required for zone-level reset"
  else if bool_decide (args_level args = VM)
            && negb (truthy_str (args_vm args))
  then Some "--vm is required for vm-level reset"
  else None.

(** [ResetOrchestrator.initialize_adapter]: the adapter it binds, after
    [await self.adapter.connect()]. *)
Definition initialize_adapter (cfg : Config) (dry_run : bool) (w : World)
  : PyResult Adapter :=
  if dry_run then Returns DryRunAdapter
  else
    let platform_type := default (Some "vmware") (platform_type cfg) in
    if bool_decide (platform_type = Some "vmware")
         || bool_decide (platform_type = Some "proxmox")
    then match backend_connect w with
         | Returns _ => Returns (backend w)
         | Raises e => Raises e
         end
    else Raises (mkExc "ValueError"
                   ("Unsupported platform: " ++ py_str platform_type)).

(** [ResetOrchestrator.close]; the dry-run adapter's [disconnect] only logs. *)
Definition close (dry_run : bool) (w : World) : PyResult unit :=
  if dry_run then Returns tt else backend_disconnect w.

(** The [return] statement (or exit) a run of [main] ends at. *)
Inductive MainResult :=
| UsageError (msg : string)
| NoMatch (op : ResetOperation)
| Aborted (op : ResetOperation)
| Executed (op : ResetOperation)
| Crashed (e : Exception)
| NeverReturns.

(** The block under [# Confirmation]: whether the run goes on.  Without
    [--yes] and [--dry-run] the plan is printed, the names of the first five
    tasks joined by a comma, and the answer typed at the prompt decides. *)
Definition confirm (args : Args) (w : World) (op : ResetOperation)
  : PyResult bool :=
  if negb (args_yes args) && negb (args_dry_run args) then
    match join ", " (vm_name <$> take 5 (tasks op)) with
    | Raises e => Raises e
    | Returns _ =>
      Returns (bool_decide (typed w = "y") || bool_decide (typed w = "Y"))
    end
  else Returns true.

(** [main].  The operation returned by [plan_reset] is the object
    [execute] mutates and returns, so the final read of [operation.status]
    sees the executed tasks.  Whatever is raised under the [try] is caught
    and ends the run with 2. *)
Definition main (args : Args) (w : World) : MainResult :=
  match validate args with
  | Some msg => UsageError msg
  | None =>
    match load_config w with
    | Raises e => Crashed e
    | Returns cfg =>
      match plan_reset (mkOrchestrator cfg None) (now_id w) (args_level args)
              (args_action args) (args_snapshot args) (args_zone args)
              (args_team args) (args_vm args) with
      | Raises e => Crashed e
      | Returns (orchestrator, op) =>
        match tasks op with
        | [] => NoMatch op
        | _ =>
          match confirm args w op with
          | Raises e => Crashed e
          | Returns false => Aborted op
          | Returns true =>
            match initialize_adapter cfg (args_dry_run args) w with
            | Raises e => Crashed e
            | Returns adapter =>
              match execute (args_parallel args) adapter true orchestrator
                      (now_clock w) with
              | Hangs => NeverReturns
              | Done (Raises e) => Crashed e
              | Done (Returns op') =>
                match close (args_dry_run args) w with
                | Raises e => Crashed e
                | Returns _ => Executed op'
                end
              end
            end
          end
        end
      end
    end
  end.

(** The process exit status: [parser.error] exits with 2; otherwise the
    value [main] returns, handed to [sys.exit]. *)
Definition exit_status (r : MainResult) : option Z :=
  match r with
  | UsageError _ => Some 2
  | NoMatch _ => Some 1
  | Aborted _ => Some 0
  | Executed op =>
    Some (if bool_decide (operation_status op = "completed") then 0 else 1)
  | Crashed _ => Some 2
  | NeverReturns => None
  end.

(** ** Reading the resolution as a filter *)

(** Every VM of the topology, zone by zone in document order. *)
Definition topology_vms (zs : list (string * list VMEntry)) : list Target :=
  zs ≫= fun z => (fun v => mkTarget (vm_get_name v) z.1 (vm_get_team v)) <$> z.2.

(** The guards of the inner loop read on a collected target. *)
Definition kept (level : ResetLevel) (team : option Z) (vm : option string)
    (x : Target) : Prop :=
  (level = VM -> target_name x = vm)
  /\ (level = TEAM -> truthy_int team = true -> target_team x = team).

#[global] Instance kept_dec level team vm x : Decision (kept level team vm x).
Proof. unfold kept. apply _. Defined.

(** A range of two zones: three blue-team VMs of team 1, two red VMs
    without a team. *)
Definition range_config : Config :=
  mkConfig
    [("blue", [mkVM (Some "dc01-t1") (Some 1); mkVM (Some "ws01-t1") (Some 1);
               mkVM (Some "ws02-t1") (Some 1)]);
     ("red", [mkVM (Some "kali01") None; mkVM (Some "c2-01") None])]
    None.

(** A range in which two zones each hold a VM named [web01]. *)
Definition twin_config : Config :=
  mkConfig
    [("dmz", [mkVM (Some "web01") (Some 1)]);
     ("lan", [mkVM (Some "web01") (Some 2); mkVM (Some "db01") (Some 2)])]
    None.

(** A parameter combination [main] refuses: an action or level whose
    parameter is missing (for the string parameters: missing or empty). *)
Definition missing_parameter (args : Args) : Prop :=
  (args_action args = SNAPSHOT_REVERT /\ truthy_str (args_snapshot args) = false)
  \/ (args_level args = TEAM /\ args_team args = None)
  \/ (args_level args = ZONE /\ truthy_str (args_zone args) = false)
  \/ (args_level args = VM /\ truthy_str (args_vm args) = false).

(** ** Invariants of an execution *)

(** What the [try] block of task [i] ends with: the [ValueError] of an
    unsupported action, or the adapter's answer to the call dispatched. *)
Definition verdict (adapter : Adapter) (i : nat) (t : ResetTask)
  : Awaited unit :=
  match dispatch t with
  | Returns call => adapter i call
  | Raises e => Done (Raises e)
  end.

(** How the task at position [i] relates to the planned task [t0] it was,
    by where its coroutine stands. *)
Definition coroutine_inv (adapter : Adapter) (i : nat) (t0 : ResetTask)
    (c : Coroutine) (t : ResetTask) : Prop :=
  match c with
  | Queued => t = t0
  | Awaiting call =>
    dispatch t0 = Returns call /\ exists started, t = set_running started t0
  | Finished =>
    exists started ended,
      match verdict adapter i t0 with
      | Done (Returns _) => t = set_completed ended (set_running started t0)
      | Done (Raises e) => t = set_failed e ended (set_running started t0)
      | Hangs => False
      end
  end.

Definition exec_inv (adapter : Adapter) (ts0 : list ResetTask) (s : ExecState)
  : Prop :=
  length (run_coros s) = length ts0
  /\ length (tasks (run_op s)) = length ts0
  /\ (forall i t0 c t,
        ts0 !! i = Some t0 -> run_coros s !! i = Some c ->
        tasks (run_op s) !! i = Some t -> coroutine_inv adapter i t0 c t)
  /\ (forall i call,
        (i, call) ∈ run_calls s ->
        exists t0, ts0 !! i = Some t0 /\ dispatch t0 = Returns call).

(** Steps a coroutine still has to take. *)
Definition weight (c : Coroutine) : nat :=
  match c with
  | Queued => 2
  | Awaiting _ => 1
  | Finished => 0
  end.

Definition work (cs : list Coroutine) : nat := sum_list (weight <$> cs).

(** Every adapter call the operation dispatches is answered. *)
Definition answers (adapter : Adapter) (ts0 : list ResetTask) : Prop :=
  forall i t0, ts0 !! i = Some t0 -> verdict adapter i t0 <> Hangs.

(** A task as [plan_reset] creates it. *)
Definition planned (t : ResetTask) : Prop :=
  status t = "pending" /\ start_time t = None /\ end_time t = None
  /\ error t = None.

(** The outcome of an operation whose task [k] met the exception [e] while
    every other adapter call returned: same tasks, task [k] failed with the
    exception's text, the others completed, the operation reads failed. *)
Definition isolated_failure (op : ResetOperation) (k : nat) (e : Exception)
    (op' : ResetOperation) : Prop :=
  length (tasks op') = length (tasks op)
  /\ (exists t, tasks op' !! k = Some t /\ status t = "failed"
                /\ error t = Some (exc_msg e) /\ is_Some (end_time t))
  /\ (forall i t, i <> k -> tasks op' !! i = Some t ->
        status t = "completed" /\ is_Some (end_time t))
  /\ operation_status op' = "failed".

(** ** Sample runs *)

(** An adapter whose call for task [k] raises [e] and whose other calls
    return. *)
Definition failing_at (k : nat) (e : Exception) : Adapter :=
  fun i _ => Done (if bool_decide (i = k) then Raises e else Returns tt).

Definition vm_not_found : Exception :=
  mkExc "ValueError" "VM not found: ws01-t1".

(** A transport timeout: an exception whose [str(e)] is the empty string. *)
Definition timed_out : Exception := mkExc "TimeoutError" "".

(** The whole range, planned for a power cycle. *)
Definition range_operation : ResetOperation :=
  mkOperation "20260101-000000" FULL POWER_CYCLE
    (new_task POWER_CYCLE None <$> topology_vms (zones range_config))
    None None.

Definition range_orchestrator : ResetOrchestrator :=
  mkOrchestrator range_config (Some range_operation).

(** A rehearsal environment: the range's configuration, nothing typed at
    the prompt, and a backend that always answers. *)
Definition rehearsal : World :=
  mkWorld (Returns range_config) "20260101-000000" 0%nat ""
    (Returns tt) DryRunAdapter (Returns tt).

(** The life-cycle reading of a task's fields: [end_time] is set exactly
    in the two terminal states, [error] exactly in the failed one. *)
Definition lifecycle_inv (t : ResetTask) : Prop :=
  (is_Some (end_time t) <-> status t = "completed" \/ status t = "failed")
  /\ (is_Some (error t) <-> status t = "failed").

(** What the progress callback was shown reads in order: no value is
    greater than one shown after it. *)
Definition nondecreasing (qs : list Q) : Prop :=
  forall i j a b,
    (i <= j)%nat -> qs !! i = Some a -> qs !! j = Some b -> (a <= b)%Q.

(** ** Reading a finished task *)

(** [ResetTask.duration_seconds]: the seconds between the two times when
    both are set (a [datetime] is always truthy), else [None]. *)
Definition duration_seconds (t : ResetTask) : option Z :=
  match start_time t, end_time t with
  | Some started, Some ended => Some (Z.of_nat ended - Z.of_nat started)
  | _, _ => None
  end.

(** How task [t] of an executed operation relates to the planned task [t0]
    at the same position [i]: what identifies the task is untouched, both
    times are set, and status and error are those of the task's own
    [try] block. *)
Definition settled (adapter : Adapter) (i : nat) (t0 t : ResetTask) : Prop :=
  vm_name t = vm_name t0 /\ action t = action t0
  /\ snapshot_name t = snapshot_name t0
  /\ is_Some (start_time t) /\ is_Some (end_time t)
  /\ match verdict adapter i t0 with
     | Done (Returns _) => status t = "completed" /\ error t = error t0
     | Done (Raises e) => status t = "failed" /\ error t = Some (exc_msg e)
     | Hangs => False
     end.

(** The three numbers of the report's SUMMARY line and of
    [progress_printer]: completed, failed, total. *)
Definition summary (op : ResetOperation) : nat * nat * nat :=
  (count_status "completed" (tasks op), count_status "failed" (tasks op),
   length (tasks op)).

(** The adapter calls made so far, read against the coroutines: no task
    has two calls, only tasks past their [Queued] stage have one, and each
    such task whose action dispatches has its call on record. *)
Definition calls_inv (ts0 : list ResetTask) (s : ExecState) : Prop :=
  NoDup (fst <$> run_calls s)
  /\ (forall i, i ∈ fst <$> run_calls s -> run_coros s !! i <> Some Queued)
  /\ (forall i c t0 call,
        run_coros s !! i = Some c -> c <> Queued -> ts0 !! i = Some t0 ->
        dispatch t0 = Returns call -> (i, call) ∈ run_calls s).

(** ** The vSphere adapter *)

Module VMwareAdapter.

(** A node of [vm.snapshot.rootSnapshotList]: the snapshot's name, the
    snapshot object it stands for (a managed object, hence truthy; here its
    reference), and [childSnapshotList]. *)
#[local] Unset Elimination Schemes.
Inductive SnapshotTree :=
| SnapshotNode (name : string) (snapshot : string)
    (childSnapshotList : list SnapshotTree).
#[local] Set Elimination Schemes.

(** Induction over a snapshot tree with the hypothesis for every child. *)
Fixpoint SnapshotTree_nested_ind (P : SnapshotTree -> Prop)
    (step : forall n r cs, Forall P cs -> P (SnapshotNode n r cs))
    (t : SnapshotTree) : P t :=
  match t with
  | SnapshotNode n r cs =>
    step n r cs
      ((fix children (l : list SnapshotTree) : Forall P l :=
          match l with
          | [] => Forall_nil_2 P
          | c :: l =>
            Forall_cons_2 P c l (SnapshotTree_nested_ind P step c)
              (children l)
          end) cs)
  end.

(** The body of the loop of [find_in_tree] for one snapshot: the name
    test, then the search of its children. *)
Fixpoint find_in_node (name : option string) (node : SnapshotTree)
  : option string :=
  match node with
  | SnapshotNode n ref children =>
    if bool_decide (Some n = name) then Some ref
    else
      (fix find_in_children (l : list SnapshotTree) : option string :=
         match l with
         | [] => None
         | c :: l =>
           match find_in_node name c with
           | Some result => Some result
           | None => find_in_children l
           end
         end) children
  end.

(** [find_in_tree(snapshots, name)] of [_find_snapshot]. *)
Fixpoint find_in_tree (snapshots : list SnapshotTree) (name : option string)
  : option string :=
  match snapshots with
  | [] => None
  | node :: snapshots =>
    match find_in_node name node with
    | Some result => Some result
    | None => find_in_tree snapshots name
    end
  end.

(** The snapshots of a tree, parents before children, siblings in order,
    each with its name and reference. *)
Fixpoint preorder (node : SnapshotTree) : list (string * string) :=
  match node with
  | SnapshotNode n ref children =>
    (n, ref)
      :: (fix over (l : list SnapshotTree) : list (string * string) :=
            match l with
            | [] => []
            | c :: l => (preorder c ++ over l)%list
            end) children
  end.

Definition preorder_all (snapshots : list SnapshotTree)
  : list (string * string) :=
  snapshots ≫= preorder.

(** A virtual machine of the inventory: [vm.name], [vm.snapshot] ([None]
    when it has no snapshot, else its [rootSnapshotList]), and whether
    [vm.runtime.powerState] is [poweredOn]. *)
Record VirtualMachine := mkVirtualMachine {
  vsphere_name : string;
  vsphere_snapshot : option (list SnapshotTree);
  vsphere_powered_on : bool
}.

(** [task.info.state] *)
Inductive TaskState := queued | running | success | error.

#[global] Instance TaskState_eq_dec : EqDecision TaskState.
Proof. solve_decision. Defined.

(** A vSphere task: [poll k] is what the [k]-th read of [task.info.state]
    returns, [fault] is [str(task.info.error)]. *)
Record Task := mkTask {
  poll : nat -> TaskState;
  fault : string
}.

(** What the adapter sees of vCenter: the VMs of the container view, in
    order, and the task each request starts (or the fault it raises). *)
Record VSphere := mkVSphere {
  view : list VirtualMachine;
  RevertToSnapshot_Task : string -> PyResult Task;
  ResetVM_Task : VirtualMachine -> PyResult Task;
  PowerOnVM_Task : VirtualMachine -> PyResult Task
}.

(** [_find_vm]: the first VM of the view with that name. *)
Fixpoint _find_vm (vms : list VirtualMachine) (vm_name : option string)
  : option VirtualMachine :=
  match vms with
  | [] => None
  | vm :: vms =>
    if bool_decide (Some (vsphere_name vm) = vm_name) then Some vm
    else _find_vm vms vm_name
  end.

(** [_find_snapshot] *)
Definition _find_snapshot (vm : VirtualMachine) (snapshot_name : option string)
  : option string :=
  match vsphere_snapshot vm with
  | None => None
  | Some rootSnapshotList => find_in_tree rootSnapshotList snapshot_name
  end.

Definition terminal (st : TaskState) : bool :=
  bool_decide (st = success) || bool_decide (st = error).

(** The [while] loop of [_wait_for_task], started at read [k]: the read at
    which it ends, if it ends within [fuel] reads. *)
Fixpoint wait_loop (fuel : nat) (task : Task) (k : nat) : option nat :=
  match fuel with
  | O => None
  | S fuel =>
    if terminal (poll task k) then Some k else wait_loop fuel task (S k)
  end.

(** [_wait_for_task]: [None] while the loop is still polling after [fuel]
    reads; otherwise the state is read once more and an error state is
    raised. *)
Definition _wait_for_task (fuel : nat) (task : Task)
  : option (PyResult unit) :=
  match wait_loop fuel task 0 with
  | None => None
  | Some k =>
    if bool_decide (poll task (S k) = error)
    then Some (Raises (mkExc "RuntimeError" ("Task failed: " ++ fault task)))
    else Some (Returns tt)
  end.

Definition start_and_wait (fuel : nat) (request : PyResult Task)
  : option (PyResult unit) :=
  match request with
  | Raises e => Some (Raises e)
  | Returns task => _wait_for_task fuel task
  end.

(** [VMwareAdapter.revert_snapshot] *)
Definition revert_snapshot (fuel : nat) (vc : VSphere)
    (vm_name snapshot_name : option string) : option (PyResult unit) :=
  match _find_vm (view vc) vm_name with
  | None => Some (Raises (mkExc "ValueError" ("VM not found: " ++ py_str vm_name)))
  | Some vm =>
    match _find_snapshot vm snapshot_name with
    | None =>
      Some (Raises (mkExc "ValueError"
                      ("Snapshot not found: " ++ py_str snapshot_name
                         ++ " on " ++ py_str vm_name)))
    | Some snapshot => start_and_wait fuel (RevertToSnapshot_Task vc snapshot)
    end
  end.

(** [VMwareAdapter.power_cycle] *)
Definition power_cycle (fuel : nat) (vc : VSphere) (vm_name : option string)
  : option (PyResult unit) :=
  match _find_vm (view vc) vm_name with
  | None => Some (Raises (mkExc "ValueError" ("VM not found: " ++ py_str vm_name)))
  | Some vm =>
    if vsphere_powered_on vm
    then start_and_wait fuel (ResetVM_Task vc vm)
    else start_and_wait fuel (PowerOnVM_Task vc vm)
  end.

End VMwareAdapter.

(** The vSphere adapter as [execute] calls it, against a vCenter whose
    inventory does not change during the run; a task still polling after
    [fuel] reads counts as not answering. *)
Definition vmware_adapter (fuel : nat) (vc : VMwareAdapter.VSphere) : Adapter :=
  fun _ call =>
    match
      match call with
      | revert_snapshot vm snapshot =>
        VMwareAdapter.revert_snapshot fuel vc vm snapshot
      | power_cycle vm => VMwareAdapter.power_cycle fuel vc vm
      end
    with
    | Some r => Done r
    | None => Hangs
    end.

(** The snapshots of a VM at every depth, in pre-order; none when
    [vm.snapshot] is unset. *)
Definition vm_snapshots (vm : VMwareAdapter.VirtualMachine)
  : list (string * string) :=
  match VMwareAdapter.vsphere_snapshot vm with
  | None => []
  | Some rootSnapshotList => VMwareAdapter.preorder_all rootSnapshotList
  end.

(** A task that is running for three reads and then succeeds. *)
Definition slow_task : VMwareAdapter.Task :=
  VMwareAdapter.mkTask
    (fun k => if (k <? 3)%nat then VMwareAdapter.running
              else VMwareAdapter.success)
    "".

(** A vCenter that holds the blue team's domain controller and the red
    team's hosts, but neither blue workstation; every request succeeds at
    once. *)
Definition partial_vcenter : VMwareAdapter.VSphere :=
  VMwareAdapter.mkVSphere
    [VMwareAdapter.mkVirtualMachine "dc01-t1"
       (Some [VMwareAdapter.SnapshotNode "base" "snapshot-1"
                [VMwareAdapter.SnapshotNode "pre-ex" "snapshot-2" []]])
       true;
     VMwareAdapter.mkVirtualMachine "kali01" None false;
     VMwareAdapter.mkVirtualMachine "c2-01" None true]
    (fun _ => Returns (VMwareAdapter.mkTask (fun _ => VMwareAdapter.success) ""))
    (fun _ => Returns (VMwareAdapter.mkTask (fun _ => VMwareAdapter.success) ""))
    (fun _ => Returns (VMwareAdapter.mkTask (fun _ => VMwareAdapter.success) "")).

(** ** The Proxmox adapter *)

Module ProxmoxAdapter.

(** An entry of [nodes(node).qemu.get()]: [vm['vmid']] and
    [vm.get('name')]. *)
Record QemuVM := mkQemuVM {
  vmid : Z;
  qemu_name : option string
}.

(** What the adapter sees of the cluster: each node's name
    ([pve_node['node']]) with its VMs, in the order the API lists them, and
    the outcome of the two requests it posts. *)
Record Cluster := mkCluster {
  nodes : list (string * list QemuVM);
  rollback_post : string -> Z -> option string -> PyResult unit;
  reset_post : string -> Z -> PyResult unit
}.

(** [str(vm['vmid']) == str(vm_name) or vm.get('name') == vm_name] *)
Definition matches (vm_name : option string) (vm : QemuVM) : bool :=
  bool_decide (pretty (vmid vm) = py_str vm_name)
  || bool_decide (qemu_name vm = vm_name).

(** The inner loop of [_find_vm] over one node's VMs. *)
Fixpoint find_on_node (pve_node : string) (vms : list QemuVM)
    (vm_name : option string) : option (Z * string) :=
  match vms with
  | [] => None
  | vm :: vms =>
    if matches vm_name vm then Some (vmid vm, pve_node)
    else find_on_node pve_node vms vm_name
  end.

(** [_find_vm]; [None] stands for the pair [(None, None)]. *)
Fixpoint _find_vm (pve_nodes : list (string * list QemuVM))
    (vm_name node : option string) : option (Z * string) :=
  match pve_nodes with
  | [] => None
  | (pve_node, vms) :: pve_nodes =>
    if truthy_str node && negb (bool_decide (Some pve_node = node))
    then _find_vm pve_nodes vm_name node
    else
      match find_on_node pve_node vms vm_name with
      | Some found => Some found
      | None => _find_vm pve_nodes vm_name node
      end
  end.

(** [ProxmoxAdapter.revert_snapshot]; [if not vmid] also refuses a VM
    found with id 0. *)
Definition revert_snapshot (pve : Cluster)
    (vm_name snapshot_name node : option string) : PyResult unit :=
  match _find_vm (nodes pve) vm_name node with
  | Some (vmid, node) =>
    if bool_decide (vmid = 0)
    then Raises (mkExc "ValueError" ("VM not found: " ++ py_str vm_name))
    else
      match rollback_post pve node vmid snapshot_name with
      | Returns _ => Returns tt
      | Raises e => Raises e
      end
  | None => Raises (mkExc "ValueError" ("VM not found: " ++ py_str vm_name))
  end.

(** [ProxmoxAdapter.power_cycle] *)
Definition power_cycle (pve : Cluster) (vm_name node : option string)
  : PyResult unit :=
  match _find_vm (nodes pve) vm_name node with
  | Some (vmid, node) =>
    if bool_decide (vmid = 0)
    then Raises (mkExc "ValueError" ("VM not found: " ++ py_str vm_name))
    else
      match reset_post pve node vmid with
      | Returns _ => Returns tt
      | Raises e => Raises e
      end
  | None => Raises (mkExc "ValueError" ("VM not found: " ++ py_str vm_name))
  end.

End ProxmoxAdapter.

(** A node is searched when no node was asked for, or it is the one asked
    for. *)
Definition searched (node : option string) (pve_node : string) : Prop :=
  truthy_str node = true -> Some pve_node = node.

(** A cluster of two nodes; VM 101 is named like the id of VM 100. *)
Definition small_cluster : ProxmoxAdapter.Cluster :=
  ProxmoxAdapter.mkCluster
    [("pve1", [ProxmoxAdapter.mkQemuVM 101 (Some "100");
               ProxmoxAdapter.mkQemuVM 102 (Some "ws01-t1")]);
     ("pve2", [ProxmoxAdapter.mkQemuVM 100 (Some "dc01-t1")])]
    (fun _ _ _ => Returns tt) (fun _ _ => Returns tt).

(** ** Reading a run of [main] *)

(** The operation [main] plans from its arguments and a loaded
    configuration. *)
Definition main_plan (args : Args) (w : World) (cfg : Config) : ResetOperation :=
  mkOperation (now_id w) (args_level args) (args_action args)
    (new_task (args_action args) (args_snapshot args)
       <$> collect_vms (args_level args) (args_zone args) (args_team args)
             (args_vm args) (zones cfg))
    None None.

(** A range whose second VM has no [name] key. *)
Definition nameless_config : Config :=
  mkConfig [("blue", [mkVM (Some "dc01-t1") (Some 1); mkVM None (Some 1)])]
    None.

(** The same world with another answer at the prompt and another backend. *)
Definition with_backend (w : World) (answer : string) (connect : PyResult unit)
    (adapter : Adapter) (disconnect : PyResult unit) : World :=
  mkWorld (load_config w) (now_id w) (now_clock w) answer connect adapter
    disconnect.

(** * Properties *)

(** ** Derived status and progress *)

Lemma existsb_has_status s ts :
  existsb (has_status s) ts = true <-> exists t, t ∈ ts /\ status t = s.
Proof.
  rewrite existsb_exists. unfold has_status. split.
  - intros (t & Hin & Ht). apply bool_decide_eq_true in Ht.
    exists t. split; [by apply list_elem_of_In | done].
  - intros (t & Hin & Ht). exists t.
    split; [by apply list_elem_of_In | by apply bool_decide_eq_true].
Qed.

Lemma forallb_has_status s ts :
  forallb (has_status s) ts = true <-> forall t, t ∈ ts -> status t = s.
Proof.
  rewrite forallb_forall. unfold has_status. split.
  - intros H t Hin. apply list_elem_of_In, H in Hin.
    by apply bool_decide_eq_true in Hin.
  - intros H t Hin. apply bool_decide_eq_true, H. by apply list_elem_of_In.
Qed.

Lemma existsb_has_status_false s ts :
  existsb (has_status s) ts = false <-> forall t, t ∈ ts -> status t <> s.
Proof.
  split.
  - intros H t Hin Ht. assert (existsb (has_status s) ts = true) as H'
      by (apply existsb_has_status; eauto). congruence.
  - intros H. destruct (existsb (has_status s) ts) eqn:E; [|done].
    apply existsb_has_status in E as (t & Hin & Ht). by destruct (H t Hin).
Qed.

Lemma operation_status_cases op :
  operation_status op =
    match tasks op with
    | [] => "empty"
    | _ => if existsb (has_status "failed") (tasks op) then "failed"
           else if forallb (has_status "completed") (tasks op) then "completed"
           else if existsb (has_status "running") (tasks op) then "running"
           else "pending"
    end.
Proof. reflexivity. Qed.

(** A failed task decides the derived status. *)
Lemma operation_status_failed op :
  (exists t, t ∈ tasks op /\ status t = "failed") ->
  operation_status op = "failed".
Proof.
  intros Hf. rewrite operation_status_cases.
  pose proof Hf as (t & Hin & _).
  apply existsb_has_status in Hf. rewrite Hf.
  destruct (tasks op); [by apply elem_of_nil in Hin | done].
Qed.

(** C3. The derived status is ["empty"] for no tasks; else ["failed"] if
    some task failed; else ["completed"] if every task completed; else
    ["running"] if some task is running; else ["pending"].  It is a function
    of the task list alone: two operations with the same tasks read the same
    status, whatever their other fields. *)
Theorem operation_status_derivation (op : ResetOperation) :
  (tasks op = [] -> operation_status op = "empty")
  /\ (tasks op <> [] ->
      (exists t, t ∈ tasks op /\ status t = "failed") ->
      operation_status op = "failed")
  /\ (tasks op <> [] ->
      (forall t, t ∈ tasks op -> status t <> "failed") ->
      (forall t, t ∈ tasks op -> status t = "completed") ->
      operation_status op = "completed")
  /\ (tasks op <> [] ->
      (forall t, t ∈ tasks op -> status t <> "failed") ->
      ~ (forall t, t ∈ tasks op -> status t = "completed") ->
      (exists t, t ∈ tasks op /\ status t = "running") ->
      operation_status op = "running")
  /\ (tasks op <> [] ->
      (forall t, t ∈ tasks op -> status t <> "failed") ->
      ~ (forall t, t ∈ tasks op -> status t = "completed") ->
      (forall t, t ∈ tasks op -> status t <> "running") ->
      operation_status op = "pending")
  /\ (forall op', tasks op' = tasks op ->
      operation_status op' = operation_status op).
Proof.
  rewrite operation_status_cases.
  repeat split.
  - by intros ->.
  - intros _ Hf. rewrite <- operation_status_cases.
    by apply operation_status_failed.
  - intros Hne Hnf Hc. apply existsb_has_status_false in Hnf.
    apply forallb_has_status in Hc. rewrite Hnf, Hc. by destruct (tasks op).
  - intros Hne Hnf Hnc Hr. apply existsb_has_status_false in Hnf.
    apply existsb_has_status in Hr. rewrite Hnf, Hr.
    destruct (forallb _ _) eqn:E.
    + destruct Hnc. by apply forallb_has_status.
    + by destruct (tasks op).
  - intros Hne Hnf Hnc Hnr. apply existsb_has_status_false in Hnf, Hnr.
    rewrite Hnf, Hnr. destruct (forallb _ _) eqn:E.
    + destruct Hnc. by apply forallb_has_status.
    + by destruct (tasks op).
  - intros op' Heq. unfold operation_status. by rewrite Heq.
Qed.

Lemma operation_status_derivation_witness :
  operation_status
    (mkOperation "20260101-000000" FULL POWER_CYCLE
       [mkTask (Some "dc01") POWER_CYCLE None "completed" (Some 1%nat) (Some 2%nat) None;
        mkTask (Some "ws01") POWER_CYCLE None "running" (Some 1%nat) None None]
       (Some 0%nat) None) = "running".
Proof.
  refine (proj1 (proj2 (proj2 (proj2 (operation_status_derivation _)))) _ _ _ _).
  - done.
  - intros t Ht. repeat (apply elem_of_cons in Ht as [->|Ht]; [done|]).
    by apply elem_of_nil in Ht.
  - intros H. specialize (H _ (list_elem_of_further _ _ _ (list_elem_of_here _ _))).
    done.
  - eexists. split; [apply list_elem_of_further, list_elem_of_here | done].
Defined.

(** ** Scope resolution and planning *)

Section Resolution.

Variables (level : ResetLevel) (zone : option string)
          (team : option Z) (vm : option string).

Lemma skip_vm_kept v zn :
  skip_vm level team vm v = false
  <-> kept level team vm (mkTarget (vm_get_name v) zn (vm_get_team v)).
Proof.
  unfold skip_vm, kept; simpl.
  repeat case_bool_decide; destruct (truthy_int team); simpl;
    intuition congruence.
Qed.

Lemma collect_zone_filter zn vs :
  collect_zone level team vm zn vs
  = filter (kept level team vm) ((fun v => mkTarget (vm_get_name v) zn (vm_get_team v)) <$> vs).
Proof.
  induction vs as [|v vs IH]; [done|]. simpl.
  destruct (skip_vm level team vm v) eqn:E.
  - rewrite filter_cons_False; [done|].
    intros Hk. apply skip_vm_kept in Hk. congruence.
  - rewrite filter_cons_True by (by apply skip_vm_kept). by rewrite IH.
Qed.

(** When no zone is skipped the two loops are a filter of the topology. *)
Lemma collect_vms_filter zs :
  (forall z, z ∈ zs -> skip_zone level zone z.1 = false) ->
  collect_vms level zone team vm zs = filter (kept level team vm) (topology_vms zs).
Proof.
  induction zs as [|[zn vs] zs IH]; intros Hz; [done|].
  unfold topology_vms in *. simpl.
  pose proof (Hz (zn, vs) (list_elem_of_here _ _)) as Hskip.
  simpl in Hskip. rewrite Hskip.
  rewrite filter_app, collect_zone_filter. f_equal.
  apply IH. intros z Hin. apply Hz. by apply list_elem_of_further.
Qed.

End Resolution.

Lemma skip_zone_other_level level zone zn :
  level <> ZONE -> skip_zone level zone zn = false.
Proof. intros H. unfold skip_zone. by rewrite bool_decide_eq_false_2. Qed.

Lemma filter_ext_elem {A} (P Q : A -> Prop) `{!forall x, Decision (P x)}
    `{!forall x, Decision (Q x)} (l : list A) :
  (forall x, x ∈ l -> (P x <-> Q x)) -> filter P l = filter Q l.
Proof.
  induction l as [|x l IH]; intros Hl; [done|].
  assert (filter P l = filter Q l) as IH'.
  { apply IH. intros y Hy. apply Hl. by apply list_elem_of_further. }
  destruct (decide (P x)) as [HP|HP].
  - rewrite !filter_cons_True; [by f_equal| |done].
    by apply (Hl x (list_elem_of_here _ _)).
  - rewrite !filter_cons_False; [done| |done].
    intros HQ. by apply HP, (Hl x (list_elem_of_here _ _)).
Qed.

Lemma filter_all {A} (P : A -> Prop) `{!forall x, Decision (P x)} (l : list A) :
  (forall x, x ∈ l -> P x) -> filter P l = l.
Proof.
  induction l as [|x l IH]; intros Hl; [done|].
  rewrite filter_cons_True by apply Hl, list_elem_of_here.
  f_equal. apply IH. intros y Hy. by apply Hl, list_elem_of_further.
Qed.

Lemma filter_none {A} (P : A -> Prop) `{!forall x, Decision (P x)} (l : list A) :
  (forall x, x ∈ l -> ~ P x) -> filter P l = [].
Proof.
  induction l as [|x l IH]; intros Hl; [done|].
  rewrite filter_cons_False by apply Hl, list_elem_of_here.
  apply IH. intros y Hy. by apply Hl, list_elem_of_further.
Qed.

Lemma filter_unique {A B} `{EqDecision B} (f : A -> B) (b : B) (l : list A) :
  NoDup (f <$> l) -> (length (filter (fun x => f x = b) l) <= 1)%nat.
Proof.
  induction l as [|x l IH]; simpl; intros Hnd; [lia|].
  apply NoDup_cons in Hnd as [Hx Hnd].
  destruct (decide (f x = b)) as [<-|Hne].
  - rewrite filter_cons_True by done.
    rewrite filter_none; [simpl; lia|].
    intros y Hy Heq. apply Hx.
    rewrite <- Heq. apply list_elem_of_fmap. eauto.
  - rewrite filter_cons_False by done. by apply IH.
Qed.

(** Scope [VM] keeps the VMs named [vm]; scope [TEAM] with a truthy team
    keeps the VMs of that team, both in topology order. *)
Lemma collect_vms_VM zone team vm zs :
  collect_vms VM zone team vm zs
  = filter (fun x => target_name x = vm) (topology_vms zs).
Proof.
  rewrite collect_vms_filter by (intros; by apply skip_zone_other_level).
  apply filter_ext_elem. intros x _. unfold kept. intuition congruence.
Qed.

Lemma collect_vms_TEAM zone t vm zs :
  t <> 0 ->
  collect_vms TEAM zone (Some t) vm zs
  = filter (fun x => target_team x = Some t) (topology_vms zs).
Proof.
  intros Ht.
  rewrite collect_vms_filter by (intros; by apply skip_zone_other_level).
  apply filter_ext_elem. intros x _. unfold kept; simpl.
  rewrite bool_decide_eq_false_2 by done. simpl. intuition congruence.
Qed.

Lemma collect_vms_TEAM_falsy zone team vm zs :
  truthy_int team = false ->
  collect_vms TEAM zone team vm zs = topology_vms zs.
Proof.
  intros Ht.
  rewrite collect_vms_filter by (intros; by apply skip_zone_other_level).
  apply filter_all. intros x _. unfold kept. rewrite Ht. intuition congruence.
Qed.

Lemma plan_reset_returns self id level a snapshot zone team vm :
  plan_reset self id level a snapshot zone team vm
  = Returns
      (mkOrchestrator (config self)
         (Some (mkOperation id level a
                  (new_task a snapshot
                     <$> collect_vms level zone team vm (zones (config self)))
                  None None)),
       mkOperation id level a
         (new_task a snapshot
            <$> collect_vms level zone team vm (zones (config self)))
         None None).
Proof. reflexivity. Qed.

(** C1, as stated, fails: [plan_reset] called with [SNAPSHOT_REVERT] and no
    snapshot name, at level [TEAM] with no team, raises nothing; it resolves
    the scope and returns an operation of five pending tasks. *)
Lemma plan_reset_accepts_missing_parameters :
  exists orch op,
    plan_reset (mkOrchestrator range_config None) "20260101-000000"
      TEAM SNAPSHOT_REVERT None None None None = Returns (orch, op)
    /\ vm_name <$> tasks op
       = [Some "dc01-t1"; Some "ws01-t1"; Some "ws02-t1"; Some "kali01";
          Some "c2-01"]
    /\ status <$> tasks op
       = ["pending"; "pending"; "pending"; "pending"; "pending"].
Proof. do 2 eexists. split; [reflexivity|]. split; reflexivity. Qed.

(** C1, amended.  The parameter checks live in [main], ahead of the
    orchestrator: a snapshot revert with no snapshot name, or level TEAM,
    ZONE or VM without its filter, ends in [parser.error] (exit status 2)
    whatever the configuration and backend are, so nothing is planned or
    resolved.  [plan_reset] itself checks nothing: for every parameter
    combination it returns the operation with one task per collected VM. *)
Theorem validation_precedes_planning :
  (forall args w, missing_parameter args ->
     exists msg, main args w = UsageError msg
                 /\ exit_status (main args w) = Some 2)
  /\ (forall self id level a snapshot zone team vm,
       exists op,
         plan_reset self id level a snapshot zone team vm
         = Returns (mkOrchestrator (config self) (Some op), op)
         /\ tasks op
            = new_task a snapshot
                <$> collect_vms level zone team vm (zones (config self))).
Proof.
  split.
  - intros args w Hmiss. unfold main.
    assert (exists msg, validate args = Some msg) as [msg Hv].
    { unfold validate, missing_parameter in *.
      destruct Hmiss as [[Ha Hs]|[[Hl Ht]|[[Hl Hz]|[Hl Hv]]]].
      - rewrite Ha, Hs. simpl. eauto.
      - rewrite Hl, Ht. simpl. destruct (_ && _); eauto.
      - rewrite Hl, Hz. simpl. destruct (_ && _); eauto.
      - rewrite Hl, Hv. simpl. destruct (_ && _); eauto. }
    rewrite Hv. eauto.
  - intros. eexists. split; [apply plan_reset_returns | done].
Qed.

Lemma validation_precedes_planning_witness :
  exists msg,
    main (mkArgs TEAM SNAPSHOT_REVERT None None (Some 1) None 5 true true)
      rehearsal
    = UsageError msg
    /\ exit_status
         (main (mkArgs TEAM SNAPSHOT_REVERT None None (Some 1) None 5 true true)
            rehearsal)
       = Some 2.
Proof.
  apply (proj1 validation_precedes_planning).
  left. split; reflexivity.
Defined.

(** Scope TEAM with a non-zero team number plans exactly the VMs of that
    team, across zones, in topology order. *)
Lemma plan_team_nonzero self id a snapshot zone t vm :
  t <> 0 ->
  exists orch op,
    plan_reset self id TEAM a snapshot zone (Some t) vm = Returns (orch, op)
    /\ tasks op
       = new_task a snapshot
           <$> filter (fun x => target_team x = Some t)
                 (topology_vms (zones (config self))).
Proof.
  intros Ht. do 2 eexists. split; [apply plan_reset_returns|].
  simpl. by rewrite collect_vms_TEAM.
Qed.

(** Scope TEAM with team 0 (or no team) plans every VM of the topology. *)
Lemma plan_team_falsy self id a snapshot zone team vm :
  truthy_int team = false ->
  exists orch op,
    plan_reset self id TEAM a snapshot zone team vm = Returns (orch, op)
    /\ tasks op = new_task a snapshot <$> topology_vms (zones (config self)).
Proof.
  intros Ht. do 2 eexists. split; [apply plan_reset_returns|].
  simpl. by rewrite collect_vms_TEAM_falsy.
Qed.

(** C4, at the failing input.  No VM of the range has team 0, yet planning
    scope TEAM with team 0 selects all five VMs: [team and ...] reads 0 as
    "no filter", where [main] tests [args.team is None]. *)
Theorem plan_team_zero_selects_every_vm :
  filter (fun x => target_team x = Some 0) (topology_vms (zones range_config))
  = []
  /\ exists orch op,
      plan_reset (mkOrchestrator range_config None) "20260101-000000"
        TEAM POWER_CYCLE None None (Some 0) None = Returns (orch, op)
      /\ vm_name <$> tasks op
         = [Some "dc01-t1"; Some "ws01-t1"; Some "ws02-t1"; Some "kali01";
            Some "c2-01"].
Proof. split; [reflexivity|]. do 2 eexists. split; reflexivity. Qed.

(** C8, as stated, fails: two zones hold a VM named [web01], and scope VM
    with that name plans two tasks. *)
Lemma plan_vm_duplicate_names :
  exists orch op,
    plan_reset (mkOrchestrator twin_config None) "20260101-000000"
      VM POWER_CYCLE None None None (Some "web01") = Returns (orch, op)
    /\ vm_name <$> tasks op = [Some "web01"; Some "web01"]
    /\ ~ (length (tasks op) <= 1)%nat.
Proof.
  do 2 eexists. split; [reflexivity|]. split; [reflexivity|]. simpl. lia.
Qed.

(** C8, amended.  Scope VM plans exactly the VMs whose name equals the
    filter, in topology order: at most one when the names of the topology
    are pairwise distinct, and none (an operation without tasks, not an
    error) when no VM has that name. *)
Theorem plan_vm_scope self id a snapshot zone team vm :
  exists orch op,
    plan_reset self id VM a snapshot zone team vm = Returns (orch, op)
    /\ tasks op
       = new_task a snapshot
           <$> filter (fun x => target_name x = vm)
                 (topology_vms (zones (config self)))
    /\ (NoDup (target_name <$> topology_vms (zones (config self))) ->
        (length (tasks op) <= 1)%nat)
    /\ ((forall x, x ∈ topology_vms (zones (config self)) ->
                   target_name x <> vm) ->
        tasks op = []).
Proof.
  do 2 eexists. split; [apply plan_reset_returns|]. simpl.
  rewrite collect_vms_VM. split; [done|]. split.
  - intros Hnd. rewrite length_fmap. by apply filter_unique.
  - intros Hno. by rewrite filter_none.
Qed.

(** ** Execution: invariants of the event loop *)

Lemma dispatch_set_running now t : dispatch (set_running now t) = dispatch t.
Proof. reflexivity. Qed.

Section ExecutionInvariants.

Variables (parallel : Z) (adapter : Adapter) (callback : bool).
Variable ts0 : list ResetTask.

Lemma exec_inv_lookup s i c :
  exec_inv adapter ts0 s -> run_coros s !! i = Some c ->
  exists t0 t, ts0 !! i = Some t0 /\ tasks (run_op s) !! i = Some t
               /\ coroutine_inv adapter i t0 c t.
Proof.
  intros (Hc & Ht & Hinv & _) Hi.
  pose proof (lookup_lt_Some _ _ _ Hi) as Hlt.
  destruct (lookup_lt_is_Some_2 ts0 i) as [t0 Ht0]; [lia|].
  destruct (lookup_lt_is_Some_2 (tasks (run_op s)) i) as [t Hti]; [lia|].
  exists t0, t. eauto.
Qed.

(** Replacing coroutine [i] and task [i] by a pair that satisfies the
    invariant keeps the invariant. *)
Lemma exec_inv_update s i t0 c' t' clock calls seen :
  exec_inv adapter ts0 s -> ts0 !! i = Some t0 ->
  coroutine_inv adapter i t0 c' t' ->
  (forall j call, (j, call) ∈ calls ->
     (j, call) ∈ run_calls s \/ (j = i /\ dispatch t0 = Returns call)) ->
  exec_inv adapter ts0
    (mkExec (with_tasks (run_op s) (<[i:=t']> (tasks (run_op s))))
       (<[i:=c']> (run_coros s)) clock calls seen).
Proof.
  intros (Hc & Ht & Hinv & Hcalls) Hi Hnew Hsub.
  pose proof (lookup_lt_Some _ _ _ Hi) as Hlt.
  unfold exec_inv; simpl. rewrite !length_insert.
  split; [done|]. split; [done|]. split.
  - intros j tj cj t Hj Hcj Htj.
    destruct (decide (i = j)) as [<-|Hne].
    + rewrite list_lookup_insert_eq in Hcj by lia.
      rewrite list_lookup_insert_eq in Htj by lia.
      by simplify_eq.
    + rewrite list_lookup_insert_ne in Hcj by done.
      rewrite list_lookup_insert_ne in Htj by done. eauto.
  - intros j call Hin. destruct (Hsub j call Hin) as [Hold|[-> Hd]]; eauto.
Qed.

Lemma step_inv s e s' :
  exec_inv adapter ts0 s -> step parallel adapter callback s e = Some s' ->
  exec_inv adapter ts0 s'.
Proof.
  intros Hinv Hstep. destruct e as [i|i]; simpl in Hstep.
  - destruct (run_coros s !! i) as [[| |]|] eqn:Hc; try done.
    destruct (exec_inv_lookup _ _ _ Hinv Hc) as (t0 & t & Ht0 & Ht & Hci).
    simpl in Hci. subst t. rewrite Ht in Hstep.
    case_bool_decide; [|done]. simplify_eq.
    unfold execute_task_enter. rewrite dispatch_set_running.
    destruct (dispatch t0) as [call|e] eqn:Hd.
    + eapply exec_inv_update; eauto.
      * simpl. eauto.
      * intros j c' Hin. apply elem_of_app in Hin as [Hin|Hin]; [by left|].
        apply list_elem_of_singleton in Hin. simplify_eq. by right.
    + eapply exec_inv_update; eauto.
      simpl. exists (run_clock s), (S (run_clock s)).
      unfold verdict. by rewrite Hd.
  - destruct (run_coros s !! i) as [[|call|]|] eqn:Hc; try done.
    destruct (exec_inv_lookup _ _ _ Hinv Hc) as (t0 & t & Ht0 & Ht & Hci).
    simpl in Hci. destruct Hci as (Hd & started & ->). rewrite Ht in Hstep.
    destruct (adapter i call) as [r|] eqn:Ha; [|done]. simplify_eq.
    unfold execute_task_resume. eapply exec_inv_update; eauto.
    simpl. exists started, (run_clock s). unfold verdict. rewrite Hd, Ha.
    by destruct r.
Qed.

Lemma run_inv sched s s' :
  exec_inv adapter ts0 s -> run parallel adapter callback sched s = Some s' ->
  exec_inv adapter ts0 s'.
Proof.
  revert s. induction sched as [|e sched IH]; simpl; intros s Hinv Hrun.
  - by simplify_eq.
  - destruct (step parallel adapter callback s e) as [s1|] eqn:Hstep; [|done].
    eauto using step_inv.
Qed.

End ExecutionInvariants.

(** ** Execution: the event loop terminates *)

Lemma execute_begin_inv parallel adapter self op clock s0 :
  operation self = Some op ->
  execute_begin parallel self clock = Returns s0 ->
  exec_inv adapter (tasks op) s0
  /\ tasks (run_op s0) = tasks op
  /\ run_coros s0 = replicate (length (tasks op)) Queued
  /\ run_calls s0 = [].
Proof.
  intros Hop Hb. unfold execute_begin in Hb. rewrite Hop in Hb.
  case_bool_decide; [done|]. simplify_eq. simpl.
  split; [|done]. unfold exec_inv; simpl. rewrite length_replicate.
  split; [done|]. split; [done|]. split.
  - intros i t0 c t Ht0 Hc Ht. apply lookup_replicate in Hc as [-> _].
    simpl. congruence.
  - intros i call Hin. by apply elem_of_nil in Hin.
Qed.

Lemma execute_begin_returns parallel self op clock :
  operation self = Some op -> 0 <= parallel ->
  exists s0, execute_begin parallel self clock = Returns s0.
Proof.
  intros Hop Hp. unfold execute_begin. rewrite Hop.
  rewrite bool_decide_eq_false_2 by lia. eauto.
Qed.

Lemma work_replicate_queued n : work (replicate n Queued) = (2 * n)%nat.
Proof.
  unfold work. induction n as [|n IH]; [done|].
  change (S (S (sum_list (weight <$> replicate n Queued))) = (2 * S n)%nat).
  lia.
Qed.

Lemma work_insert cs i c c' :
  cs !! i = Some c ->
  (work (<[i:=c']> cs) + weight c = work cs + weight c')%nat.
Proof.
  unfold work. revert i. induction cs as [|x cs IH]; intros [|i] Hi;
    simplify_eq/=; [lia|].
  specialize (IH i Hi). lia.
Qed.

Lemma work_zero_finished cs c :
  work cs = 0%nat -> c ∈ cs -> c = Finished.
Proof.
  unfold work. induction cs as [|x cs IH]; csimpl; intros Hw Hin.
  - by apply elem_of_nil in Hin.
  - apply elem_of_cons in Hin as [->|Hin].
    + destruct x; simpl in Hw; [lia|lia|done].
    + apply IH; [lia|done].
Qed.

Lemma gathered_true s :
  gathered s = true <-> forall c, c ∈ run_coros s -> c = Finished.
Proof.
  unfold gathered. rewrite forallb_forall. split.
  - intros H c Hin. apply list_elem_of_In, H in Hin.
    by apply bool_decide_eq_true in Hin.
  - intros H c Hin. apply bool_decide_eq_true, H. by apply list_elem_of_In.
Qed.

Lemma in_flight_none cs :
  Forall (fun c => ~ is_awaiting c = true) cs -> in_flight cs = 0%nat.
Proof.
  intros H. unfold in_flight. rewrite filter_none; [done|].
  by apply Forall_forall.
Qed.

Section EventLoop.

Variables (parallel : Z) (adapter : Adapter) (callback : bool).
Variable ts0 : list ResetTask.

(** Each step takes work off the list of coroutines. *)
Lemma step_work s e s' :
  step parallel adapter callback s e = Some s' ->
  (work (run_coros s') < work (run_coros s))%nat.
Proof.
  intros Hstep. destruct e as [i|i]; simpl in Hstep.
  - destruct (run_coros s !! i) as [[| |]|] eqn:Hc; try done.
    destruct (tasks (run_op s) !! i) as [t|]; [|done].
    case_bool_decide; [|done]. simplify_eq.
    unfold execute_task_enter.
    destruct (dispatch _); simpl;
      match goal with
      | |- context [<[i:=?c']> _] =>
        pose proof (work_insert _ _ _ c' Hc) as Hw; simpl in Hw; lia
      end.
  - destruct (run_coros s !! i) as [[|call|]|] eqn:Hc; try done.
    destruct (tasks (run_op s) !! i) as [t|]; [|done].
    destruct (adapter i call); [|done]. simplify_eq. simpl.
    pose proof (work_insert _ _ _ Finished Hc) as Hw; simpl in Hw; lia.
Qed.

(** No schedule is longer than the work at its start. *)
Lemma run_bounded sched s s' :
  run parallel adapter callback sched s = Some s' ->
  (length sched + work (run_coros s') <= work (run_coros s))%nat.
Proof.
  revert s. induction sched as [|e sched IH]; simpl; intros s Hrun.
  - simplify_eq. lia.
  - destruct (step parallel adapter callback s e) as [s1|] eqn:Hstep; [|done].
    apply step_work in Hstep. apply IH in Hrun. lia.
Qed.

Lemma run_app sched1 sched2 s s1 s2 :
  run parallel adapter callback sched1 s = Some s1 ->
  run parallel adapter callback sched2 s1 = Some s2 ->
  run parallel adapter callback (sched1 ++ sched2) s = Some s2.
Proof.
  revert s. induction sched1 as [|e sched1 IH]; simpl; intros s H1 H2.
  - by simplify_eq.
  - destruct (step parallel adapter callback s e); [|done]. eauto.
Qed.

Hypothesis Hanswers : answers adapter ts0.

Lemma oldest_call_enabled s e :
  exec_inv adapter ts0 s -> oldest_call s = Some e ->
  is_Some (step parallel adapter callback s e).
Proof.
  intros Hinv He. unfold oldest_call in He.
  destruct (list_find _ _) as [[j c]|] eqn:Hf; [|done]. simplify_eq.
  apply list_find_Some in Hf as (Hc & Haw & _).
  destruct c as [|call|]; try done.
  destruct (exec_inv_lookup _ _ _ _ _ Hinv Hc) as (t0 & t & Ht0 & Ht & Hd & _).
  simpl. rewrite Hc, Ht.
  pose proof (Hanswers _ _ Ht0) as Hv. unfold verdict in Hv. rewrite Hd in Hv.
  destruct (adapter j call); [eauto|done].
Qed.

Lemma next_event_enabled s e :
  exec_inv adapter ts0 s -> next_event parallel s = Some e ->
  is_Some (step parallel adapter callback s e).
Proof.
  intros Hinv He. unfold next_event in He.
  destruct (list_find (fun c => c = Queued) _) as [[i c]|] eqn:Hf;
    [|by eapply oldest_call_enabled].
  case_bool_decide as Hslot; [|by eapply oldest_call_enabled]. simplify_eq.
  apply list_find_Some in Hf as (Hc & -> & _).
  destruct (exec_inv_lookup _ _ _ _ _ Hinv Hc) as (t0 & t & Ht0 & Ht & _).
  simpl. rewrite Hc, Ht. rewrite bool_decide_eq_true_2 by done. eauto.
Qed.

Hypothesis Hparallel : 1 <= parallel.

(** With a slot in the semaphore the loop stops only when every coroutine
    has returned. *)
Lemma next_event_none s :
  next_event parallel s = None -> gathered s = true.
Proof.
  intros He. unfold next_event, oldest_call in He.
  assert (list_find (fun c => is_awaiting c = true) (run_coros s) = None)
    as Hnone.
  { destruct (list_find (fun c => is_awaiting c = true) _) as [[j c]|]; [|done].
    destruct (list_find (fun c => c = Queued) _) as [[i c']|]; [|done].
    by case_bool_decide. }
  rewrite Hnone in He. apply list_find_None in Hnone.
  destruct (list_find (fun c => c = Queued) _) as [[i c']|] eqn:Hq.
  { rewrite in_flight_none in He by done.
    rewrite bool_decide_eq_true_2 in He by lia. done. }
  apply list_find_None in Hq. apply gathered_true. intros c Hin.
  rewrite Forall_forall in Hnone, Hq.
  specialize (Hnone c Hin). specialize (Hq c Hin).
  by destruct c.
Qed.

(** Driven with fuel for the work left, the loop ends with every
    coroutine returned, along a schedule of enabled events. *)
Lemma drive_gathers fuel s :
  exec_inv adapter ts0 s -> (work (run_coros s) <= fuel)%nat ->
  gathered (drive parallel adapter callback fuel s) = true
  /\ exists sched,
      run parallel adapter callback sched s
      = Some (drive parallel adapter callback fuel s).
Proof.
  revert s. induction fuel as [|fuel IH]; intros s Hinv Hw; simpl.
  - split; [|by exists []]. apply gathered_true. intros c Hin.
    eapply work_zero_finished; [|done]. lia.
  - destruct (next_event parallel s) as [e|] eqn:He.
    + destruct (next_event_enabled _ _ Hinv He) as [s1 Hstep].
      rewrite Hstep.
      destruct (IH s1) as (Hg & sched & Hrun).
      * eauto using step_inv.
      * apply step_work in Hstep. lia.
      * split; [done|]. exists (e :: sched). simpl. by rewrite Hstep.
    + split; [by apply next_event_none | by exists []].
Qed.

End EventLoop.

(** ** Execution: what a finished run leaves *)

Lemma drive_reachable parallel adapter callback fuel s :
  exists sched,
    run parallel adapter callback sched s
    = Some (drive parallel adapter callback fuel s).
Proof.
  revert s. induction fuel as [|fuel IH]; intros s; simpl; [by exists []|].
  destruct (next_event parallel s) as [e|]; [|by exists []].
  destruct (step parallel adapter callback s e) as [s1|] eqn:Hstep;
    [|by exists []].
  destruct (IH s1) as [sched Hrun]. exists (e :: sched). simpl.
  by rewrite Hstep.
Qed.

Lemma gathered_task adapter ts0 s i t0 :
  exec_inv adapter ts0 s -> gathered s = true -> ts0 !! i = Some t0 ->
  exists t, tasks (run_op s) !! i = Some t
            /\ coroutine_inv adapter i t0 Finished t.
Proof.
  intros Hinv Hg Ht0. pose proof Hinv as (Hlc & Hlt & Hall & _).
  pose proof (lookup_lt_Some _ _ _ Ht0) as Hlt0.
  destruct (lookup_lt_is_Some_2 (run_coros s) i) as [c Hc]; [lia|].
  destruct (lookup_lt_is_Some_2 (tasks (run_op s)) i) as [t Ht]; [lia|].
  assert (c = Finished) as ->.
  { eapply gathered_true; [done|]. by eapply list_elem_of_lookup_2. }
  eauto.
Qed.

(** [execute] either raises before the loop starts, hangs, or returns the
    operation of a state the loop reached with every coroutine returned;
    so does [execute_under] for each schedule. *)
Lemma execute_inversion parallel adapter callback self clock op' :
  execute parallel adapter callback self clock = Done (Returns op') ->
  exists s0 sched s,
    execute_begin parallel self clock = Returns s0
    /\ run parallel adapter callback sched s0 = Some s
    /\ gathered s = true /\ op' = execute_end s.
Proof.
  unfold execute. destruct (execute_begin parallel self clock) as [s0|] eqn:Hb;
    [|done].
  simpl. destruct (gathered _) eqn:Hg; [|done]. intros [= <-].
  destruct (drive_reachable parallel adapter callback
              (2 * length (run_coros s0)) s0) as [sched Hrun].
  eauto 10.
Qed.

Lemma execute_under_inversion parallel adapter callback sched self clock op' :
  execute_under parallel adapter callback sched self clock = Done (Returns op') ->
  exists s0 s,
    execute_begin parallel self clock = Returns s0
    /\ run parallel adapter callback sched s0 = Some s
    /\ gathered s = true /\ op' = execute_end s.
Proof.
  unfold execute_under.
  destruct (execute_begin parallel self clock) as [s0|] eqn:Hb; [|done].
  destruct (run _ _ _ _ s0) as [s|] eqn:Hrun; [|done].
  destruct (gathered s) eqn:Hg; [|done]. intros [= <-]. eauto 10.
Qed.

(** With a slot in the semaphore and every adapter call answered,
    [execute] returns. *)
Lemma execute_returns parallel adapter callback self op clock :
  operation self = Some op -> 1 <= parallel -> answers adapter (tasks op) ->
  exists op', execute parallel adapter callback self clock = Done (Returns op').
Proof.
  intros Hop Hp Hans.
  destruct (execute_begin_returns parallel self op clock Hop) as [s0 Hb]; [lia|].
  destruct (execute_begin_inv parallel adapter _ _ _ _ Hop Hb)
    as (Hinv & _ & Hcs & _).
  unfold execute. rewrite Hb.
  destruct (drive_gathers parallel adapter callback (tasks op) Hans Hp
              (2 * length (run_coros s0)) s0 Hinv) as [Hg _].
  { rewrite Hcs at 1. rewrite work_replicate_queued, Hcs, length_replicate. lia. }
  cbv zeta. rewrite Hg. eauto.
Qed.

(** No schedule makes [execute] raise once an operation is planned and the
    semaphore's size is not negative. *)
Lemma execute_under_no_raise parallel adapter callback sched self op clock e :
  operation self = Some op -> 0 <= parallel ->
  execute_under parallel adapter callback sched self clock <> Done (Raises e).
Proof.
  intros Hop Hp. unfold execute_under.
  destruct (execute_begin_returns parallel self op clock Hop Hp) as [s0 ->].
  destruct (run _ _ _ _ s0) as [s|]; [|done]. by destruct (gathered s).
Qed.

(** ** C2: one failing task *)

Lemma isolated_failure_gathered adapter op k e s :
  exec_inv adapter (tasks op) s -> gathered s = true ->
  (k < length (tasks op))%nat ->
  (forall i t, tasks op !! i = Some t ->
     exists call, dispatch t = Returns call
       /\ adapter i call
          = Done (if bool_decide (i = k) then Raises e else Returns tt)) ->
  isolated_failure op k e (execute_end s).
Proof.
  intros Hinv Hg Hk Hcalls. pose proof Hinv as (_ & Hlen & _ & _).
  assert (forall i t, tasks (run_op s) !! i = Some t ->
            exists t0 started ended, tasks op !! i = Some t0 /\
              t = if bool_decide (i = k)
                  then set_failed e ended (set_running started t0)
                  else set_completed ended (set_running started t0)) as Hfin.
  { intros i t Ht. pose proof (lookup_lt_Some _ _ _ Ht) as Hi.
    destruct (lookup_lt_is_Some_2 (tasks op) i) as [t0 Ht0]; [lia|].
    destruct (gathered_task _ _ _ _ _ Hinv Hg Ht0) as (t' & Ht' & st & en & Hv).
    destruct (Hcalls _ _ Ht0) as (call & Hd & Ha).
    unfold verdict in Hv. rewrite Hd, Ha in Hv.
    exists t0, st, en. split; [done|]. simplify_eq.
    by case_bool_decide. }
  unfold isolated_failure, execute_end; simpl.
  destruct (lookup_lt_is_Some_2 (tasks (run_op s)) k) as [tk Htk]; [lia|].
  destruct (Hfin _ _ Htk) as (t0 & st & en & _ & Hk').
  rewrite bool_decide_eq_true_2 in Hk' by done. subst tk.
  split; [done|]. split; [eauto 10|]. split.
  - intros i t Hne Ht. destruct (Hfin _ _ Ht) as (ti & sti & eni & _ & Hi).
    rewrite bool_decide_eq_false_2 in Hi by done. subst t. eauto.
  - apply operation_status_failed; simpl.
    eexists. split; [by eapply list_elem_of_lookup_2|done].
Qed.

(** C2. Take an operation and an adapter whose call for task [k] raises [e]
    while its call for every other task returns.  Then [execute] returns (it
    raises nothing): task [k] is failed with [str(e)] recorded, every other
    task is completed.  The same holds for every schedule of the coroutines
    that runs them all to their end. *)
Theorem task_failure_is_isolated parallel adapter callback self op clock k e :
  operation self = Some op ->
  1 <= parallel ->
  (k < length (tasks op))%nat ->
  (forall i t, tasks op !! i = Some t ->
     exists call, dispatch t = Returns call
       /\ adapter i call
          = Done (if bool_decide (i = k) then Raises e else Returns tt)) ->
  (exists op',
     execute parallel adapter callback self clock = Done (Returns op')
     /\ isolated_failure op k e op')
  /\ (forall sched,
       match execute_under parallel adapter callback sched self clock with
       | Done (Returns op') => isolated_failure op k e op'
       | Done (Raises _) => False
       | Hangs => True
       end).
Proof.
  intros Hop Hp Hk Hcalls.
  assert (answers adapter (tasks op)) as Hans.
  { intros i t Ht. destruct (Hcalls _ _ Ht) as (call & Hd & Ha).
    unfold verdict. rewrite Hd, Ha. done. }
  split.
  - destruct (execute_returns parallel adapter callback self op clock)
      as [op' Hex]; [done..|].
    exists op'. split; [done|].
    apply execute_inversion in Hex as (s0 & sched & s & Hb & Hrun & Hg & ->).
    destruct (execute_begin_inv parallel adapter _ _ _ _ Hop Hb) as (Hinv & _).
    eapply isolated_failure_gathered; eauto using run_inv.
  - intros sched.
    destruct (execute_under _ _ _ _ _ _) as [[op'|e']|] eqn:Hex; [| |done].
    + apply execute_under_inversion in Hex as (s0 & s & Hb & Hrun & Hg & ->).
      destruct (execute_begin_inv parallel adapter _ _ _ _ Hop Hb) as (Hinv & _).
      eapply isolated_failure_gathered; eauto using run_inv.
    + eapply execute_under_no_raise in Hex; [done..|lia].
Qed.

Lemma task_failure_is_isolated_witness :
  (exists op',
     execute 2 (failing_at 1 vm_not_found) true range_orchestrator 0%nat
     = Done (Returns op')
     /\ isolated_failure range_operation 1 vm_not_found op')
  /\ (forall sched,
       match execute_under 2 (failing_at 1 vm_not_found) true sched
               range_orchestrator 0%nat with
       | Done (Returns op') => isolated_failure range_operation 1 vm_not_found op'
       | Done (Raises _) => False
       | Hangs => True
       end).
Proof.
  apply task_failure_is_isolated; [reflexivity | lia | simpl; lia |].
  intros i t Ht.
  do 5 (destruct i as [|i]; [simplify_eq/=; eexists; split; reflexivity|]).
  done.
Defined.

(** ** C10: actions the executor does not support *)

Lemma dispatch_unsupported a t :
  a = CHECKPOINT_RESTORE \/ a = REBUILD -> action t = a ->
  dispatch t
  = Raises (mkExc "ValueError" ("Unsupported action: " ++ ResetAction_str a)).
Proof. intros [->| ->] Ha; unfold dispatch; by rewrite Ha. Qed.

(** C10. [ResetAction] has the members [CHECKPOINT_RESTORE] and [REBUILD]
    besides the two the executor dispatches.  [plan_reset] plans them like
    any action; [execute] then marks every task failed with the message
    "Unsupported action: ..." and, whatever the schedule, never calls the
    adapter. *)
Theorem unsupported_action_fails self id level a snapshot zone team vm
    parallel adapter callback clock :
  a = CHECKPOINT_RESTORE \/ a = REBUILD ->
  1 <= parallel ->
  exists orch op,
    plan_reset self id level a snapshot zone team vm = Returns (orch, op)
    /\ (exists op',
         execute parallel adapter callback orch clock = Done (Returns op')
         /\ length (tasks op') = length (tasks op)
         /\ forall t, t ∈ tasks op' ->
              status t = "failed"
              /\ error t = Some ("Unsupported action: " ++ ResetAction_str a))
    /\ (forall sched s0 s,
         execute_begin parallel orch clock = Returns s0 ->
         run parallel adapter callback sched s0 = Some s ->
         run_calls s = []).
Proof.
  intros Ha Hp. do 2 eexists. split; [apply plan_reset_returns|].
  set (op := mkOperation id level a _ None None).
  set (orch := mkOrchestrator (config self) (Some op)).
  assert (forall i t0, tasks op !! i = Some t0 ->
            dispatch t0
            = Raises (mkExc "ValueError"
                        ("Unsupported action: " ++ ResetAction_str a))) as Hd.
  { intros i t0 Ht0. apply dispatch_unsupported; [done|].
    simpl in Ht0. rewrite list_lookup_fmap in Ht0.
    destruct (_ !! i); by simplify_eq/=. }
  assert (answers adapter (tasks op)) as Hans.
  { intros i t0 Ht0. unfold verdict. by rewrite (Hd _ _ Ht0). }
  split.
  - destruct (execute_returns parallel adapter callback orch op clock)
      as [op' Hex]; [done..|].
    exists op'. split; [done|].
    apply execute_inversion in Hex as (s0 & sched & s & Hb & Hrun & Hg & ->).
    destruct (execute_begin_inv parallel adapter orch op _ _ eq_refl Hb)
      as (Hinv & _).
    pose proof (run_inv _ _ _ _ _ _ _ Hinv Hrun) as Hinv'.
    pose proof Hinv' as (_ & Hlen & _ & _).
    split; [done|]. intros t Hin. simpl in Hin.
    apply list_elem_of_lookup in Hin as [i Hi].
    pose proof (lookup_lt_Some _ _ _ Hi) as Hlt.
    destruct (lookup_lt_is_Some_2 (tasks op) i) as [t0 Ht0]; [lia|].
    destruct (gathered_task _ _ _ _ _ Hinv' Hg Ht0) as (t' & Ht' & st & en & Hv).
    unfold verdict in Hv. rewrite (Hd _ _ Ht0) in Hv. by simplify_eq.
  - intros sched s0 s Hb Hrun.
    destruct (execute_begin_inv parallel adapter orch op _ _ eq_refl Hb)
      as (Hinv & _).
    pose proof (run_inv _ _ _ _ _ _ _ Hinv Hrun) as (_ & _ & _ & Hcalls).
    apply elem_of_nil_inv. intros [i call] Hin.
    destruct (Hcalls _ _ Hin) as (t0 & Ht0 & Hd').
    rewrite (Hd _ _ Ht0) in Hd'. done.
Qed.

Lemma unsupported_action_fails_witness :
  exists orch op,
    plan_reset (mkOrchestrator range_config None) "20260101-000000" FULL
      REBUILD None None None None = Returns (orch, op)
    /\ (exists op',
         execute 5 DryRunAdapter true orch 0%nat = Done (Returns op')
         /\ length (tasks op') = length (tasks op)
         /\ forall t, t ∈ tasks op' ->
              status t = "failed"
              /\ error t
                 = Some ("Unsupported action: " ++ ResetAction_str REBUILD))
    /\ (forall sched s0 s,
         execute_begin 5 orch 0%nat = Returns s0 ->
         run 5 DryRunAdapter true sched s0 = Some s ->
         run_calls s = []).
Proof. apply unsupported_action_fails; [by right | lia]. Defined.

(** ** C5: an operation without tasks *)

(** C5, as stated, fails: planning a VM that is not in the range gives an
    operation without tasks; executing it returns at once with status
    ["empty"], and its progress reads 0, not 100. *)
Lemma empty_operation_progress_is_zero :
  exists orch op op',
    plan_reset (mkOrchestrator range_config None) "20260101-000000" VM
      POWER_CYCLE None None None (Some "ghost-vm") = Returns (orch, op)
    /\ tasks op = []
    /\ execute 5 DryRunAdapter true orch 0%nat = Done (Returns op')
    /\ operation_status op' = "empty"
    /\ (progress op' == 0)%Q
    /\ ~ (progress op' == 100)%Q.
Proof.
  do 3 eexists. split; [reflexivity|]. split; [reflexivity|].
  split; [reflexivity|]. split; [reflexivity|]. split; [reflexivity|].
  intros H. vm_compute in H. discriminate.
Qed.

(** C5, amended.  Executing an operation without tasks (the semaphore's
    size not negative) is a no-op success: [execute] returns the operation
    with no event of the loop taking place, its status reads ["empty"], and
    its progress reads 0. *)
Theorem execute_empty_operation parallel adapter callback self op clock :
  operation self = Some op ->
  tasks op = [] ->
  0 <= parallel ->
  (exists op',
     execute parallel adapter callback self clock = Done (Returns op')
     /\ tasks op' = []
     /\ operation_status op' = "empty"
     /\ (progress op' == 0)%Q)
  /\ (forall sched s0 s,
       execute_begin parallel self clock = Returns s0 ->
       run parallel adapter callback sched s0 = Some s ->
       sched = []).
Proof.
  intros Hop Hnil Hp.
  destruct (execute_begin_returns parallel self op clock Hop Hp) as [s0 Hb].
  destruct (execute_begin_inv parallel adapter _ _ _ _ Hop Hb)
    as (_ & Hts & Hcs & _).
  rewrite Hnil in Hts, Hcs. simpl in Hcs.
  split.
  - unfold execute. rewrite Hb, Hcs. simpl. unfold gathered. rewrite Hcs. simpl.
    eexists. split; [done|]. unfold operation_status, progress. simpl.
    by rewrite Hts.
  - intros sched s0' s Hb' Hrun. rewrite Hb in Hb'. simplify_eq.
    apply run_bounded in Hrun. rewrite Hcs in Hrun.
    destruct sched; [done|]. unfold work in Hrun. csimpl in Hrun. lia.
Qed.

Lemma execute_empty_operation_witness :
  (exists op',
     execute 0 DryRunAdapter false
       (mkOrchestrator range_config
          (Some (mkOperation "20260101-000000" VM POWER_CYCLE [] None None)))
       0%nat = Done (Returns op')
     /\ tasks op' = []
     /\ operation_status op' = "empty"
     /\ (progress op' == 0)%Q)
  /\ (forall sched s0 s,
       execute_begin 0
         (mkOrchestrator range_config
            (Some (mkOperation "20260101-000000" VM POWER_CYCLE [] None None)))
         0%nat = Returns s0 ->
       run 0 DryRunAdapter false sched s0 = Some s ->
       sched = []).
Proof.
  apply (execute_empty_operation 0 DryRunAdapter false _
           (mkOperation "20260101-000000" VM POWER_CYCLE [] None None));
    [reflexivity | reflexivity | lia].
Defined.

(** ** C7: the life cycle of a task *)

Lemma new_task_planned a snapshot v : planned (new_task a snapshot v).
Proof. by repeat split. Qed.

Lemma plan_reset_planned self id level a snapshot zone team vm orch op :
  plan_reset self id level a snapshot zone team vm = Returns (orch, op) ->
  operation orch = Some op /\ Forall planned (tasks op).
Proof.
  rewrite plan_reset_returns. intros [= <- <-]. split; [done|]. simpl.
  apply Forall_fmap, Forall_forall. intros v _. apply new_task_planned.
Qed.

Lemma planned_lifecycle t : planned t -> lifecycle_inv t.
Proof.
  intros (Hs & _ & He & Herr). unfold lifecycle_inv. rewrite Hs, He, Herr.
  split; (split; [intros [? ?]; done | intuition discriminate]).
Qed.

Lemma running_lifecycle started t :
  planned t -> lifecycle_inv (set_running started t).
Proof.
  intros (_ & _ & He & Herr). unfold lifecycle_inv. simpl. rewrite He, Herr.
  split; (split; [intros [? ?]; done | intuition discriminate]).
Qed.

Lemma completed_lifecycle started ended t :
  planned t -> lifecycle_inv (set_completed ended (set_running started t)).
Proof.
  intros (_ & _ & _ & Herr). unfold lifecycle_inv. simpl. rewrite Herr.
  split; (split; [eauto | intros; eauto; intuition discriminate]).
  intros [? ?]; done.
Qed.

Lemma failed_lifecycle e started ended t :
  lifecycle_inv (set_failed e ended (set_running started t)).
Proof. unfold lifecycle_inv. simpl. split; (split; eauto). Qed.

Lemma coroutine_lifecycle adapter i t0 c t :
  planned t0 -> coroutine_inv adapter i t0 c t -> lifecycle_inv t.
Proof.
  intros Hpl Hc. destruct c as [|call|]; simpl in Hc.
  - subst t. by apply planned_lifecycle.
  - destruct Hc as (_ & started & ->). by apply running_lifecycle.
  - destruct Hc as (started & ended & Hv).
    destruct (verdict adapter i t0) as [[[]|e]|]; [| |done]; subst t.
    + by apply completed_lifecycle.
    + apply failed_lifecycle.
Qed.

Lemma reachable_lifecycle adapter ts0 s t :
  Forall planned ts0 -> exec_inv adapter ts0 s -> t ∈ tasks (run_op s) ->
  lifecycle_inv t.
Proof.
  intros Hpl (Hlc & Hlt & Hinv & _) Hin.
  apply list_elem_of_lookup in Hin as [i Hi].
  pose proof (lookup_lt_Some _ _ _ Hi) as Hlt'.
  destruct (lookup_lt_is_Some_2 ts0 i) as [t0 Ht0]; [lia|].
  destruct (lookup_lt_is_Some_2 (run_coros s) i) as [c Hc]; [lia|].
  eapply coroutine_lifecycle; [|eauto].
  by eapply Forall_lookup_1.
Qed.

(** C7, as stated, fails: an adapter call that raises an exception with an
    empty message (a bare timeout) leaves the task failed with [error] the
    empty string. *)
Lemma failed_task_with_empty_error :
  exists op' t,
    execute 5 (failing_at 0 timed_out) true range_orchestrator 0%nat
    = Done (Returns op')
    /\ tasks op' !! 0%nat = Some t
    /\ status t = "failed"
    /\ error t = Some ""
    /\ truthy_str (error t) = false.
Proof.
  do 2 eexists. split; [vm_compute; reflexivity|].
  split; [reflexivity|]. by repeat split.
Qed.

(** What a failed task records is the text of the exception its own
    [try] block met. *)
Lemma coroutine_error adapter i t0 c t :
  planned t0 -> coroutine_inv adapter i t0 c t -> status t = "failed" ->
  exists e, verdict adapter i t0 = Done (Raises e) /\ error t = Some (exc_msg e).
Proof.
  intros (Hs & _) Hc Hf. destruct c as [|call|]; simpl in Hc.
  - subst t. by rewrite Hs in Hf.
  - by destruct Hc as (_ & started & ->).
  - destruct Hc as (started & ended & Hv).
    destruct (verdict adapter i t0) as [[[]|e]|]; [| |done]; subst t;
      [done|]. by exists e.
Qed.

(** C7, amended.  For the tasks of a planned operation, at plan time and in
    every state an execution passes through: [end_time] is set if and only
    if the status is completed or failed, and [error] is set if and only if
    the status is failed; the error of a failed task is [str(e)] of the
    exception [e] its [try] block met (which may be the empty string).
    When [execute] returns, every task is completed or failed and has its
    [end_time]: completed with no error when its call returned, failed with
    [str(e)] when it raised [e]. *)
Theorem task_lifecycle_invariant self id level a snapshot zone team vm :
  exists orch op,
    plan_reset self id level a snapshot zone team vm = Returns (orch, op)
    /\ (forall t, t ∈ tasks op -> lifecycle_inv t)
    /\ (forall parallel adapter callback clock s0 sched s,
         execute_begin parallel orch clock = Returns s0 ->
         run parallel adapter callback sched s0 = Some s ->
         (forall t, t ∈ tasks (run_op s) -> lifecycle_inv t)
         /\ (forall i t0 t,
              tasks op !! i = Some t0 -> tasks (run_op s) !! i = Some t ->
              status t = "failed" ->
              exists e,
                verdict adapter i t0 = Done (Raises e)
                /\ error t = Some (exc_msg e)))
    /\ (forall parallel adapter callback clock op',
         execute parallel adapter callback orch clock = Done (Returns op') ->
         (forall t, t ∈ tasks op' ->
            lifecycle_inv t /\ is_Some (end_time t)
            /\ (status t = "completed" \/ status t = "failed"))
         /\ (forall i t0 t,
              tasks op !! i = Some t0 -> tasks op' !! i = Some t ->
              match verdict adapter i t0 with
              | Done (Returns _) => status t = "completed" /\ error t = None
              | Done (Raises e) =>
                status t = "failed" /\ error t = Some (exc_msg e)
              | Hangs => False
              end)).
Proof.
  do 2 eexists. split; [apply plan_reset_returns|].
  set (op := mkOperation id level a _ None None).
  set (orch := mkOrchestrator (config self) (Some op)).
  destruct (plan_reset_planned self id level a snapshot zone team vm orch op
              (plan_reset_returns _ _ _ _ _ _ _ _)) as [Hop Hpl].
  split; [|split].
  - intros t Hin. rewrite Forall_forall in Hpl.
    by apply planned_lifecycle, Hpl.
  - intros parallel adapter callback clock s0 sched s Hb Hrun.
    destruct (execute_begin_inv parallel adapter orch op _ _ Hop Hb)
      as (Hinv & _).
    pose proof (run_inv _ _ _ _ _ _ _ Hinv Hrun) as Hinv'.
    split.
    + intros t Hin. by eapply reachable_lifecycle.
    + intros i t0 t Ht0 Ht Hf.
      pose proof Hinv' as (Hlc & _ & Hall & _).
      pose proof (lookup_lt_Some _ _ _ Ht0) as Hlt.
      destruct (lookup_lt_is_Some_2 (run_coros s) i) as [c Hc]; [lia|].
      eapply coroutine_error; [by eapply Forall_lookup_1 | eauto | done].
  - intros parallel adapter callback clock op' Hex.
    apply execute_inversion in Hex as (s0 & sched & s & Hb & Hrun & Hg & ->).
    destruct (execute_begin_inv parallel adapter orch op _ _ Hop Hb)
      as (Hinv & _).
    pose proof (run_inv _ _ _ _ _ _ _ Hinv Hrun) as Hinv'.
    split.
    + intros t Hin.
      assert (lifecycle_inv t) as Hl by (by eapply reachable_lifecycle).
      split; [done|]. simpl in Hin.
      apply list_elem_of_lookup in Hin as [i Hi].
      pose proof Hinv' as (_ & Hlen & _ & _).
      pose proof (lookup_lt_Some _ _ _ Hi) as Hlt.
      destruct (lookup_lt_is_Some_2 (tasks op) i) as [t0 Ht0]; [lia|].
      destruct (gathered_task _ _ _ _ _ Hinv' Hg Ht0)
        as (t' & Ht' & st & en & Hv).
      simplify_eq.
      destruct (verdict adapter i t0) as [[[]|e]|]; [| |done]; subst t; simpl;
        eauto.
    + intros i t0 t Ht0 Ht. simpl in Ht.
      destruct (gathered_task _ _ _ _ _ Hinv' Hg Ht0)
        as (t' & Ht' & st & en & Hv).
      simplify_eq.
      destruct (Forall_lookup_1 _ _ _ _ Hpl Ht0) as (_ & _ & _ & Herr).
      destruct (verdict adapter i t0) as [[[]|e]|]; [| |done]; subst t; simpl;
        by eauto.
Qed.

(** ** C6: progress during an execution *)

Lemma percent_le c c' n : (c <= c')%nat -> (percent c n <= percent c' n)%Q.
Proof.
  intros Hc. unfold percent, Qdiv.
  apply Qmult_le_compat_r; [|done].
  apply Qmult_le_compat_r.
  - rewrite <- Zle_Qle. lia.
  - apply Qinv_le_0_compat. change 0%Q with (inject_Z 0).
    rewrite <- Zle_Qle. lia.
Qed.

Lemma percent_100 c n :
  (0 < n)%nat -> (percent c n == 100)%Q <-> c = n.
Proof.
  intros Hn. unfold percent. destruct n as [|n]; [lia|].
  unfold Qeq, Qdiv, Qmult, Qinv, inject_Z. simpl. lia.
Qed.

Lemma count_status_le s ts : (count_status s ts <= length ts)%nat.
Proof. induction ts as [|t ts IH]; simpl; [lia|]. destruct (has_status s t); lia. Qed.

Lemma count_status_all s ts :
  count_status s ts = length ts <-> forall t, t ∈ ts -> status t = s.
Proof.
  induction ts as [|t ts IH]; simpl.
  - split; [|done]. intros _ t Hin. by apply elem_of_nil in Hin.
  - pose proof (count_status_le s ts). unfold has_status at 1.
    case_bool_decide as Ht; split.
    + intros Hc t' Hin. apply elem_of_cons in Hin as [->|Hin]; [done|].
      apply IH; [lia|done].
    + intros Hall. f_equal. apply IH. intros t' Hin.
      by apply Hall, list_elem_of_further.
    + lia.
    + intros Hall. destruct Ht. apply Hall, list_elem_of_here.
Qed.

Lemma count_status_insert s ts i t t' :
  ts !! i = Some t ->
  (count_status s (<[i:=t']> ts) + (if has_status s t then 1 else 0)
   = count_status s ts + (if has_status s t' then 1 else 0))%nat.
Proof.
  revert i. induction ts as [|x ts IH]; intros [|i] Hi; simplify_eq/=; [lia|].
  specialize (IH i Hi). lia.
Qed.

(** [progress] reads 100 exactly when there are tasks and all completed. *)
Lemma progress_100 op :
  (progress op == 100)%Q
  <-> tasks op <> [] /\ forall t, t ∈ tasks op -> status t = "completed".
Proof.
  unfold progress. destruct (tasks op) as [|t ts] eqn:E.
  - split; [intros H; vm_compute in H; discriminate | by intros [? _]].
  - rewrite percent_100 by (simpl; lia). rewrite count_status_all.
    split; [by intros H | by intros [_ H]].
Qed.

Section ProgressMonotone.

Variables (parallel : Z) (adapter : Adapter) (callback : bool).
Variable ts0 : list ResetTask.
Hypothesis Hplanned : Forall planned ts0.

Lemma step_completed s e s' :
  exec_inv adapter ts0 s -> step parallel adapter callback s e = Some s' ->
  length (tasks (run_op s')) = length (tasks (run_op s))
  /\ (count_status "completed" (tasks (run_op s))
      <= count_status "completed" (tasks (run_op s')))%nat.
Proof.
  intros Hinv Hstep. destruct e as [i|i]; simpl in Hstep.
  - destruct (run_coros s !! i) as [[| |]|] eqn:Hc; try done.
    destruct (exec_inv_lookup _ _ _ _ _ Hinv Hc) as (t0 & t & Ht0 & Ht & Hci).
    simpl in Hci. subst t. rewrite Ht in Hstep.
    case_bool_decide; [|done]. simplify_eq.
    destruct (Forall_lookup_1 _ _ _ _ Hplanned Ht0) as (Hs & _).
    unfold execute_task_enter.
    destruct (dispatch _); simpl; rewrite length_insert; (split; [done|]);
      match goal with
      | |- context [<[i:=?t']> _] =>
        pose proof (count_status_insert "completed" _ _ _ t' Ht) as Hcnt
      end;
      unfold has_status in Hcnt at 1; rewrite Hs in Hcnt; simpl in Hcnt; lia.
  - destruct (run_coros s !! i) as [[|call|]|] eqn:Hc; try done.
    destruct (exec_inv_lookup _ _ _ _ _ Hinv Hc) as (t0 & t & Ht0 & Ht & Hci).
    simpl in Hci. destruct Hci as (_ & started & ->). rewrite Ht in Hstep.
    destruct (adapter i call) as [r|]; [|done]. simplify_eq.
    unfold execute_task_resume. simpl. rewrite length_insert. split; [done|].
    match goal with
    | |- context [<[i:=?t']> _] =>
      pose proof (count_status_insert "completed" _ _ _ t' Ht) as Hcnt
    end.
    simpl in Hcnt. lia.
Qed.

Lemma step_progress s e s' :
  exec_inv adapter ts0 s -> step parallel adapter callback s e = Some s' ->
  (progress (run_op s) <= progress (run_op s'))%Q.
Proof.
  intros Hinv Hstep.
  destruct (step_completed _ _ _ Hinv Hstep) as [Hlen Hcnt].
  unfold progress.
  destruct (tasks (run_op s)) as [|t ts] eqn:E,
           (tasks (run_op s')) as [|t' ts'] eqn:E'; try done.
  rewrite Hlen. by apply percent_le.
Qed.

Lemma run_progress sched s s' :
  exec_inv adapter ts0 s -> run parallel adapter callback sched s = Some s' ->
  (progress (run_op s) <= progress (run_op s'))%Q.
Proof.
  revert s. induction sched as [|e sched IH]; simpl; intros s Hinv Hrun.
  - simplify_eq. apply Qle_refl.
  - destruct (step parallel adapter callback s e) as [s1|] eqn:Hstep; [|done].
    eapply Qle_trans; [by eapply step_progress|].
    apply IH; [by eapply step_inv|done].
Qed.

Lemma nondecreasing_snoc qs q :
  nondecreasing qs -> (forall a, a ∈ qs -> (a <= q)%Q) ->
  nondecreasing (qs ++ [q])%list.
Proof.
  intros Hnd Hle i j a b Hij Hi Hj.
  destruct (decide (j < length qs)%nat) as [Hlt|Hge].
  - rewrite lookup_app_l in Hi, Hj by lia. eauto.
  - rewrite lookup_app_r in Hj by lia.
    destruct (j - length qs)%nat eqn:E; [|by destruct n]. simplify_eq/=.
    destruct (decide (i < length qs)%nat) as [Hlt|Hge'].
    + rewrite lookup_app_l in Hi by lia.
      apply Hle. by eapply list_elem_of_lookup_2.
    + rewrite lookup_app_r in Hi by lia.
      destruct (i - length qs)%nat; [|by destruct n]. simplify_eq/=.
      apply Qle_refl.
Qed.

(** The callback is shown the progress of the state the step ends in. *)
Lemma step_reports s e s' :
  step parallel adapter callback s e = Some s' ->
  run_reports s' = run_reports s
  \/ run_reports s' = (run_reports s ++ [progress (run_op s')])%list.
Proof.
  intros Hstep. destruct e as [i|i]; simpl in Hstep.
  - destruct (run_coros s !! i) as [[| |]|]; try done.
    destruct (tasks (run_op s) !! i) as [t|]; [|done].
    case_bool_decide; [|done]. simplify_eq.
    unfold execute_task_enter. destruct (dispatch _); simpl; [by left|].
    unfold report. destruct callback; [by right | by left].
  - destruct (run_coros s !! i) as [[|call|]|]; try done.
    destruct (tasks (run_op s) !! i) as [t|]; [|done].
    destruct (adapter i call) as [r|]; [|done]. simplify_eq. simpl.
    unfold report. destruct callback; [by right | by left].
Qed.

Lemma run_reports_nondecreasing sched s s' :
  exec_inv adapter ts0 s ->
  nondecreasing (run_reports s) ->
  (forall a, a ∈ run_reports s -> (a <= progress (run_op s))%Q) ->
  run parallel adapter callback sched s = Some s' ->
  nondecreasing (run_reports s')
  /\ (forall a, a ∈ run_reports s' -> (a <= progress (run_op s'))%Q).
Proof.
  revert s. induction sched as [|e sched IH]; simpl; intros s Hinv Hnd Hle Hrun.
  - by simplify_eq.
  - destruct (step parallel adapter callback s e) as [s1|] eqn:Hstep; [|done].
    pose proof (step_progress _ _ _ Hinv Hstep) as Hp.
    assert (forall a, a ∈ run_reports s -> (a <= progress (run_op s1))%Q) as Hle1.
    { intros a Ha. eapply Qle_trans; [by apply Hle | done]. }
    apply (IH s1); [by eapply step_inv | | | done].
    + destruct (step_reports _ _ _ Hstep) as [-> | ->]; [done|].
      by apply nondecreasing_snoc.
    + destruct (step_reports _ _ _ Hstep) as [-> | ->]; [done|].
      intros a Ha. apply elem_of_app in Ha as [Ha|Ha]; [by apply Hle1|].
      apply list_elem_of_singleton in Ha. subst a. apply Qle_refl.
Qed.

End ProgressMonotone.

(** C6, as stated, fails: after a run in which one adapter call raised,
    every task is in a terminal state, and progress reads 80, not 100:
    [progress] counts the completed tasks only. *)
Lemma terminal_tasks_below_100 :
  exists op',
    execute 2 (failing_at 1 vm_not_found) true range_orchestrator 0%nat
    = Done (Returns op')
    /\ Forall (fun t => status t = "completed" \/ status t = "failed") (tasks op')
    /\ (progress op' == 80)%Q
    /\ ~ (progress op' == 100)%Q.
Proof.
  eexists. split; [vm_compute; reflexivity|]. split.
  - repeat constructor; by (left + right).
  - split; [reflexivity|]. intros H. vm_compute in H. discriminate.
Qed.

(** C6, amended.  Between any two states an execution of a planned
    operation passes through, in that order, progress does not decrease, and
    the values shown to the progress callback never decrease; progress
    reads 100 exactly when the operation has tasks and every one of them is
    completed. *)
Theorem progress_during_execute self id level a snapshot zone team vm :
  exists orch op,
    plan_reset self id level a snapshot zone team vm = Returns (orch, op)
    /\ (forall parallel adapter callback clock s0 sched1 sched2 s1 s2,
         execute_begin parallel orch clock = Returns s0 ->
         run parallel adapter callback sched1 s0 = Some s1 ->
         run parallel adapter callback sched2 s1 = Some s2 ->
         (progress (run_op s1) <= progress (run_op s2))%Q)
    /\ (forall parallel adapter callback clock s0 sched s,
         execute_begin parallel orch clock = Returns s0 ->
         run parallel adapter callback sched s0 = Some s ->
         nondecreasing (run_reports s))
    /\ (forall op',
         (progress op' == 100)%Q
         <-> tasks op' <> []
             /\ forall t, t ∈ tasks op' -> status t = "completed").
Proof.
  do 2 eexists. split; [apply plan_reset_returns|].
  set (op := mkOperation id level a _ None None).
  set (orch := mkOrchestrator (config self) (Some op)).
  destruct (plan_reset_planned self id level a snapshot zone team vm orch op
              (plan_reset_returns _ _ _ _ _ _ _ _)) as [Hop Hpl].
  split; [|split; [|apply progress_100]].
  - intros parallel adapter callback clock s0 sched1 sched2 s1 s2 Hb H1 H2.
    destruct (execute_begin_inv parallel adapter orch op _ _ Hop Hb)
      as (Hinv & _).
    pose proof (run_inv _ _ _ _ _ _ _ Hinv H1) as Hinv1.
    by eapply run_progress.
  - intros parallel adapter callback clock s0 sched s Hb Hrun.
    destruct (execute_begin_inv parallel adapter orch op _ _ Hop Hb)
      as (Hinv & _).
    assert (run_reports s0 = []) as Hnil.
    { unfold execute_begin in Hb. rewrite Hop in Hb.
      case_bool_decide; by simplify_eq. }
    eapply (run_reports_nondecreasing parallel adapter callback (tasks op));
      [done|done| | |done]; rewrite Hnil.
    + intros i j q1 q2 _ Hi. done.
    + intros q Hq. by apply elem_of_nil in Hq.
Qed.

(** ** C9: the exit status *)


Lemma execute_keeps_tasks parallel adapter callback self op clock op' :
  operation self = Some op ->
  execute parallel adapter callback self clock = Done (Returns op') ->
  length (tasks op') = length (tasks op).
Proof.
  intros Hop Hex.
  apply execute_inversion in Hex as (s0 & sched & s & Hb & Hrun & Hg & ->).
  destruct (execute_begin_inv parallel adapter _ _ _ _ Hop Hb) as (Hinv & _).
  by pose proof (run_inv _ _ _ _ _ _ _ Hinv Hrun) as (_ & Hlen & _).
Qed.

(** [main] read on the operation it plans. *)
Lemma main_unfold args w :
  main args w
  = match validate args with
    | Some msg => UsageError msg
    | None =>
      match load_config w with
      | Raises e => Crashed e
      | Returns cfg =>
        match tasks (main_plan args w cfg) with
        | [] => NoMatch (main_plan args w cfg)
        | _ =>
          match confirm args w (main_plan args w cfg) with
          | Raises e => Crashed e
          | Returns false => Aborted (main_plan args w cfg)
          | Returns true =>
            match initialize_adapter cfg (args_dry_run args) w with
            | Raises e => Crashed e
            | Returns adapter =>
              match execute (args_parallel args) adapter true
                      (mkOrchestrator cfg (Some (main_plan args w cfg)))
                      (now_clock w) with
              | Hangs => NeverReturns
              | Done (Raises e) => Crashed e
              | Done (Returns op') =>
                match close (args_dry_run args) w with
                | Raises e => Crashed e
                | Returns _ => Executed op'
                end
              end
            end
          end
        end
      end
    end.
Proof.
  unfold main. destruct (validate args); [done|].
  destruct (load_config w) as [cfg|]; [|done].
  rewrite plan_reset_returns. cbn [config]. by fold (main_plan args w cfg).
Qed.






(** A rehearsal of the whole range exits with 0; the same run against a
    backend that loses one VM exits with 1. *)
Example rehearsal_exits_zero :
  exit_status
    (main (mkArgs FULL POWER_CYCLE None None None None 3 true true) rehearsal)
  = Some 0.
Proof. vm_compute. reflexivity. Qed.

Example lost_vm_exits_one :
  exit_status
    (main (mkArgs FULL POWER_CYCLE None None None None 3 false true)
       (mkWorld (Returns range_config) "20260101-000000" 0%nat ""
          (Returns tt) (failing_at 1 vm_not_found) (Returns tt)))
  = Some 1.
Proof. vm_compute. reflexivity. Qed.

(** ** Further facts about planning and the semaphore *)

Lemma plan_team_nonzero_witness :
  exists orch op,
    plan_reset (mkOrchestrator range_config None) "20260101-000000" TEAM
      SNAPSHOT_REVERT (Some "pre-ex") None (Some 1) None = Returns (orch, op)
    /\ tasks op
       = new_task SNAPSHOT_REVERT (Some "pre-ex")
           <$> filter (fun x => target_team x = Some 1)
                 (topology_vms (zones range_config)).
Proof. apply (plan_team_nonzero (mkOrchestrator range_config None)). lia. Defined.

(** A negative [parallel] makes [execute] raise the semaphore's
    [ValueError]; with [parallel = 0] and a task to run it never returns. *)
Lemma execute_negative_parallel parallel adapter callback self op clock :
  operation self = Some op -> parallel < 0 ->
  execute parallel adapter callback self clock
  = Done (Raises (mkExc "ValueError" "Semaphore initial value must be >= 0")).
Proof.
  intros Hop Hp. unfold execute, execute_begin. rewrite Hop.
  by rewrite bool_decide_eq_true_2.
Qed.

Lemma execute_negative_parallel_witness :
  execute (-1) DryRunAdapter true range_orchestrator 0%nat
  = Done (Raises (mkExc "ValueError" "Semaphore initial value must be >= 0")).
Proof.
  apply (execute_negative_parallel (-1) DryRunAdapter true range_orchestrator
           range_operation); [reflexivity | lia].
Defined.

Example execute_without_slots_hangs :
  execute 0 DryRunAdapter true range_orchestrator 0%nat = Hangs.
Proof. vm_compute. reflexivity. Qed.

(** ** Planning: the other scopes *)

Lemma collect_zone_all level team vm zn vs :
  level <> VM -> level <> TEAM ->
  collect_zone level team vm zn vs
  = (fun v => mkTarget (vm_get_name v) zn (vm_get_team v)) <$> vs.
Proof.
  intros Hvm Hteam. rewrite collect_zone_filter. apply filter_all.
  intros x _. unfold kept. intuition congruence.
Qed.

Lemma filter_zone_same z (vs : list VMEntry) :
  filter (fun x => target_zone x = z)
    ((fun v => mkTarget (vm_get_name v) z (vm_get_team v)) <$> vs)
  = (fun v => mkTarget (vm_get_name v) z (vm_get_team v)) <$> vs.
Proof.
  apply filter_all. intros x Hx.
  apply list_elem_of_fmap in Hx as (v & -> & _). done.
Qed.

Lemma filter_zone_other z zn (vs : list VMEntry) :
  zn <> z ->
  filter (fun x => target_zone x = z)
    ((fun v => mkTarget (vm_get_name v) zn (vm_get_team v)) <$> vs)
  = [].
Proof.
  intros Hne. apply filter_none. intros x Hx.
  apply list_elem_of_fmap in Hx as (v & -> & _). done.
Qed.

Lemma collect_vms_FULL zone team vm zs :
  collect_vms FULL zone team vm zs = topology_vms zs.
Proof.
  rewrite collect_vms_filter by (intros; by apply skip_zone_other_level).
  apply filter_all. intros x _. unfold kept. intuition congruence.
Qed.

Lemma topology_vms_cons zn vs zs :
  topology_vms ((zn, vs) :: zs)
  = (((fun v => mkTarget (vm_get_name v) zn (vm_get_team v)) <$> vs)
       ++ topology_vms zs)%list.
Proof. reflexivity. Qed.

Lemma collect_vms_ZONE z team vm zs :
  z <> "" ->
  collect_vms ZONE (Some z) team vm zs
  = filter (fun x => target_zone x = z) (topology_vms zs).
Proof.
  intros Hz. induction zs as [|[zn vs] zs IH]; [reflexivity|].
  rewrite topology_vms_cons, filter_app, <- IH. simpl.
  unfold skip_zone. simpl.
  rewrite (bool_decide_eq_false_2 (z = "")) by done. simpl.
  destruct (decide (zn = z)) as [->|Hne].
  - rewrite bool_decide_eq_true_2 by done. simpl.
    by rewrite filter_zone_same, collect_zone_all.
  - rewrite bool_decide_eq_false_2 by congruence. simpl.
    by rewrite filter_zone_other.
Qed.

Lemma collect_vms_ZONE_falsy zone team vm zs :
  truthy_str zone = false ->
  collect_vms ZONE zone team vm zs = topology_vms zs.
Proof.
  intros Hz.
  rewrite collect_vms_filter.
  - apply filter_all. intros x _. unfold kept. intuition congruence.
  - intros z _. unfold skip_zone. rewrite Hz. by rewrite andb_false_r.
Qed.

Lemma collect_zone_sublist level team vm zn vs :
  collect_zone level team vm zn vs
  `sublist_of` (fun v => mkTarget (vm_get_name v) zn (vm_get_team v)) <$> vs.
Proof. rewrite collect_zone_filter. apply sublist_filter. Qed.

Lemma collect_vms_sublist level zone team vm zs :
  collect_vms level zone team vm zs `sublist_of` topology_vms zs.
Proof.
  induction zs as [|[zn vs] zs IH]; [reflexivity|].
  rewrite topology_vms_cons. simpl.
  destruct (skip_zone level zone zn).
  - by apply sublist_inserts_l.
  - apply sublist_app; [apply collect_zone_sublist | done].
Qed.

(** Scope FULL plans one pending task for every VM of every zone, in the
    order the configuration lists them. *)
Theorem plan_full_scope self id a snapshot zone team vm :
  exists orch op,
    plan_reset self id FULL a snapshot zone team vm = Returns (orch, op)
    /\ tasks op = new_task a snapshot <$> topology_vms (zones (config self))
    /\ vm_name <$> tasks op
       = target_name <$> topology_vms (zones (config self)).
Proof.
  do 2 eexists. split; [apply plan_reset_returns|]. simpl.
  rewrite collect_vms_FULL. split; [done|].
  rewrite <- list_fmap_compose. done.
Qed.

(** Scope ZONE with a non-empty zone name plans exactly the VMs listed
    under that zone, in order, whatever the other filters are. *)
Theorem plan_zone_scope self id a snapshot z team vm :
  z <> "" ->
  exists orch op,
    plan_reset self id ZONE a snapshot (Some z) team vm = Returns (orch, op)
    /\ tasks op
       = new_task a snapshot
           <$> filter (fun x => target_zone x = z)
                 (topology_vms (zones (config self))).
Proof.
  intros Hz. do 2 eexists. split; [apply plan_reset_returns|].
  simpl. by rewrite collect_vms_ZONE.
Qed.

Lemma plan_zone_scope_witness :
  exists orch op,
    plan_reset (mkOrchestrator range_config None) "20260101-000000" ZONE
      POWER_CYCLE None (Some "red") None None = Returns (orch, op)
    /\ tasks op
       = new_task POWER_CYCLE None
           <$> filter (fun x => target_zone x = "red")
                 (topology_vms (zones range_config)).
Proof. apply (plan_zone_scope (mkOrchestrator range_config None)). done. Defined.

(** A filter that is missing or falsy is no filter: called directly,
    [plan_reset] at level ZONE with no zone or the empty zone name, and at
    level TEAM with no team or team 0, plans every VM of the range. *)
Theorem falsy_filter_plans_whole_range self id a snapshot zone team vm :
  (truthy_str zone = false ->
   exists orch op,
     plan_reset self id ZONE a snapshot zone team vm = Returns (orch, op)
     /\ tasks op = new_task a snapshot <$> topology_vms (zones (config self)))
  /\ (truthy_int team = false ->
      exists orch op,
        plan_reset self id TEAM a snapshot zone team vm = Returns (orch, op)
        /\ tasks op
           = new_task a snapshot <$> topology_vms (zones (config self))).
Proof.
  split; intros Hf; do 2 eexists; (split; [apply plan_reset_returns|]); simpl.
  - by rewrite collect_vms_ZONE_falsy.
  - by rewrite collect_vms_TEAM_falsy.
Qed.

Lemma falsy_filter_plans_whole_range_witness :
  exists orch op,
    plan_reset (mkOrchestrator range_config None) "20260101-000000" ZONE
      POWER_CYCLE None (Some "") None None = Returns (orch, op)
    /\ tasks op
       = new_task POWER_CYCLE None <$> topology_vms (zones range_config).
Proof.
  apply (proj1 (falsy_filter_plans_whole_range
                  (mkOrchestrator range_config None) "20260101-000000"
                  POWER_CYCLE None (Some "") None None)).
  reflexivity.
Defined.

(** Whatever the scope and filters, the planned tasks are a selection of
    the topology's VMs that keeps their order: nothing is planned twice or
    re-sorted, and there are never more tasks than VMs. *)
Theorem plan_selects_in_order self id level a snapshot zone team vm :
  exists orch op,
    plan_reset self id level a snapshot zone team vm = Returns (orch, op)
    /\ vm_name <$> tasks op
       `sublist_of` target_name <$> topology_vms (zones (config self))
    /\ (length (tasks op) <= length (topology_vms (zones (config self))))%nat.
Proof.
  do 2 eexists. split; [apply plan_reset_returns|]. simpl.
  pose proof (collect_vms_sublist level zone team vm (zones (config self)))
    as Hsub.
  split.
  - rewrite <- list_fmap_compose.
    change (vm_name ∘ new_task a snapshot) with target_name.
    by apply fmap_sublist.
  - rewrite length_fmap. by apply sublist_length.
Qed.

(** A plan is homogeneous and unexecuted: every task carries the
    operation's action and the snapshot name given, is pending with no
    times and no error, and the operation returned is the one kept in
    [self.operation], with no start or end time. *)
Theorem plan_is_homogeneous self id lvl a snapshot zone team vm :
  exists orch op,
    plan_reset self id lvl a snapshot zone team vm = Returns (orch, op)
    /\ operation orch = Some op /\ config orch = config self
    /\ operation_id op = id /\ level op = lvl
    /\ op_action op = a
    /\ op_start_time op = None /\ op_end_time op = None
    /\ Forall (fun t => action t = a /\ snapshot_name t = snapshot
                        /\ planned t) (tasks op).
Proof.
  do 2 eexists. split; [apply plan_reset_returns|]. simpl.
  repeat (split; [done|]).
  apply Forall_fmap, Forall_forall. intros v _. simpl.
  split; [done|]. split; [done|]. apply new_task_planned.
Qed.

(** ** Execution: each task's outcome is its own *)

Lemma finished_settled adapter i t0 t :
  coroutine_inv adapter i t0 Finished t -> settled adapter i t0 t.
Proof.
  intros (started & ended & Hv). unfold settled.
  destruct (verdict adapter i t0) as [[[]|e]|]; [| |done]; subst t; simpl;
    repeat (split; [by eauto|]); by eauto.
Qed.

Lemma gathered_settled adapter op s :
  exec_inv adapter (tasks op) s -> gathered s = true ->
  length (tasks (execute_end s)) = length (tasks op)
  /\ forall i t0, tasks op !! i = Some t0 ->
       exists t, tasks (execute_end s) !! i = Some t /\ settled adapter i t0 t.
Proof.
  intros Hinv Hg. pose proof Hinv as (_ & Hlen & _ & _). split; [done|].
  intros i t0 Ht0.
  destruct (gathered_task _ _ _ _ _ Hinv Hg Ht0) as (t & Ht & Hfin).
  exists t. split; [done | by apply finished_settled].
Qed.

(** Whenever [execute] returns, under the loop's own order or under any
    other schedule of the coroutines, the operation has the same tasks in
    the same order, and each task is settled by the outcome of its own
    [try] block alone: completed if its adapter call returned, failed with
    [str(e)] if the call (or the dispatch) raised [e].  Name, action and
    snapshot of a task are never changed, and both its times are set. *)
Theorem task_outcome_is_its_own parallel adapter callback self op clock :
  operation self = Some op ->
  (forall op',
     execute parallel adapter callback self clock = Done (Returns op') ->
     length (tasks op') = length (tasks op)
     /\ forall i t0, tasks op !! i = Some t0 ->
          exists t, tasks op' !! i = Some t /\ settled adapter i t0 t)
  /\ (forall sched op',
       execute_under parallel adapter callback sched self clock
       = Done (Returns op') ->
       length (tasks op') = length (tasks op)
       /\ forall i t0, tasks op !! i = Some t0 ->
            exists t, tasks op' !! i = Some t /\ settled adapter i t0 t).
Proof.
  intros Hop. split.
  - intros op' Hex.
    apply execute_inversion in Hex as (s0 & sched & s & Hb & Hrun & Hg & ->).
    destruct (execute_begin_inv parallel adapter _ _ _ _ Hop Hb) as (Hinv & _).
    apply gathered_settled; [by eapply run_inv | done].
  - intros sched op' Hex.
    apply execute_under_inversion in Hex as (s0 & s & Hb & Hrun & Hg & ->).
    destruct (execute_begin_inv parallel adapter _ _ _ _ Hop Hb) as (Hinv & _).
    apply gathered_settled; [by eapply run_inv | done].
Qed.

Lemma task_outcome_is_its_own_witness :
  (forall op',
     execute 2 (failing_at 1 vm_not_found) true range_orchestrator 0%nat
     = Done (Returns op') ->
     length (tasks op') = length (tasks range_operation)
     /\ forall i t0, tasks range_operation !! i = Some t0 ->
          exists t, tasks op' !! i = Some t
                    /\ settled (failing_at 1 vm_not_found) i t0 t)
  /\ (forall sched op',
       execute_under 2 (failing_at 1 vm_not_found) true sched
         range_orchestrator 0%nat = Done (Returns op') ->
       length (tasks op') = length (tasks range_operation)
       /\ forall i t0, tasks range_operation !! i = Some t0 ->
            exists t, tasks op' !! i = Some t
                      /\ settled (failing_at 1 vm_not_found) i t0 t).
Proof. apply task_outcome_is_its_own. reflexivity. Defined.

(** ** Execution: when [execute] does not return *)

Lemma step_without_slots adapter callback s e :
  (forall c, c ∈ run_coros s -> is_awaiting c = false) ->
  step 0 adapter callback s e = None.
Proof.
  intros Hq. destruct e as [i|i]; simpl.
  - destruct (run_coros s !! i) as [[| |]|]; try done.
    destruct (tasks (run_op s) !! i); [|done].
    rewrite bool_decide_eq_false_2; [done|lia].
  - destruct (run_coros s !! i) as [[|call|]|] eqn:Hc; try done.
    apply list_elem_of_lookup_2, Hq in Hc. done.
Qed.

Lemma execute_zero_slots adapter callback self op clock :
  operation self = Some op ->
  tasks op <> [] ->
  execute 0 adapter callback self clock = Hangs
  /\ forall sched,
       execute_under 0 adapter callback sched self clock = Hangs.
Proof.
  intros Hop Hne.
  destruct (execute_begin_returns 0 self op clock Hop) as [s0 Hb]; [lia|].
  destruct (execute_begin_inv 0 adapter _ _ _ _ Hop Hb) as (_ & _ & Hcs & _).
  assert (forall c, c ∈ run_coros s0 -> is_awaiting c = false) as Hq.
  { intros c Hc. rewrite Hcs in Hc. by apply elem_of_replicate in Hc as [-> _]. }
  assert (gathered s0 = false) as Hg.
  { unfold gathered. rewrite Hcs. destruct (tasks op); done. }
  split.
  - unfold execute. rewrite Hb. cbv zeta.
    assert (forall fuel, drive 0 adapter callback fuel s0 = s0) as ->.
    { intros [|fuel]; [done|]. simpl.
      destruct (next_event 0 s0); [|done]. by rewrite step_without_slots. }
    by rewrite Hg.
  - intros sched. unfold execute_under. rewrite Hb.
    destruct sched as [|e sched]; simpl; [by rewrite Hg|].
    by rewrite step_without_slots.
Qed.

(** With [parallel = 0] the semaphore never admits a coroutine: an
    operation with at least one task is never executed, and [execute] does
    not return, whatever the adapter and the schedule. *)
Theorem execute_without_slots_never_returns adapter callback self op clock :
  operation self = Some op ->
  tasks op <> [] ->
  execute 0 adapter callback self clock = Hangs
  /\ forall sched,
       execute_under 0 adapter callback sched self clock = Hangs.
Proof. apply execute_zero_slots. Qed.

Lemma execute_without_slots_never_returns_witness :
  execute 0 DryRunAdapter true range_orchestrator 0%nat = Hangs
  /\ forall sched,
       execute_under 0 DryRunAdapter true sched range_orchestrator 0%nat
       = Hangs.
Proof.
  apply (execute_without_slots_never_returns DryRunAdapter true
           range_orchestrator range_operation); [reflexivity | done].
Defined.

(** The executor has no timeout of its own: if the adapter call of a single
    task never answers, [execute] never returns, under any schedule and any
    non-negative [parallel]. *)
Theorem hung_adapter_call_hangs_execute parallel adapter callback self op
    clock k t :
  operation self = Some op ->
  0 <= parallel ->
  tasks op !! k = Some t ->
  verdict adapter k t = Hangs ->
  execute parallel adapter callback self clock = Hangs
  /\ forall sched,
       execute_under parallel adapter callback sched self clock = Hangs.
Proof.
  intros Hop Hp Hk Hv.
  assert (forall s0 sched s,
            execute_begin parallel self clock = Returns s0 ->
            run parallel adapter callback sched s0 = Some s ->
            gathered s = false) as Hnever.
  { intros s0 sched s Hb Hrun.
    destruct (execute_begin_inv parallel adapter _ _ _ _ Hop Hb) as (Hinv & _).
    pose proof (run_inv _ _ _ _ _ _ _ Hinv Hrun) as Hinv'.
    destruct (gathered s) eqn:Hg; [|done].
    destruct (gathered_task _ _ _ _ _ Hinv' Hg Hk) as (t' & _ & st & en & Hfin).
    by rewrite Hv in Hfin. }
  destruct (execute_begin_returns parallel self op clock Hop Hp) as [s0 Hb].
  split.
  - unfold execute. rewrite Hb. cbv zeta.
    destruct (drive_reachable parallel adapter callback
                (2 * length (run_coros s0)) s0) as [sched Hrun].
    by rewrite (Hnever _ _ _ Hb Hrun).
  - intros sched. unfold execute_under. rewrite Hb.
    destruct (run _ _ _ _ s0) as [s|] eqn:Hrun; [|done].
    by rewrite (Hnever _ _ _ Hb Hrun).
Qed.

Lemma hung_adapter_call_hangs_execute_witness :
  execute 5 (fun i _ => if bool_decide (i = 3%nat) then Hangs else Done (Returns tt))
    true range_orchestrator 0%nat = Hangs
  /\ forall sched,
       execute_under 5
         (fun i _ => if bool_decide (i = 3%nat) then Hangs else Done (Returns tt))
         true sched range_orchestrator 0%nat = Hangs.
Proof.
  apply (hung_adapter_call_hangs_execute 5 _ true range_orchestrator
           range_operation 0%nat 3%nat
           (new_task POWER_CYCLE None (mkTarget (Some "kali01") "red" None)));
    [reflexivity | lia | reflexivity | reflexivity].
Defined.

(** ** Execution: a backend that always answers *)

(** When every task dispatches a call and every call returns, [execute]
    completes every task. *)
Lemma all_calls_return_completes parallel adapter callback self op clock :
  operation self = Some op ->
  1 <= parallel ->
  (forall i t, tasks op !! i = Some t ->
     exists call, dispatch t = Returns call
                  /\ adapter i call = Done (Returns tt)) ->
  exists op',
    execute parallel adapter callback self clock = Done (Returns op')
    /\ length (tasks op') = length (tasks op)
    /\ forall t, t ∈ tasks op' -> status t = "completed".
Proof.
  intros Hop Hp Hcalls.
  assert (forall i t, tasks op !! i = Some t ->
            verdict adapter i t = Done (Returns tt)) as Hv.
  { intros i t Ht. destruct (Hcalls _ _ Ht) as (call & Hd & Ha).
    unfold verdict. by rewrite Hd. }
  destruct (execute_returns parallel adapter callback self op clock)
    as [op' Hex]; [done|done| |].
  { intros i t Ht. by rewrite (Hv _ _ Ht). }
  exists op'. split; [done|].
  apply execute_inversion in Hex as (s0 & sched & s & Hb & Hrun & Hg & ->).
  destruct (execute_begin_inv parallel adapter _ _ _ _ Hop Hb) as (Hinv & _).
  pose proof (run_inv _ _ _ _ _ _ _ Hinv Hrun) as Hinv'.
  destruct (gathered_settled _ _ _ Hinv' Hg) as [Hlen Hall].
  split; [done|]. intros t Hin.
  apply list_elem_of_lookup in Hin as [i Hi].
  pose proof (lookup_lt_Some _ _ _ Hi) as Hlt.
  destruct (lookup_lt_is_Some_2 (tasks op) i) as [t0 Ht0]; [lia|].
  destruct (Hall _ _ Ht0) as (t' & Ht' & Hs). simplify_eq.
  destruct Hs as (_ & _ & _ & _ & _ & Hs). rewrite (Hv _ _ Ht0) in Hs.
  by destruct Hs.
Qed.

Lemma all_completed_reads_completed op :
  tasks op <> [] -> (forall t, t ∈ tasks op -> status t = "completed") ->
  operation_status op = "completed" /\ (progress op == 100)%Q.
Proof.
  intros Hne Hall. split; [|by apply progress_100].
  rewrite operation_status_cases.
  assert (existsb (has_status "failed") (tasks op) = false) as ->.
  { apply existsb_has_status_false. intros t Hin. by rewrite (Hall t Hin). }
  rewrite (proj2 (forallb_has_status _ _) Hall). by destruct (tasks op).
Qed.

Lemma planned_dispatch a snapshot (vs : list Target) i t :
  a = SNAPSHOT_REVERT \/ a = POWER_CYCLE ->
  (new_task a snapshot <$> vs) !! i = Some t ->
  exists call, dispatch t = Returns call.
Proof.
  intros Ha Ht. rewrite list_lookup_fmap in Ht.
  destruct (vs !! i) as [v|]; simplify_eq/=.
  destruct Ha as [-> | ->]; unfold dispatch; simpl; eauto.
Qed.

(** A rehearsal always succeeds: executing any plan of a snapshot revert
    or a power cycle against [DryRunAdapter], with at least one slot,
    returns with every task completed and no error recorded; if anything
    was planned the status reads ["completed"] and progress 100. *)
Theorem rehearsal_completes self id lvl a snapshot zone team vm parallel
    callback clock :
  a = SNAPSHOT_REVERT \/ a = POWER_CYCLE ->
  1 <= parallel ->
  exists orch op op',
    plan_reset self id lvl a snapshot zone team vm = Returns (orch, op)
    /\ execute parallel DryRunAdapter callback orch clock = Done (Returns op')
    /\ length (tasks op') = length (tasks op)
    /\ (forall t, t ∈ tasks op' -> status t = "completed")
    /\ (tasks op <> [] ->
        operation_status op' = "completed" /\ (progress op' == 100)%Q).
Proof.
  intros Ha Hp.
  set (op := mkOperation id lvl a
               (new_task a snapshot
                  <$> collect_vms lvl zone team vm (zones (config self)))
               None None).
  set (orch := mkOrchestrator (config self) (Some op)).
  exists orch, op.
  destruct (all_calls_return_completes parallel DryRunAdapter callback orch op
              clock) as (op' & Hex & Hlen & Hall); [done|done| |].
  { intros i t Ht. destruct (planned_dispatch _ _ _ _ _ Ha Ht) as [call Hd].
    by exists call. }
  exists op'. split; [apply plan_reset_returns|]. split; [done|].
  split; [done|]. split; [done|].
  intros Hne. apply all_completed_reads_completed; [|done].
  intros Hnil. rewrite Hnil in Hlen. by destruct (tasks op).
Qed.

Lemma rehearsal_completes_witness :
  exists orch op op',
    plan_reset (mkOrchestrator range_config None) "20260101-000000" TEAM
      SNAPSHOT_REVERT (Some "pre-ex") None (Some 1) None = Returns (orch, op)
    /\ execute 3 DryRunAdapter true orch 0%nat = Done (Returns op')
    /\ length (tasks op') = length (tasks op)
    /\ (forall t, t ∈ tasks op' -> status t = "completed")
    /\ (tasks op <> [] ->
        operation_status op' = "completed" /\ (progress op' == 100)%Q).
Proof. apply rehearsal_completes; [by left | lia]. Defined.

(** ** Execution: the concurrency bound *)

Lemma length_filter_insert {A} (P : A -> Prop) `{!forall x, Decision (P x)}
    (l : list A) i x y :
  l !! i = Some x ->
  (length (filter P (<[i:=y]> l)) + (if decide (P x) then 1 else 0)
   = length (filter P l) + (if decide (P y) then 1 else 0))%nat.
Proof.
  revert i. induction l as [|z l IH]; intros [|i] Hi; simplify_eq/=.
  - rewrite !filter_cons. destruct (decide (P x)), (decide (P y)); simpl; lia.
  - specialize (IH i Hi). rewrite !filter_cons.
    destruct (decide (P z)); simpl; lia.
Qed.

Lemma in_flight_insert cs i c c' :
  cs !! i = Some c ->
  (in_flight (<[i:=c']> cs) + (if is_awaiting c then 1 else 0)
   = in_flight cs + (if is_awaiting c' then 1 else 0))%nat.
Proof.
  intros Hi. unfold in_flight.
  pose proof (length_filter_insert (fun c => is_awaiting c = true) cs i c c' Hi)
    as H.
  destruct (decide (is_awaiting c = true)) as [Hc|Hc],
           (decide (is_awaiting c' = true)) as [Hc'|Hc'];
    destruct (is_awaiting c), (is_awaiting c'); try done; lia.
Qed.

Lemma step_in_flight parallel adapter callback s e s' :
  step parallel adapter callback s e = Some s' ->
  Z.of_nat (in_flight (run_coros s)) <= parallel ->
  Z.of_nat (in_flight (run_coros s')) <= parallel.
Proof.
  intros Hstep Hle. destruct e as [i|i]; simpl in Hstep.
  - destruct (run_coros s !! i) as [[| |]|] eqn:Hc; try done.
    destruct (tasks (run_op s) !! i) as [t|]; [|done].
    case_bool_decide as Hslot; [|done]. simplify_eq.
    unfold execute_task_enter.
    destruct (dispatch _); simpl;
      match goal with
      | |- context [<[i:=?c']> _] =>
        pose proof (in_flight_insert _ _ _ c' Hc) as Hw; simpl in Hw; lia
      end.
  - destruct (run_coros s !! i) as [[|call|]|] eqn:Hc; try done.
    destruct (tasks (run_op s) !! i) as [t|]; [|done].
    destruct (adapter i call); [|done]. simplify_eq. simpl.
    pose proof (in_flight_insert _ _ _ Finished Hc) as Hw; simpl in Hw; lia.
Qed.

Lemma run_in_flight parallel adapter callback sched s s' :
  run parallel adapter callback sched s = Some s' ->
  Z.of_nat (in_flight (run_coros s)) <= parallel ->
  Z.of_nat (in_flight (run_coros s')) <= parallel.
Proof.
  revert s. induction sched as [|e sched IH]; simpl; intros s Hrun Hle.
  - by simplify_eq.
  - destruct (step parallel adapter callback s e) as [s1|] eqn:Hstep; [|done].
    eauto using step_in_flight.
Qed.

Lemma in_flight_replicate_queued n : in_flight (replicate n Queued) = 0%nat.
Proof.
  apply in_flight_none, Forall_forall. intros c Hc.
  by apply elem_of_replicate in Hc as [-> _].
Qed.

Lemma running_is_in_flight (cs : list Coroutine) (ts : list ResetTask) :
  Forall2 (fun c t => is_awaiting c = has_status "running" t) cs ts ->
  in_flight cs = count_status "running" ts.
Proof.
  unfold in_flight. induction 1 as [|c t cs ts Hct _ IH]; [done|].
  simpl. rewrite filter_cons, <- Hct.
  destruct (is_awaiting c); case_decide; try done; simpl; by rewrite IH.
Qed.

Lemma planned_running adapter ts0 s :
  Forall planned ts0 -> exec_inv adapter ts0 s ->
  in_flight (run_coros s) = count_status "running" (tasks (run_op s)).
Proof.
  intros Hpl (Hlc & Hlt & Hinv & _). apply running_is_in_flight.
  apply Forall2_same_length_lookup. split; [lia|].
  intros i c t Hc Ht.
  pose proof (lookup_lt_Some _ _ _ Hc) as Hi.
  destruct (lookup_lt_is_Some_2 ts0 i) as [t0 Ht0]; [lia|].
  destruct (Forall_lookup_1 _ _ _ _ Hpl Ht0) as (Hs & _).
  pose proof (Hinv _ _ _ _ Ht0 Hc Ht) as Hci. unfold has_status.
  destruct c as [|call|]; simpl in *.
  - subst t. rewrite Hs. done.
  - by destruct Hci as (_ & started & ->).
  - destruct Hci as (started & ended & Hv).
    destruct (verdict adapter i t0) as [[[]|e]|]; [| |done]; by subst t.
Qed.

(** The concurrency bound.  In every state an execution of a planned
    operation passes through, under any schedule, the tasks whose status is
    ["running"] are exactly those inside the semaphore, and there are never
    more of them than [parallel]. *)
Theorem running_tasks_never_exceed_parallel self id lvl a snapshot zone team vm :
  exists orch op,
    plan_reset self id lvl a snapshot zone team vm = Returns (orch, op)
    /\ forall parallel adapter callback clock s0 sched s,
         execute_begin parallel orch clock = Returns s0 ->
         run parallel adapter callback sched s0 = Some s ->
         count_status "running" (tasks (run_op s)) = in_flight (run_coros s)
         /\ Z.of_nat (count_status "running" (tasks (run_op s))) <= parallel.
Proof.
  do 2 eexists. split; [apply plan_reset_returns|].
  set (op := mkOperation id lvl a _ None None).
  set (orch := mkOrchestrator (config self) (Some op)).
  destruct (plan_reset_planned self id lvl a snapshot zone team vm orch op
              (plan_reset_returns _ _ _ _ _ _ _ _)) as [Hop Hpl].
  intros parallel adapter callback clock s0 sched s Hb Hrun.
  destruct (execute_begin_inv parallel adapter orch op _ _ Hop Hb)
    as (Hinv & _ & Hcs & _).
  pose proof (run_inv _ _ _ _ _ _ _ Hinv Hrun) as Hinv'.
  rewrite <- (planned_running adapter (tasks op) s Hpl Hinv').
  split; [done|].
  eapply run_in_flight; [done|].
  rewrite Hcs, in_flight_replicate_queued.
  unfold execute_begin in Hb. rewrite Hop in Hb.
  case_bool_decide; [done|]. lia.
Qed.

(** ** Execution: the progress callback and the adapter calls *)

Lemma report_length callback op seen :
  length (report callback op seen)
  = (length seen + if callback then 1 else 0)%nat.
Proof.
  unfold report. destruct callback; [|lia]. rewrite length_app. done.
Qed.

Lemma step_report_count parallel adapter callback s e s' :
  step parallel adapter callback s e = Some s' ->
  (length (run_reports s')
   + (if callback
      then length (filter (fun c => c = Finished) (run_coros s)) else 0)
   = length (run_reports s)
     + (if callback
        then length (filter (fun c => c = Finished) (run_coros s')) else 0))%nat.
Proof.
  intros Hstep. destruct e as [i|i]; simpl in Hstep.
  - destruct (run_coros s !! i) as [[| |]|] eqn:Hc; try done.
    destruct (tasks (run_op s) !! i) as [t|]; [|done].
    case_bool_decide; [|done]. simplify_eq.
    unfold execute_task_enter.
    destruct (dispatch _); simpl; rewrite ?report_length;
      match goal with
      | |- context [<[i:=?c']> _] =>
        pose proof (length_filter_insert (fun c => c = Finished) _ _ _ c' Hc)
          as Hw
      end;
      repeat case_decide; try done; destruct callback; lia.
  - destruct (run_coros s !! i) as [[|call|]|] eqn:Hc; try done.
    destruct (tasks (run_op s) !! i) as [t|]; [|done].
    destruct (adapter i call); [|done]. simplify_eq. simpl.
    rewrite report_length.
    pose proof (length_filter_insert (fun c => c = Finished) _ _ _ Finished Hc)
      as Hw.
    repeat case_decide; try done; destruct callback; lia.
Qed.

Lemma run_report_count parallel adapter callback sched s s' :
  run parallel adapter callback sched s = Some s' ->
  (length (run_reports s')
   + (if callback
      then length (filter (fun c => c = Finished) (run_coros s)) else 0)
   = length (run_reports s)
     + (if callback
        then length (filter (fun c => c = Finished) (run_coros s')) else 0))%nat.
Proof.
  revert s. induction sched as [|e sched IH]; simpl; intros s Hrun.
  - simplify_eq. lia.
  - destruct (step parallel adapter callback s e) as [s1|] eqn:Hstep; [|done].
    apply step_report_count in Hstep. apply IH in Hrun. lia.
Qed.

(** The progress callback is invoked once for each task that has reached
    its end, and never otherwise: in every state of an execution the
    number of values it was shown is the number of returned coroutines (or
    zero when no callback was given), so a run that completes has shown
    exactly one value per task. *)
Theorem callback_once_per_finished_task parallel adapter callback self op
    clock :
  operation self = Some op ->
  forall s0 sched s,
    execute_begin parallel self clock = Returns s0 ->
    run parallel adapter callback sched s0 = Some s ->
    length (run_reports s)
    = (if callback
       then length (filter (fun c => c = Finished) (run_coros s)) else 0%nat)
    /\ (gathered s = true ->
        length (run_reports s)
        = if callback then length (tasks op) else 0%nat).
Proof.
  intros Hop s0 sched s Hb Hrun.
  destruct (execute_begin_inv parallel adapter _ _ _ _ Hop Hb)
    as (Hinv & _ & Hcs & _).
  pose proof (run_inv _ _ _ _ _ _ _ Hinv Hrun) as (Hlen & _).
  assert (run_reports s0 = []) as Hnil.
  { unfold execute_begin in Hb. rewrite Hop in Hb.
    case_bool_decide; by simplify_eq. }
  apply run_report_count in Hrun. rewrite Hnil, Hcs in Hrun.
  rewrite filter_none in Hrun
    by (intros c Hc; by apply elem_of_replicate in Hc as [-> _]).
  simpl in Hrun.
  assert (length (run_reports s)
          = if callback
            then length (filter (fun c => c = Finished) (run_coros s))
            else 0%nat) as Hcount by (destruct callback; lia).
  split; [done|]. intros Hg. rewrite Hcount. destruct callback; [|done].
  rewrite filter_all; [done|]. by apply gathered_true.
Qed.

Lemma callback_once_per_finished_task_witness :
  exists s0 s,
    execute_begin 2 range_orchestrator 0%nat = Returns s0
    /\ run 2 DryRunAdapter true [Acquire 0; Acquire 1; Resume 1] s0 = Some s
    /\ length (run_reports s)
       = length (filter (fun c => c = Finished) (run_coros s))
    /\ (gathered s = true ->
        length (run_reports s) = length (tasks range_operation)).
Proof.
  do 2 eexists. split; [vm_compute; reflexivity|].
  split; [vm_compute; reflexivity|].
  eapply (callback_once_per_finished_task 2 DryRunAdapter true
            range_orchestrator range_operation 0%nat eq_refl _
            [Acquire 0; Acquire 1; Resume 1]);
    vm_compute; reflexivity.
Defined.

Lemma calls_inv_update ts0 s i c' clock seen op' :
  calls_inv ts0 s -> c' <> Queued ->
  (forall c, run_coros s !! i = Some c -> c <> Queued \/
     forall t0 call, ts0 !! i = Some t0 -> dispatch t0 <> Returns call) ->
  calls_inv ts0
    (mkExec op' (<[i:=c']> (run_coros s)) clock (run_calls s) seen).
Proof.
  intros (Hnd & Hq & Hall) Hc' Hold. unfold calls_inv; simpl.
  split; [done|]. split.
  - intros j Hj. destruct (decide (i = j)) as [<-|Hne].
    + intros Hi. pose proof (lookup_lt_Some _ _ _ Hi) as Hlt.
      rewrite length_insert in Hlt.
      rewrite list_lookup_insert_eq in Hi by done. congruence.
    + rewrite list_lookup_insert_ne by done. by apply Hq.
  - intros j c t0 call Hj Hc Ht0 Hd. destruct (decide (i = j)) as [<-|Hne].
    + pose proof (lookup_lt_Some _ _ _ Hj) as Hlt.
      rewrite length_insert in Hlt.
      destruct (lookup_lt_is_Some_2 (run_coros s) i) as [c0 Hc0]; [done|].
      destruct (Hold _ Hc0) as [Hnq|Hnd']; [by eapply Hall|].
      by destruct (Hnd' _ _ Ht0 Hd).
    + rewrite list_lookup_insert_ne in Hj by done. by eapply Hall.
Qed.

Lemma step_calls_inv parallel adapter callback ts0 s e s' :
  exec_inv adapter ts0 s -> calls_inv ts0 s ->
  step parallel adapter callback s e = Some s' -> calls_inv ts0 s'.
Proof.
  intros Hinv Hcalls Hstep. destruct e as [i|i]; simpl in Hstep.
  - destruct (run_coros s !! i) as [[| |]|] eqn:Hc; try done.
    destruct (exec_inv_lookup _ _ _ _ _ Hinv Hc) as (t0 & t & Ht0 & Ht & Hci).
    simpl in Hci. subst t. rewrite Ht in Hstep.
    case_bool_decide; [|done]. simplify_eq.
    unfold execute_task_enter. rewrite dispatch_set_running.
    destruct (dispatch t0) as [call|e] eqn:Hd.
    + destruct Hcalls as (Hnd & Hq & Hall). unfold calls_inv; simpl.
      rewrite fmap_app. simpl. split; [|split].
      * apply NoDup_app. split; [done|]. split; [|apply NoDup_singleton].
        intros j Hj Hj'. apply list_elem_of_singleton in Hj'. subst j.
        by apply Hq in Hj.
      * intros j Hj. apply elem_of_app in Hj as [Hj|Hj].
        -- destruct (decide (i = j)) as [<-|Hne]; [by apply Hq in Hj|].
           rewrite list_lookup_insert_ne by done. by apply Hq.
        -- apply list_elem_of_singleton in Hj. subst j.
           rewrite list_lookup_insert_eq by (by eapply lookup_lt_Some). done.
      * intros j c tj callj Hj Hcq Htj Hdj. apply elem_of_app.
        destruct (decide (i = j)) as [<-|Hne].
        -- right. simplify_eq. assert (callj = call) as -> by congruence.
           apply list_elem_of_here.
        -- left. rewrite list_lookup_insert_ne in Hj by done. by eapply Hall.
    + apply calls_inv_update; [done|done|].
      intros c _. right. intros t0' call' Ht0' Hd'. simplify_eq. congruence.
  - destruct (run_coros s !! i) as [[|call|]|] eqn:Hc; try done.
    destruct (tasks (run_op s) !! i) as [t|]; [|done].
    destruct (adapter i call) as [r|]; [|done]. simplify_eq.
    unfold execute_task_resume. apply calls_inv_update; [done|done|].
    intros c Hc'. left. congruence.
Qed.

Lemma run_calls_inv parallel adapter callback ts0 sched s s' :
  exec_inv adapter ts0 s -> calls_inv ts0 s ->
  run parallel adapter callback sched s = Some s' -> calls_inv ts0 s'.
Proof.
  revert s. induction sched as [|e sched IH]; simpl; intros s Hinv Hcalls Hrun.
  - by simplify_eq.
  - destruct (step parallel adapter callback s e) as [s1|] eqn:Hstep; [|done].
    eauto using step_inv, step_calls_inv.
Qed.

(** No task is ever dispatched twice.  In every state of an execution each
    adapter call on record was made for a different task and is the call
    that task's action, VM name and snapshot name select; once every
    coroutine has returned, every task with a supported action has exactly
    its one call on record.  There is no retry. *)
Theorem each_task_is_called_once parallel adapter callback self op clock :
  operation self = Some op ->
  forall s0 sched s,
    execute_begin parallel self clock = Returns s0 ->
    run parallel adapter callback sched s0 = Some s ->
    NoDup (fst <$> run_calls s)
    /\ (forall i call, (i, call) ∈ run_calls s ->
          exists t0, tasks op !! i = Some t0 /\ dispatch t0 = Returns call)
    /\ (gathered s = true ->
        forall i t0 call,
          tasks op !! i = Some t0 -> dispatch t0 = Returns call ->
          (i, call) ∈ run_calls s).
Proof.
  intros Hop s0 sched s Hb Hrun.
  destruct (execute_begin_inv parallel adapter _ _ _ _ Hop Hb)
    as (Hinv & _ & Hcs & Hnil).
  assert (calls_inv (tasks op) s0) as Hcalls0.
  { unfold calls_inv. rewrite Hnil. simpl. split; [apply NoDup_nil_2|].
    split; [intros i Hi; by apply elem_of_nil in Hi|].
    intros i c t0 call Hc Hq. rewrite Hcs in Hc.
    by apply lookup_replicate in Hc as [-> _]. }
  pose proof (run_inv _ _ _ _ _ _ _ Hinv Hrun) as Hinv'.
  destruct (run_calls_inv _ _ _ _ _ _ _ Hinv Hcalls0 Hrun) as (Hnd & _ & Hall).
  split; [done|]. split; [by destruct Hinv' as (_ & _ & _ & H)|].
  intros Hg i t0 call Ht0 Hd.
  pose proof Hinv' as (Hlc & _).
  pose proof (lookup_lt_Some _ _ _ Ht0) as Hlt.
  destruct (lookup_lt_is_Some_2 (run_coros s) i) as [c Hc]; [lia|].
  eapply Hall; [done| |done|done].
  rewrite (proj1 (gathered_true s) Hg c); [done|].
  by eapply list_elem_of_lookup_2.
Qed.

Lemma each_task_is_called_once_witness :
  exists s0 s,
    execute_begin 2 range_orchestrator 0%nat = Returns s0
    /\ run 2 DryRunAdapter true [Acquire 0; Acquire 1; Resume 1] s0 = Some s
    /\ NoDup (fst <$> run_calls s)
    /\ (forall i call, (i, call) ∈ run_calls s ->
          exists t0, tasks range_operation !! i = Some t0
                     /\ dispatch t0 = Returns call)
    /\ (gathered s = true ->
        forall i t0 call,
          tasks range_operation !! i = Some t0 -> dispatch t0 = Returns call ->
          (i, call) ∈ run_calls s).
Proof.
  do 2 eexists. split; [vm_compute; reflexivity|].
  split; [vm_compute; reflexivity|].
  eapply (each_task_is_called_once 2 DryRunAdapter true range_orchestrator
            range_operation 0%nat eq_refl _ [Acquire 0; Acquire 1; Resume 1]);
    vm_compute; reflexivity.
Defined.

(** ** Reading the executed operation: summary and durations *)

Lemma execute_terminal parallel adapter callback self op clock op' :
  operation self = Some op ->
  execute parallel adapter callback self clock = Done (Returns op') ->
  length (tasks op') = length (tasks op)
  /\ forall t, t ∈ tasks op' ->
       (status t = "completed" \/ status t = "failed")
       /\ is_Some (start_time t) /\ is_Some (end_time t).
Proof.
  intros Hop Hex.
  apply execute_inversion in Hex as (s0 & sched & s & Hb & Hrun & Hg & ->).
  destruct (execute_begin_inv parallel adapter _ _ _ _ Hop Hb) as (Hinv & _).
  pose proof (run_inv _ _ _ _ _ _ _ Hinv Hrun) as Hinv'.
  destruct (gathered_settled _ _ _ Hinv' Hg) as [Hlen Hall].
  split; [done|]. intros t Hin.
  apply list_elem_of_lookup in Hin as [i Hi].
  pose proof (lookup_lt_Some _ _ _ Hi) as Hlt.
  destruct (lookup_lt_is_Some_2 (tasks op) i) as [t0 Ht0]; [lia|].
  destruct (Hall _ _ Ht0) as (t' & Ht' & Hs). simplify_eq.
  destruct Hs as (_ & _ & _ & Hst & Hen & Hs).
  split; [|done].
  destruct (verdict adapter i t0) as [[[]|e]|]; [| |done]; destruct Hs; eauto.
Qed.

Lemma count_terminal ts :
  (forall t, t ∈ ts -> status t = "completed" \/ status t = "failed") ->
  (count_status "completed" ts + count_status "failed" ts = length ts)%nat.
Proof.
  induction ts as [|t ts IH]; intros Hall; [done|]. simpl.
  assert (count_status "completed" ts + count_status "failed" ts = length ts)%nat
    as IH' by (apply IH; intros; by apply Hall, list_elem_of_further).
  unfold has_status.
  destruct (Hall t (list_elem_of_here _ _)) as [-> | ->]; simpl; lia.
Qed.

Lemma count_status_pos s ts :
  (0 < count_status s ts)%nat <-> exists t, t ∈ ts /\ status t = s.
Proof.
  induction ts as [|t ts IH]; simpl.
  - split; [lia|]. intros (t & Hin & _). by apply elem_of_nil in Hin.
  - unfold has_status at 1. case_bool_decide as Ht; split.
    + intros _. exists t. split; [apply list_elem_of_here | done].
    + lia.
    + intros Hc. apply IH in Hc as (t' & Hin & Hs).
      exists t'. split; [by apply list_elem_of_further | done].
    + intros (t' & Hin & Hs). apply elem_of_cons in Hin as [->|Hin]; [done|].
      apply IH. eauto.
Qed.

(** The summary of an executed operation adds up: when [execute] returns,
    every task is counted as completed or as failed, the total is the
    number of tasks planned, the status reads ["failed"] exactly when the
    failed count is positive, and ["completed"] when there are tasks and
    none failed. *)
Theorem summary_adds_up parallel adapter callback self op clock :
  operation self = Some op ->
  forall op',
    execute parallel adapter callback self clock = Done (Returns op') ->
    exists completed failed,
      summary op' = (completed, failed, length (tasks op))
      /\ (completed + failed = length (tasks op))%nat
      /\ (operation_status op' = "failed" <-> (0 < failed)%nat)
      /\ (tasks op <> [] -> failed = 0%nat ->
          operation_status op' = "completed").
Proof.
  intros Hop op' Hex.
  destruct (execute_terminal _ _ _ _ _ _ _ Hop Hex) as [Hlen Hterm].
  exists (count_status "completed" (tasks op')),
         (count_status "failed" (tasks op')).
  unfold summary. rewrite Hlen. split; [done|].
  assert (count_status "completed" (tasks op')
          + count_status "failed" (tasks op') = length (tasks op))%nat as Hsum.
  { rewrite <- Hlen. apply count_terminal. intros t Hin. by apply Hterm. }
  split; [done|]. split; [split|].
  - intros Hs. apply count_status_pos.
    rewrite operation_status_cases in Hs.
    destruct (tasks op') as [|t ts] eqn:E; [done|].
    destruct (existsb (has_status "failed") (t :: ts)) eqn:Hf.
    + by apply existsb_has_status in Hf.
    + by repeat match goal with
         | H : context [if ?b then _ else _] |- _ => destruct b
         end.
  - intros Hpos. apply operation_status_failed. by apply count_status_pos.
  - intros Hne Hzero.
    apply all_completed_reads_completed.
    + intros Hnil. rewrite Hnil in Hlen. by destruct (tasks op).
    + apply count_status_all. lia.
Qed.

Lemma summary_adds_up_witness :
  exists op',
    execute 2 (failing_at 1 vm_not_found) true range_orchestrator 0%nat
    = Done (Returns op')
    /\ exists completed failed,
        summary op' = (completed, failed, length (tasks range_operation))
        /\ (completed + failed = length (tasks range_operation))%nat
        /\ (operation_status op' = "failed" <-> (0 < failed)%nat)
        /\ (tasks range_operation <> [] -> failed = 0%nat ->
            operation_status op' = "completed").
Proof.
  eexists. split; [vm_compute; reflexivity|].
  eapply (summary_adds_up 2 (failing_at 1 vm_not_found) true
            range_orchestrator range_operation 0%nat eq_refl).
  vm_compute. reflexivity.
Defined.

Lemma coroutine_duration adapter i t0 c t :
  planned t0 -> coroutine_inv adapter i t0 c t ->
  (is_Some (duration_seconds t)
   <-> status t = "completed" \/ status t = "failed").
Proof.
  intros (Hs & Hst & Hen & _) Hc. unfold duration_seconds.
  destruct c as [|call|]; simpl in Hc.
  - subst t. rewrite Hs, Hst. split; [intros [? ?]; done | intuition discriminate].
  - destruct Hc as (_ & started & ->). simpl. rewrite Hen.
    split; [intros [? ?]; done | intuition discriminate].
  - destruct Hc as (started & ended & Hv).
    destruct (verdict adapter i t0) as [[[]|e]|]; [| |done]; subst t; simpl;
      split; eauto.
Qed.

(** [duration_seconds] is defined exactly for the tasks that reached a
    terminal state: it is [None] for every task of a fresh plan and for
    pending and running tasks during an execution, and set for every task
    once [execute] has returned. *)
Theorem duration_is_set_when_terminal self id lvl a snapshot zone team vm :
  exists orch op,
    plan_reset self id lvl a snapshot zone team vm = Returns (orch, op)
    /\ (forall t, t ∈ tasks op -> duration_seconds t = None)
    /\ (forall parallel adapter callback clock s0 sched s,
         execute_begin parallel orch clock = Returns s0 ->
         run parallel adapter callback sched s0 = Some s ->
         forall t, t ∈ tasks (run_op s) ->
           (is_Some (duration_seconds t)
            <-> status t = "completed" \/ status t = "failed"))
    /\ (forall parallel adapter callback clock op',
         execute parallel adapter callback orch clock = Done (Returns op') ->
         forall t, t ∈ tasks op' -> is_Some (duration_seconds t)).
Proof.
  do 2 eexists. split; [apply plan_reset_returns|].
  set (op := mkOperation id lvl a _ None None).
  set (orch := mkOrchestrator (config self) (Some op)).
  destruct (plan_reset_planned self id lvl a snapshot zone team vm orch op
              (plan_reset_returns _ _ _ _ _ _ _ _)) as [Hop Hpl].
  split; [|split].
  - intros t Hin. rewrite Forall_forall in Hpl.
    destruct (Hpl t Hin) as (_ & Hst & _). unfold duration_seconds.
    by rewrite Hst.
  - intros parallel adapter callback clock s0 sched s Hb Hrun t Hin.
    destruct (execute_begin_inv parallel adapter orch op _ _ Hop Hb)
      as (Hinv & _).
    pose proof (run_inv _ _ _ _ _ _ _ Hinv Hrun) as (Hlc & Hlt & Hall & _).
    apply list_elem_of_lookup in Hin as [i Hi].
    pose proof (lookup_lt_Some _ _ _ Hi) as Hlt'.
    destruct (lookup_lt_is_Some_2 (tasks op) i) as [t0 Ht0]; [lia|].
    destruct (lookup_lt_is_Some_2 (run_coros s) i) as [c Hc]; [lia|].
    eapply coroutine_duration; [|eauto].
    by eapply Forall_lookup_1.
  - intros parallel adapter callback clock op' Hex t Hin.
    destruct (execute_terminal _ _ _ _ _ _ _ Hop Hex) as [_ Hterm].
    destruct (Hterm t Hin) as (_ & [st Hst] & [en Hen]).
    unfold duration_seconds. rewrite Hst, Hen. eauto.
Qed.

(** ** The vSphere adapter: lookups *)

Lemma head_filter_app {A} (P : A -> Prop) `{!forall x, Decision (P x)}
    (l1 l2 : list A) :
  head (filter P (l1 ++ l2)%list)
  = match head (filter P l1) with
    | Some x => Some x
    | None => head (filter P l2)
    end.
Proof. rewrite filter_app. by destruct (filter P l1). Qed.

Lemma find_in_node_eq name n ref cs :
  VMwareAdapter.find_in_node name (VMwareAdapter.SnapshotNode n ref cs)
  = if bool_decide (Some n = name) then Some ref
    else VMwareAdapter.find_in_tree cs name.
Proof.
  simpl. case_bool_decide; [done|].
  induction cs as [|c cs IH]; [done|]. simpl. by rewrite IH.
Qed.

Lemma preorder_eq n ref cs :
  VMwareAdapter.preorder (VMwareAdapter.SnapshotNode n ref cs)
  = (n, ref) :: VMwareAdapter.preorder_all cs.
Proof.
  unfold VMwareAdapter.preorder_all. simpl. f_equal.
Qed.

Lemma find_in_tree_forall name (roots : list VMwareAdapter.SnapshotTree) :
  Forall (fun t =>
            VMwareAdapter.find_in_node name t
            = snd <$> head (filter (fun p => Some p.1 = name)
                              (VMwareAdapter.preorder t))) roots ->
  VMwareAdapter.find_in_tree roots name
  = snd <$> head (filter (fun p => Some p.1 = name)
                    (VMwareAdapter.preorder_all roots)).
Proof.
  unfold VMwareAdapter.preorder_all.
  induction 1 as [|t roots Ht _ IH]; [done|]. simpl.
  rewrite head_filter_app, Ht, IH.
  by destruct (head (filter _ (VMwareAdapter.preorder t))).
Qed.

Lemma find_in_node_first name t :
  VMwareAdapter.find_in_node name t
  = snd <$> head (filter (fun p => Some p.1 = name) (VMwareAdapter.preorder t)).
Proof.
  induction t as [n ref cs IH] using VMwareAdapter.SnapshotTree_nested_ind.
  rewrite find_in_node_eq, preorder_eq, filter_cons. simpl.
  case_bool_decide; case_decide; try done.
  by apply find_in_tree_forall.
Qed.

Lemma head_filter_None {A} (P : A -> Prop) `{!forall x, Decision (P x)}
    (l : list A) :
  head (filter P l) = None <-> forall x, x ∈ l -> ~ P x.
Proof.
  split.
  - intros Hh x Hx HP.
    assert (x ∈ filter P l) as Hin by (by apply list_elem_of_filter).
    destruct (filter P l); [by apply elem_of_nil in Hin | done].
  - intros Hno. by rewrite filter_none.
Qed.

Lemma find_in_tree_first roots name :
  VMwareAdapter.find_in_tree roots name
  = snd <$> head (filter (fun p => Some p.1 = name)
                    (VMwareAdapter.preorder_all roots)).
Proof.
  apply find_in_tree_forall, Forall_forall. intros t _.
  apply find_in_node_first.
Qed.

Lemma find_in_tree_first_in_preorder_aux roots name :
  VMwareAdapter.find_in_tree roots name = None
  <-> forall p, p ∈ VMwareAdapter.preorder_all roots -> Some p.1 <> name.
Proof. rewrite find_in_tree_first, fmap_None. apply head_filter_None. Qed.

(** Snapshot lookup walks the snapshot trees depth first: it returns the
    first snapshot with the wanted name in pre-order (a parent before its
    children, a child's whole subtree before the next sibling), and nothing
    exactly when no snapshot at any depth has that name. *)
Theorem find_in_tree_first_in_preorder
    (roots : list VMwareAdapter.SnapshotTree) (name : option string) :
  VMwareAdapter.find_in_tree roots name
  = snd <$> head (filter (fun p => Some p.1 = name)
                    (VMwareAdapter.preorder_all roots))
  /\ (VMwareAdapter.find_in_tree roots name = None
      <-> forall p, p ∈ VMwareAdapter.preorder_all roots -> Some p.1 <> name).
Proof.
  split; [apply find_in_tree_first | apply find_in_tree_first_in_preorder_aux].
Qed.

Lemma find_vm_None vms vm_name :
  VMwareAdapter._find_vm vms vm_name = None
  <-> forall vm, vm ∈ vms -> Some (VMwareAdapter.vsphere_name vm) <> vm_name.
Proof.
  induction vms as [|vm vms IH]; simpl.
  - split; [|done]. intros _ vm Hin. by apply elem_of_nil in Hin.
  - case_bool_decide as Hn; split.
    + done.
    + intros Hall. by destruct (Hall vm (list_elem_of_here _ _)).
    + intros Hnone vm' Hin. apply elem_of_cons in Hin as [->|Hin]; [done|].
      by apply IH.
    + intros Hall. apply IH. intros vm' Hin.
      by apply Hall, list_elem_of_further.
Qed.

Lemma find_vm_Some vms vm_name vm :
  VMwareAdapter._find_vm vms vm_name = Some vm
  <-> exists i, vms !! i = Some vm
        /\ Some (VMwareAdapter.vsphere_name vm) = vm_name
        /\ forall j vm', (j < i)%nat -> vms !! j = Some vm' ->
             Some (VMwareAdapter.vsphere_name vm') <> vm_name.
Proof.
  induction vms as [|v vms IH]; simpl.
  - split; [done|]. by intros (i & Hi & _).
  - case_bool_decide as Hn; split.
    + intros [= ->]. exists 0%nat. split; [done|]. split; [done|]. lia.
    + intros ([|i] & Hi & Hm & Hfirst); [by simplify_eq/=|].
      by destruct (Hfirst 0%nat v ltac:(lia) eq_refl).
    + intros Hf. apply IH in Hf as (i & Hi & Hm & Hfirst).
      exists (S i). split; [done|]. split; [done|].
      intros [|j] vm' Hj Hvm'; simplify_eq/=; [done|].
      eapply Hfirst; [|done]. lia.
    + intros ([|i] & Hi & Hm & Hfirst); simplify_eq/=.
      apply IH. exists i. split; [done|]. split; [done|].
      intros j vm' Hj Hvm'. apply (Hfirst (S j)); [lia|done].
Qed.

(** The inventory lookup returns the first VM of the view with the wanted
    name (a later VM of the same name is never reached), and nothing
    exactly when no VM has that name. *)
Theorem find_vm_first_by_name (vms : list VMwareAdapter.VirtualMachine)
    (vm_name : option string) :
  (forall vm,
     VMwareAdapter._find_vm vms vm_name = Some vm
     <-> exists i, vms !! i = Some vm
           /\ Some (VMwareAdapter.vsphere_name vm) = vm_name
           /\ forall j vm', (j < i)%nat -> vms !! j = Some vm' ->
                Some (VMwareAdapter.vsphere_name vm') <> vm_name)
  /\ (VMwareAdapter._find_vm vms vm_name = None
      <-> forall vm, vm ∈ vms ->
            Some (VMwareAdapter.vsphere_name vm) <> vm_name).
Proof. split; [intros vm; apply find_vm_Some | apply find_vm_None]. Qed.

(** ** The vSphere adapter: errors and waiting *)

Lemma find_snapshot_None vm snapshot_name :
  VMwareAdapter._find_snapshot vm snapshot_name = None
  <-> forall p, p ∈ vm_snapshots vm -> Some p.1 <> snapshot_name.
Proof.
  unfold VMwareAdapter._find_snapshot, vm_snapshots.
  destruct (VMwareAdapter.vsphere_snapshot vm) as [roots|].
  - apply find_in_tree_first_in_preorder_aux.
  - split; [|done]. intros _ p Hp. by apply elem_of_nil in Hp.
Qed.

(** What [revert_snapshot] and [power_cycle] raise before asking vCenter
    for anything.  If no VM of the view has the name, both raise
    "VM not found: <name>".  If the first VM of that name has no snapshot
    of the wanted name at any depth (or no snapshot at all),
    [revert_snapshot] raises "Snapshot not found: <snapshot> on <name>".
    Otherwise it reverts to the first such snapshot in pre-order and waits
    for that task. *)
Theorem vmware_lookup_errors fuel vc vm_name snapshot_name :
  ((forall vm, vm ∈ VMwareAdapter.view vc ->
      Some (VMwareAdapter.vsphere_name vm) <> vm_name) ->
   VMwareAdapter.revert_snapshot fuel vc vm_name snapshot_name
   = Some (Raises (mkExc "ValueError" ("VM not found: " ++ py_str vm_name)))
   /\ VMwareAdapter.power_cycle fuel vc vm_name
      = Some (Raises (mkExc "ValueError" ("VM not found: " ++ py_str vm_name))))
  /\ (forall vm,
       VMwareAdapter._find_vm (VMwareAdapter.view vc) vm_name = Some vm ->
       (forall p, p ∈ vm_snapshots vm -> Some p.1 <> snapshot_name) ->
       VMwareAdapter.revert_snapshot fuel vc vm_name snapshot_name
       = Some (Raises (mkExc "ValueError"
                         ("Snapshot not found: " ++ py_str snapshot_name
                            ++ " on " ++ py_str vm_name))))
  /\ (forall vm p,
       VMwareAdapter._find_vm (VMwareAdapter.view vc) vm_name = Some vm ->
       head (filter (fun p => Some p.1 = snapshot_name) (vm_snapshots vm))
       = Some p ->
       VMwareAdapter.revert_snapshot fuel vc vm_name snapshot_name
       = VMwareAdapter.start_and_wait fuel
           (VMwareAdapter.RevertToSnapshot_Task vc p.2)).
Proof.
  unfold VMwareAdapter.revert_snapshot, VMwareAdapter.power_cycle.
  split; [|split].
  - intros Hno. apply find_vm_None in Hno. by rewrite Hno.
  - intros vm Hvm Hno. rewrite Hvm.
    by rewrite (proj2 (find_snapshot_None vm snapshot_name) Hno).
  - intros vm p Hvm Hp. rewrite Hvm.
    unfold VMwareAdapter._find_snapshot, vm_snapshots in *.
    destruct (VMwareAdapter.vsphere_snapshot vm) as [roots|]; [|done].
    rewrite find_in_tree_first. by rewrite Hp.
Qed.

Lemma vmware_lookup_errors_witness :
  VMwareAdapter.revert_snapshot 5 partial_vcenter (Some "ws01-t1")
    (Some "pre-ex")
  = Some (Raises (mkExc "ValueError" ("VM not found: " ++ py_str (Some "ws01-t1"))))
  /\ VMwareAdapter.power_cycle 5 partial_vcenter (Some "ws01-t1")
     = Some (Raises (mkExc "ValueError"
                       ("VM not found: " ++ py_str (Some "ws01-t1")))).
Proof.
  apply (proj1 (vmware_lookup_errors 5 partial_vcenter (Some "ws01-t1")
                  (Some "pre-ex"))).
  intros vm Hin.
  repeat (apply elem_of_cons in Hin as [->|Hin]; [done|]).
  by apply elem_of_nil in Hin.
Defined.

Lemma wait_loop_spec task k fuel start :
  (forall j, (start <= j < k)%nat ->
     VMwareAdapter.terminal (VMwareAdapter.poll task j) = false) ->
  VMwareAdapter.terminal (VMwareAdapter.poll task k) = true ->
  (start <= k)%nat ->
  ((k < start + fuel)%nat -> VMwareAdapter.wait_loop fuel task start = Some k)
  /\ ((start + fuel <= k)%nat -> VMwareAdapter.wait_loop fuel task start = None).
Proof.
  revert start. induction fuel as [|fuel IH]; intros start Hbefore Hk Hle; simpl.
  - split; [lia|done].
  - destruct (decide (start = k)) as [->|Hne].
    + rewrite Hk. split; [done|lia].
    + rewrite Hbefore by lia.
      destruct (IH (S start)) as [IH1 IH2]; [intros; apply Hbefore; lia|done|lia|].
      split; intros; [apply IH1 | apply IH2]; lia.
Qed.

(** [_wait_for_task] polls until the task's state is success or error.  If
    the state first becomes terminal at read [k] and is read the same once
    more, then the wait ends as soon as [k] reads have gone by: it returns
    on success and raises "Task failed: <fault>" on error; until then it is
    still polling. *)
Theorem wait_for_task_outcome fuel task k :
  (forall j, (j < k)%nat ->
     VMwareAdapter.terminal (VMwareAdapter.poll task j) = false) ->
  VMwareAdapter.terminal (VMwareAdapter.poll task k) = true ->
  VMwareAdapter.poll task (S k) = VMwareAdapter.poll task k ->
  ((k < fuel)%nat ->
   VMwareAdapter._wait_for_task fuel task
   = Some (if bool_decide (VMwareAdapter.poll task k = VMwareAdapter.error)
           then Raises (mkExc "RuntimeError"
                          ("Task failed: " ++ VMwareAdapter.fault task))
           else Returns tt))
  /\ ((fuel <= k)%nat -> VMwareAdapter._wait_for_task fuel task = None).
Proof.
  intros Hbefore Hk Hstable.
  destruct (wait_loop_spec task k fuel 0) as [Hin Hout];
    [intros; apply Hbefore; lia | done | lia |].
  unfold VMwareAdapter._wait_for_task. split; intros Hf.
  - rewrite Hin by lia. rewrite Hstable. by case_bool_decide.
  - by rewrite Hout by lia.
Qed.

Lemma wait_for_task_outcome_witness :
  VMwareAdapter._wait_for_task 10 slow_task = Some (Returns tt)
  /\ VMwareAdapter._wait_for_task 3 slow_task = None.
Proof.
  destruct (wait_for_task_outcome 10 slow_task 3) as [Hdone _];
    [intros [|[|[|j]]] Hj; (reflexivity || lia) | reflexivity | reflexivity |].
  destruct (wait_for_task_outcome 3 slow_task 3) as [_ Hstill];
    [intros [|[|[|j]]] Hj; (reflexivity || lia) | reflexivity | reflexivity |].
  split; [apply Hdone; lia | apply Hstill; lia].
Defined.

(** A VM the vCenter does not know fails its own task only: when [execute]
    returns from a run against the vSphere adapter, every task with a
    supported action whose VM name is not in the inventory is failed, and
    its error is "VM not found: <name>". *)
Theorem missing_vm_fails_with_vm_not_found parallel fuel vc callback self op
    clock :
  operation self = Some op ->
  forall op',
    execute parallel (vmware_adapter fuel vc) callback self clock
    = Done (Returns op') ->
    forall i t0,
      tasks op !! i = Some t0 ->
      action t0 = SNAPSHOT_REVERT \/ action t0 = POWER_CYCLE ->
      (forall vm, vm ∈ VMwareAdapter.view vc ->
         Some (VMwareAdapter.vsphere_name vm) <> vm_name t0) ->
      exists t,
        tasks op' !! i = Some t /\ status t = "failed"
        /\ error t = Some ("VM not found: " ++ py_str (vm_name t0)).
Proof.
  intros Hop op' Hex i t0 Ht0 Ha Hno.
  apply execute_inversion in Hex as (s0 & sched & s & Hb & Hrun & Hg & ->).
  destruct (execute_begin_inv parallel (vmware_adapter fuel vc) _ _ _ _ Hop Hb)
    as (Hinv & _).
  pose proof (run_inv _ _ _ _ _ _ _ Hinv Hrun) as Hinv'.
  destruct (gathered_settled _ _ _ Hinv' Hg) as [_ Hall].
  destruct (Hall _ _ Ht0) as (t & Ht & Hs). exists t. split; [done|].
  destruct Hs as (_ & _ & _ & _ & _ & Hs).
  apply find_vm_None in Hno.
  unfold verdict, dispatch, vmware_adapter, VMwareAdapter.revert_snapshot,
    VMwareAdapter.power_cycle in Hs.
  destruct Ha as [Ha|Ha]; rewrite Ha, Hno in Hs; by destruct Hs.
Qed.

Lemma missing_vm_fails_with_vm_not_found_witness :
  exists op' t,
    execute 2 (vmware_adapter 5 partial_vcenter) true range_orchestrator 0%nat
    = Done (Returns op')
    /\ tasks op' !! 1%nat = Some t /\ status t = "failed"
    /\ error t = Some ("VM not found: " ++ py_str (Some "ws01-t1")).
Proof.
  destruct (execute 2 (vmware_adapter 5 partial_vcenter) true
              range_orchestrator 0%nat) as [[op'|e]|] eqn:Hex;
    [|vm_compute in Hex; discriminate..].
  destruct (missing_vm_fails_with_vm_not_found 2 5 partial_vcenter true
              range_orchestrator range_operation 0%nat eq_refl op' Hex 1%nat
              (new_task POWER_CYCLE None
                 (mkTarget (Some "ws01-t1") "blue" (Some 1))))
    as (t & Ht & Hs & He); [reflexivity | by right | |].
  { intros vm Hin.
    repeat (apply elem_of_cons in Hin as [->|Hin]; [done|]).
    by apply elem_of_nil in Hin. }
  exists op', t. split; [reflexivity|]. split; [exact Ht|].
  split; [exact Hs | exact He].
Defined.

(** ** The Proxmox adapter: lookup *)

Lemma find_on_node_Some pve_node vms vm_name id n :
  ProxmoxAdapter.find_on_node pve_node vms vm_name = Some (id, n) ->
  n = pve_node
  /\ exists vm, vm ∈ vms /\ ProxmoxAdapter.vmid vm = id
               /\ ProxmoxAdapter.matches vm_name vm = true.
Proof.
  induction vms as [|vm vms IH]; simpl; [done|].
  destruct (ProxmoxAdapter.matches vm_name vm) eqn:Hm.
  - intros [= <- <-]. split; [done|]. exists vm.
    split; [apply list_elem_of_here | done].
  - intros Hf. destruct (IH Hf) as (-> & vm' & Hin & Hid & Hm').
    split; [done|]. exists vm'. split; [by apply list_elem_of_further | done].
Qed.

Lemma find_on_node_None pve_node vms vm_name :
  ProxmoxAdapter.find_on_node pve_node vms vm_name = None
  <-> forall vm, vm ∈ vms -> ProxmoxAdapter.matches vm_name vm = false.
Proof.
  induction vms as [|vm vms IH]; simpl.
  - split; [|done]. intros _ vm Hin. by apply elem_of_nil in Hin.
  - destruct (ProxmoxAdapter.matches vm_name vm) eqn:Hm; split.
    + done.
    + intros Hall. specialize (Hall vm (list_elem_of_here _ _)). congruence.
    + intros Hnone vm' Hin. apply elem_of_cons in Hin as [->|Hin]; [done|].
      by apply IH.
    + intros Hall. apply IH. intros vm' Hin.
      by apply Hall, list_elem_of_further.
Qed.

Lemma searched_guard node pve_node :
  truthy_str node && negb (bool_decide (Some pve_node = node)) = false
  <-> searched node pve_node.
Proof.
  unfold searched. destruct (truthy_str node); simpl.
  - case_bool_decide as Hn; simpl; split; try done.
    intros Hs. by destruct (Hs eq_refl).
  - done.
Qed.

(** The Proxmox lookup matches a VM by its numeric id (in decimal) or by
    its name, on the node asked for or, when none is asked for, on every
    node.  Whatever it returns is the id and node of such a VM; it returns
    nothing exactly when no VM of a searched node matches. *)
Theorem proxmox_find_vm_sound_and_complete
    (pve_nodes : list (string * list ProxmoxAdapter.QemuVM))
    (vm_name node : option string) :
  (forall id n,
     ProxmoxAdapter._find_vm pve_nodes vm_name node = Some (id, n) ->
     searched node n
     /\ exists vms vm,
          (n, vms) ∈ pve_nodes /\ vm ∈ vms /\ ProxmoxAdapter.vmid vm = id
          /\ (pretty id = py_str vm_name
              \/ ProxmoxAdapter.qemu_name vm = vm_name))
  /\ (ProxmoxAdapter._find_vm pve_nodes vm_name node = None
      <-> forall n vms vm,
            (n, vms) ∈ pve_nodes -> searched node n -> vm ∈ vms ->
            pretty (ProxmoxAdapter.vmid vm) <> py_str vm_name
            /\ ProxmoxAdapter.qemu_name vm <> vm_name).
Proof.
  split.
  - induction pve_nodes as [|[pn vms] rest IH]; simpl; intros id n Hf; [done|].
    destruct (truthy_str node && negb (bool_decide (Some pn = node))) eqn:Hg.
    + destruct (IH _ _ Hf) as (Hs & vms' & vm & Hin & Hvm & Hid & Hm).
      split; [done|]. exists vms', vm.
      split; [by apply list_elem_of_further | done].
    + destruct (ProxmoxAdapter.find_on_node pn vms vm_name) as [[id' n']|] eqn:Hn.
      * simplify_eq. apply find_on_node_Some in Hn as (-> & vm & Hin & Hid & Hm).
        split; [by apply searched_guard|]. exists vms, vm.
        split; [apply list_elem_of_here|]. split; [done|]. split; [done|].
        unfold ProxmoxAdapter.matches in Hm. rewrite Hid in Hm.
        apply orb_true_iff in Hm as [Hm|Hm]; apply bool_decide_eq_true in Hm;
          eauto.
      * destruct (IH _ _ Hf) as (Hs & vms' & vm & Hin & Hvm & Hid & Hm).
        split; [done|]. exists vms', vm.
        split; [by apply list_elem_of_further | done].
  - induction pve_nodes as [|[pn vms] rest IH]; simpl.
    + split; [|done]. intros _ n vms vm Hin. by apply elem_of_nil in Hin.
    + destruct (truthy_str node && negb (bool_decide (Some pn = node))) eqn:Hg.
      * rewrite IH. split.
        -- intros Hall n vms' vm Hin Hs Hvm.
           apply elem_of_cons in Hin as [[= -> ->]|Hin]; [|by eapply Hall].
           apply searched_guard in Hs. congruence.
        -- intros Hall n vms' vm Hin. apply Hall. by apply list_elem_of_further.
      * destruct (ProxmoxAdapter.find_on_node pn vms vm_name) as [[id' n']|] eqn:Hn.
        -- split; [done|]. intros Hall.
           apply find_on_node_Some in Hn as (-> & vm & Hin & Hid & Hm).
           destruct (Hall pn vms vm (list_elem_of_here _ _)
                       (proj1 (searched_guard _ _) Hg) Hin) as [H1 H2].
           unfold ProxmoxAdapter.matches in Hm.
           apply orb_true_iff in Hm as [Hm|Hm]; apply bool_decide_eq_true in Hm;
             done.
        -- rewrite IH. split.
           ++ intros Hall n vms' vm Hin Hs Hvm.
              apply elem_of_cons in Hin as [[= -> ->]|Hin]; [|by eapply Hall].
              pose proof (proj1 (find_on_node_None _ _ _) Hn vm Hvm) as Hm.
              unfold ProxmoxAdapter.matches in Hm.
              apply orb_false_iff in Hm as [Hm1 Hm2].
              apply bool_decide_eq_false in Hm1, Hm2. done.
           ++ intros Hall n vms' vm Hin. apply Hall.
              by apply list_elem_of_further.
Qed.

(** Id before name, in listing order: asked for "100", the lookup returns
    VM 101 of the first node, which is named "100", not VM 100 of the
    second node. *)
Example proxmox_name_shadows_id :
  ProxmoxAdapter._find_vm (ProxmoxAdapter.nodes small_cluster) (Some "100") None
  = Some (101, "pve1")
  /\ ProxmoxAdapter._find_vm (ProxmoxAdapter.nodes small_cluster) (Some "100")
       (Some "pve2")
     = Some (100, "pve2").
Proof. split; vm_compute; reflexivity. Qed.

(** The Proxmox calls raise "VM not found: <name>" without posting
    anything when no VM of a searched node matches by id or name. *)
Theorem proxmox_vm_not_found pve vm_name snapshot_name node :
  (forall n vms vm,
     (n, vms) ∈ ProxmoxAdapter.nodes pve -> searched node n -> vm ∈ vms ->
     pretty (ProxmoxAdapter.vmid vm) <> py_str vm_name
     /\ ProxmoxAdapter.qemu_name vm <> vm_name) ->
  ProxmoxAdapter.revert_snapshot pve vm_name snapshot_name node
  = Raises (mkExc "ValueError" ("VM not found: " ++ py_str vm_name))
  /\ ProxmoxAdapter.power_cycle pve vm_name node
     = Raises (mkExc "ValueError" ("VM not found: " ++ py_str vm_name)).
Proof.
  intros Hno.
  assert (ProxmoxAdapter._find_vm (ProxmoxAdapter.nodes pve) vm_name node = None)
    as Hnone.
  { induction (ProxmoxAdapter.nodes pve) as [|[pn vms] rest IH]; simpl; [done|].
    assert (ProxmoxAdapter._find_vm rest vm_name node = None) as ->.
    { apply IH. intros n vms' vm Hin. apply Hno. by apply list_elem_of_further. }
    destruct (truthy_str node && negb (bool_decide (Some pn = node))) eqn:Hg;
      [done|].
    rewrite (proj2 (find_on_node_None pn vms vm_name)); [done|].
    intros vm Hvm.
    destruct (Hno pn vms vm (list_elem_of_here _ _)
                (proj1 (searched_guard _ _) Hg) Hvm) as [H1 H2].
    unfold ProxmoxAdapter.matches.
    by rewrite !bool_decide_eq_false_2. }
  unfold ProxmoxAdapter.revert_snapshot, ProxmoxAdapter.power_cycle.
  by rewrite Hnone.
Qed.

Lemma proxmox_vm_not_found_witness :
  ProxmoxAdapter.revert_snapshot small_cluster (Some "ghost-vm") (Some "pre-ex")
    None
  = Raises (mkExc "ValueError" ("VM not found: " ++ py_str (Some "ghost-vm")))
  /\ ProxmoxAdapter.power_cycle small_cluster (Some "ghost-vm") None
     = Raises (mkExc "ValueError" ("VM not found: " ++ py_str (Some "ghost-vm"))).
Proof.
  apply proxmox_vm_not_found. intros n vms vm Hin _ Hvm.
  repeat (apply elem_of_cons in Hin as [[= -> ->]|Hin];
          [repeat (apply elem_of_cons in Hvm as [->|Hvm]; [by split|]);
           by apply elem_of_nil in Hvm|]).
  by apply elem_of_nil in Hin.
Defined.

(** ** The command line *)

Lemma join_Returns sep items :
  Forall is_Some items -> exists s, join sep items = Returns s.
Proof.
  intros Hall. unfold join.
  destruct (list_find _ items) as [[i x]|] eqn:Hf; [|eauto].
  apply list_find_Some in Hf as (Hi & -> & _).
  apply (Forall_lookup_1 _ _ _ _ Hall) in Hi. by destruct Hi.
Qed.

Lemma join_Raises sep items :
  None ∈ items ->
  exists e, join sep items = Raises e /\ exc_type e = "TypeError".
Proof.
  intros Hin. unfold join.
  destruct (list_find _ items) as [[i x]|] eqn:Hf; [eauto|].
  apply list_find_None in Hf. rewrite Forall_forall in Hf.
  by destruct (Hf _ Hin).
Qed.

(** The confirmation is skipped with [--yes] or [--dry-run]. *)
Lemma confirm_skipped args w op :
  args_yes args = true \/ args_dry_run args = true ->
  confirm args w op = Returns true.
Proof. unfold confirm. intros [-> | ->]; [done|]. by rewrite andb_false_r. Qed.

(** Otherwise the plan is shown, which takes a name for each of the first
    five tasks, and the answer decides. *)
Lemma confirm_asked args w op :
  args_yes args = false -> args_dry_run args = false ->
  Forall (fun t => is_Some (vm_name t)) (take 5 (tasks op)) ->
  confirm args w op
  = Returns (bool_decide (typed w = "y") || bool_decide (typed w = "Y")).
Proof.
  intros Hyes Hdry Hall. unfold confirm. rewrite Hyes, Hdry. simpl.
  destruct (join_Returns ", " (vm_name <$> take 5 (tasks op))) as [x ->];
    [|done].
  by apply Forall_fmap.
Qed.

Lemma confirm_nameless args w op :
  args_yes args = false -> args_dry_run args = false ->
  (exists t, t ∈ take 5 (tasks op) /\ vm_name t = None) ->
  exists e, confirm args w op = Raises e /\ exc_type e = "TypeError".
Proof.
  intros Hyes Hdry (t & Hin & Hn). unfold confirm. rewrite Hyes, Hdry. simpl.
  destruct (join_Raises ", " (vm_name <$> take 5 (tasks op))) as (e & -> & He);
    [|by exists e].
  apply list_elem_of_fmap. by exists t.
Qed.

(** [main] stops with a usage error only for the four parameter checks,
    each with its own message, and only when that parameter is missing. *)
Theorem usage_error_names_the_missing_parameter args w msg :
  main args w = UsageError msg ->
  (msg = "--snapshot is required for snapshot_revert action"
   /\ args_action args = SNAPSHOT_REVERT
   /\ truthy_str (args_snapshot args) = false)
  \/ (msg = "--team is required for team-level reset"
      /\ args_level args = TEAM /\ args_team args = None)
  \/ (msg = "--zone is required for zone-level reset"
      /\ args_level args = ZONE /\ truthy_str (args_zone args) = false)
  \/ (msg = "--vm is required for vm-level reset"
      /\ args_level args = VM /\ truthy_str (args_vm args) = false).
Proof.
  rewrite main_unfold.
  destruct (validate args) as [msg'|] eqn:Hv.
  - intros [= <-]. unfold validate in Hv.
    repeat match type of Hv with
           | (if ?b then _ else _) = _ =>
             let E := fresh "E" in
             destruct b eqn:E; [apply andb_true_iff in E as [? ?]|]
           end; simplify_eq;
      repeat match goal with
             | H : bool_decide _ = true |- _ => apply bool_decide_eq_true in H
             | H : negb _ = true |- _ => apply negb_true_iff in H
             end; eauto 10.
  - destruct (load_config w); [|done].
    destruct (tasks _); [done|].
    destruct (confirm _ _ _) as [[|]|]; [|done|done].
    destruct (initialize_adapter _ _ _); [|done].
    destruct (execute _ _ _ _ _) as [[?|?]|]; try done.
    by destruct (close _ _).
Qed.

Lemma usage_error_names_the_missing_parameter_witness :
  ("--zone is required for zone-level reset"
   = "--snapshot is required for snapshot_revert action"
   /\ args_action (mkArgs ZONE POWER_CYCLE None (Some "") None None 5 true true)
      = SNAPSHOT_REVERT
   /\ truthy_str (args_snapshot
                    (mkArgs ZONE POWER_CYCLE None (Some "") None None 5 true true))
      = false)
  \/ ("--zone is required for zone-level reset"
      = "--team is required for team-level reset"
      /\ args_level (mkArgs ZONE POWER_CYCLE None (Some "") None None 5 true true)
         = TEAM
      /\ args_team (mkArgs ZONE POWER_CYCLE None (Some "") None None 5 true true)
         = None)
  \/ ("--zone is required for zone-level reset"
      = "--zone is required for zone-level reset"
      /\ args_level (mkArgs ZONE POWER_CYCLE None (Some "") None None 5 true true)
         = ZONE
      /\ truthy_str (args_zone
                       (mkArgs ZONE POWER_CYCLE None (Some "") None None 5 true true))
         = false)
  \/ ("--zone is required for zone-level reset"
      = "--vm is required for vm-level reset"
      /\ args_level (mkArgs ZONE POWER_CYCLE None (Some "") None None 5 true true)
         = VM
      /\ truthy_str (args_vm
                       (mkArgs ZONE POWER_CYCLE None (Some "") None None 5 true true))
         = false).
Proof.
  apply (usage_error_names_the_missing_parameter
           (mkArgs ZONE POWER_CYCLE None (Some "") None None 5 true true)
           rehearsal).
  reflexivity.
Defined.

(** A dry run touches nothing outside: with [--dry-run], the outcome of
    [main] does not depend on what is typed at the prompt, on whether the
    backend can be reached, on how it answers, or on its disconnect. *)
Theorem dry_run_ignores_the_backend args w answer connect adapter disconnect :
  args_dry_run args = true ->
  main args (with_backend w answer connect adapter disconnect) = main args w.
Proof.
  intros Hdry. rewrite !main_unfold. unfold with_backend; simpl.
  destruct (validate args); [done|].
  destruct (load_config w) as [cfg|]; [|done].
  rewrite !confirm_skipped by (by right).
  unfold main_plan, initialize_adapter, close; simpl.
  by rewrite Hdry.
Qed.

Lemma dry_run_ignores_the_backend_witness :
  main (mkArgs FULL POWER_CYCLE None None None None 3 true false)
    (with_backend rehearsal "n" (Raises vm_not_found)
       (failing_at 0 vm_not_found) (Raises timed_out))
  = main (mkArgs FULL POWER_CYCLE None None None None 3 true false) rehearsal.
Proof. apply dry_run_ignores_the_backend. reflexivity. Defined.

(** Without confirmation nothing is executed: a real run without [--yes]
    whose prompt is answered by anything but "y" or "Y" never reaches the
    backend.  Its outcome is the same for every backend and it is never an
    executed operation.  When an operation was planned and each of its
    first five tasks has a name, it is returned untouched (every task
    pending) with exit status 0; when one of the first five has no name,
    showing the plan raises [TypeError] and the run ends with 2. *)
Theorem unconfirmed_run_executes_nothing args w :
  args_yes args = false ->
  args_dry_run args = false ->
  typed w <> "y" ->
  typed w <> "Y" ->
  (forall connect adapter disconnect,
     main args (with_backend w (typed w) connect adapter disconnect)
     = main args w)
  /\ (forall op, main args w <> Executed op)
  /\ main args w <> NeverReturns
  /\ (forall cfg,
       validate args = None -> load_config w = Returns cfg ->
       tasks (main_plan args w cfg) <> [] ->
       Forall planned (tasks (main_plan args w cfg))
       /\ (Forall (fun t => is_Some (vm_name t))
             (take 5 (tasks (main_plan args w cfg))) ->
           main args w = Aborted (main_plan args w cfg)
           /\ exit_status (main args w) = Some 0)
       /\ ((exists t, t ∈ take 5 (tasks (main_plan args w cfg))
                      /\ vm_name t = None) ->
           exists e,
             main args w = Crashed e /\ exc_type e = "TypeError"
             /\ exit_status (main args w) = Some 2)).
Proof.
  intros Hyes Hdry Hy HY.
  assert (forall w' op, typed w' = typed w ->
            confirm args w' op = Returns false
            \/ exists e, confirm args w' op = Raises e) as Hconf.
  { intros w' op Ht. unfold confirm. rewrite Hyes, Hdry, Ht. simpl.
    destruct (join _ _); [left|eauto].
    by rewrite !bool_decide_eq_false_2. }
  assert (forall w' op, typed w' = typed w ->
            confirm args w' op = confirm args w op) as Hsame.
  { intros w' op Ht. unfold confirm. by rewrite Ht. }
  split; [|split; [|split]].
  - intros connect adapter disconnect.
    set (w' := with_backend w (typed w) connect adapter disconnect).
    rewrite !main_unfold.
    change (load_config w') with (load_config w).
    destruct (validate args); [done|].
    destruct (load_config w) as [cfg|]; [|done].
    change (main_plan args w' cfg) with (main_plan args w cfg).
    rewrite (Hsame w') by done.
    destruct (tasks (main_plan args w cfg)); [done|].
    by destruct (Hconf w (main_plan args w cfg) eq_refl) as [-> | [e ->]].
  - intros op. rewrite main_unfold.
    destruct (validate args); [done|].
    destruct (load_config w) as [cfg|]; [|done].
    destruct (tasks _); [done|].
    by destruct (Hconf w (main_plan args w cfg) eq_refl) as [-> | [e ->]].
  - rewrite main_unfold.
    destruct (validate args); [done|].
    destruct (load_config w) as [cfg|]; [|done].
    destruct (tasks _); [done|].
    by destruct (Hconf w (main_plan args w cfg) eq_refl) as [-> | [e ->]].
  - intros cfg Hv Hcfg Hne. split; [|split].
    + unfold main_plan; simpl.
      apply Forall_fmap, Forall_forall. intros v _. apply new_task_planned.
    + intros Hnames.
      pose proof (confirm_asked args w _ Hyes Hdry Hnames) as Hc.
      rewrite !bool_decide_eq_false_2 in Hc by done.
      rewrite main_unfold, Hv, Hcfg, Hc.
      by destruct (tasks (main_plan args w cfg)).
    + intros Hnone.
      destruct (confirm_nameless args w _ Hyes Hdry Hnone) as (e & Hc & He).
      exists e. rewrite main_unfold, Hv, Hcfg, Hc.
      by destruct (tasks (main_plan args w cfg)).
Qed.

Lemma unconfirmed_run_executes_nothing_witness :
  (main (mkArgs FULL POWER_CYCLE None None None None 3 false false) rehearsal
   = Aborted (main_plan
                (mkArgs FULL POWER_CYCLE None None None None 3 false false)
                rehearsal range_config)
   /\ exit_status
        (main (mkArgs FULL POWER_CYCLE None None None None 3 false false)
           rehearsal) = Some 0)
  /\ (exists e,
       main (mkArgs FULL POWER_CYCLE None None None None 3 false false)
         (mkWorld (Returns nameless_config) "20260101-000000" 0%nat "n"
            (Returns tt) DryRunAdapter (Returns tt))
       = Crashed e
       /\ exc_type e = "TypeError"
       /\ exit_status
            (main (mkArgs FULL POWER_CYCLE None None None None 3 false false)
               (mkWorld (Returns nameless_config) "20260101-000000" 0%nat "n"
                  (Returns tt) DryRunAdapter (Returns tt))) = Some 2).
Proof.
  split.
  - destruct (unconfirmed_run_executes_nothing
                (mkArgs FULL POWER_CYCLE None None None None 3 false false)
                rehearsal eq_refl eq_refl ltac:(done) ltac:(done))
      as (_ & _ & _ & Hplan).
    destruct (Hplan range_config eq_refl eq_refl ltac:(done))
      as (_ & Haborted & _).
    apply Haborted. repeat constructor; by eexists.
  - destruct (unconfirmed_run_executes_nothing
                (mkArgs FULL POWER_CYCLE None None None None 3 false false)
                (mkWorld (Returns nameless_config) "20260101-000000" 0%nat "n"
                   (Returns tt) DryRunAdapter (Returns tt))
                eq_refl eq_refl ltac:(done) ltac:(done))
      as (_ & _ & _ & Hplan).
    assert (tasks (main_plan
                     (mkArgs FULL POWER_CYCLE None None None None 3 false false)
                     (mkWorld (Returns nameless_config) "20260101-000000" 0%nat
                        "n" (Returns tt) DryRunAdapter (Returns tt))
                     nameless_config) <> []) as Hne by (vm_compute; discriminate).
    destruct (Hplan nameless_config eq_refl eq_refl Hne)
      as (_ & _ & Hcrashed).
    apply Hcrashed.
    exists (mkTask None POWER_CYCLE None "pending" None None None).
    split; [|done]. apply list_elem_of_further, list_elem_of_here.
Defined.


Lemma main_dry_run args w cfg :
  args_dry_run args = true ->
  validate args = None ->
  load_config w = Returns cfg ->
  1 <= args_parallel args ->
  args_action args = SNAPSHOT_REVERT \/ args_action args = POWER_CYCLE ->
  tasks (main_plan args w cfg) <> [] ->
  exists op',
    main args w = Executed op'
    /\ execute (args_parallel args) DryRunAdapter true
         (mkOrchestrator cfg (Some (main_plan args w cfg))) (now_clock w)
       = Done (Returns op')
    /\ forall t, t ∈ tasks op' -> status t = "completed".
Proof.
  intros Hdry Hv Hcfg Hp Ha Hne.
  destruct (all_calls_return_completes (args_parallel args) DryRunAdapter true
              (mkOrchestrator cfg (Some (main_plan args w cfg)))
              (main_plan args w cfg) (now_clock w))
    as (op' & Hex & Hlen & Hall); [done|done| |].
  { intros i t Ht. destruct (planned_dispatch _ _ _ _ _ Ha Ht) as [call Hd].
    by exists call. }
  exists op'. split; [|done].
  rewrite main_unfold, Hv, Hcfg.
  destruct (tasks (main_plan args w cfg)) eqn:Hts; [done|].
  rewrite confirm_skipped by (by right).
  unfold initialize_adapter, close. rewrite Hdry.
  by rewrite Hex.
Qed.

(** A rehearsal from the command line succeeds: with [--dry-run], valid
    arguments, a configuration that loads, at least one parallel slot and
    at least one VM matched, [main] executes the plan, every task is
    completed, and the exit status is 0. *)
Theorem dry_run_of_a_matching_plan_exits_zero args w cfg :
  args_dry_run args = true ->
  validate args = None ->
  load_config w = Returns cfg ->
  1 <= args_parallel args ->
  args_action args = SNAPSHOT_REVERT \/ args_action args = POWER_CYCLE ->
  tasks (main_plan args w cfg) <> [] ->
  exists op',
    main args w = Executed op'
    /\ operation_status op' = "completed"
    /\ (progress op' == 100)%Q
    /\ exit_status (main args w) = Some 0.
Proof.
  intros Hdry Hv Hcfg Hp Ha Hne.
  destruct (main_dry_run args w cfg) as (op' & Hmain & Hex & Hall); [done..|].
  pose proof (execute_keeps_tasks _ _ _
                (mkOrchestrator cfg (Some (main_plan args w cfg)))
                (main_plan args w cfg) _ _ eq_refl Hex) as Hlen.
  destruct (all_completed_reads_completed op') as [Hs Hpr]; [|done|].
  { intros Hnil. rewrite Hnil in Hlen. by destruct (tasks (main_plan args w cfg)). }
  exists op'. split; [done|]. split; [done|]. split; [done|].
  rewrite Hmain. simpl. by rewrite Hs.
Qed.

Lemma dry_run_of_a_matching_plan_exits_zero_witness :
  exists op',
    main (mkArgs ZONE SNAPSHOT_REVERT (Some "baseline") (Some "red") None None
            2 true false) rehearsal = Executed op'
    /\ operation_status op' = "completed"
    /\ (progress op' == 100)%Q
    /\ exit_status
         (main (mkArgs ZONE SNAPSHOT_REVERT (Some "baseline") (Some "red") None
                  None 2 true false) rehearsal) = Some 0.
Proof.
  apply (dry_run_of_a_matching_plan_exits_zero _ rehearsal range_config);
    [reflexivity | reflexivity | reflexivity | simpl; lia | by left | done].
Defined.





(** The semaphore's size comes from [--parallel] unchecked: once a real or
    rehearsed run with tasks planned has gone past the confirmation and
    its adapter is set up, a negative value ends [main] with exit status 2
    (the semaphore's [ValueError]), and 0 makes it wait for ever. *)
Theorem parallel_from_the_command_line args w cfg adapter :
  validate args = None ->
  load_config w = Returns cfg ->
  tasks (main_plan args w cfg) <> [] ->
  confirm args w (main_plan args w cfg) = Returns true ->
  initialize_adapter cfg (args_dry_run args) w = Returns adapter ->
  (args_parallel args < 0 ->
   main args w
   = Crashed (mkExc "ValueError" "Semaphore initial value must be >= 0")
   /\ exit_status (main args w) = Some 2)
  /\ (args_parallel args = 0 ->
      main args w = NeverReturns /\ exit_status (main args w) = None).
Proof.
  intros Hv Hcfg Hne Hconf Hinit.
  assert (main args w
          = match execute (args_parallel args) adapter true
                    (mkOrchestrator cfg (Some (main_plan args w cfg)))
                    (now_clock w) with
            | Hangs => NeverReturns
            | Done (Raises e) => Crashed e
            | Done (Returns op') =>
              match close (args_dry_run args) w with
              | Raises e => Crashed e
              | Returns _ => Executed op'
              end
            end) as Hmain.
  { rewrite main_unfold, Hv, Hcfg, Hconf, Hinit.
    by destruct (tasks (main_plan args w cfg)). }
  rewrite Hmain. split.
  - intros Hp. unfold execute, execute_begin. simpl.
    by rewrite bool_decide_eq_true_2.
  - intros Hp. rewrite Hp.
    destruct (execute_zero_slots adapter true
                (mkOrchestrator cfg (Some (main_plan args w cfg)))
                (main_plan args w cfg) (now_clock w) eq_refl Hne) as [-> _].
    done.
Qed.

Lemma parallel_from_the_command_line_witness :
  main (mkArgs FULL POWER_CYCLE None None None None 0 false false)
    (with_backend rehearsal "Y" (Returns tt) DryRunAdapter (Returns tt))
  = NeverReturns
  /\ exit_status
       (main (mkArgs FULL POWER_CYCLE None None None None 0 false false)
          (with_backend rehearsal "Y" (Returns tt) DryRunAdapter (Returns tt)))
     = None.
Proof.
  apply (proj2 (parallel_from_the_command_line
                  (mkArgs FULL POWER_CYCLE None None None None 0 false false)
                  (with_backend rehearsal "Y" (Returns tt) DryRunAdapter
                     (Returns tt))
                  range_config DryRunAdapter eq_refl eq_refl
                  ltac:(done) eq_refl eq_refl)).
  reflexivity.
Defined.

(** A plan with a task that has no name cannot be shown: without [--yes]
    and [--dry-run] the run ends with 2 before the prompt, whatever would
    be typed and whatever [--parallel] is; with [--yes] the same plan is
    executed. *)
Example nameless_plan_is_not_shown :
  exit_status
    (main (mkArgs FULL POWER_CYCLE None None None None 0 false false)
       (mkWorld (Returns nameless_config) "20260101-000000" 0%nat "y"
          (Returns tt) DryRunAdapter (Returns tt)))
  = Some 2
  /\ exit_status
       (main (mkArgs FULL POWER_CYCLE None None None None 2 false true)
          (mkWorld (Returns nameless_config) "20260101-000000" 0%nat "y"
             (Returns tt) DryRunAdapter (Returns tt)))
     = Some 0.
Proof. split; vm_compute; reflexivity. Qed.

(** ** The four task states *)

Lemma coroutine_status adapter i t0 c t :
  planned t0 -> coroutine_inv adapter i t0 c t ->
  match c with
  | Queued => status t = "pending"
  | Awaiting _ => status t = "running"
  | Finished => status t = "completed" \/ status t = "failed"
  end.
Proof.
  intros (Hs & _) Hc. destruct c as [|call|]; simpl in Hc.
  - by subst t.
  - by destruct Hc as (_ & started & ->).
  - destruct Hc as (started & ended & Hv).
    destruct (verdict adapter i t0) as [[[]|e]|]; [| |done]; subst t; eauto.
Qed.

(** A task moves through four states only, in step with its coroutine: in
    every state of an execution of a planned operation a task is
    ["pending"] while its coroutine waits for the semaphore, ["running"]
    while it awaits its adapter call, and ["completed"] or ["failed"] once
    it has returned; no step takes a task out of a terminal state. *)
Theorem task_state_follows_its_coroutine self id lvl a snapshot zone team vm :
  exists orch op,
    plan_reset self id lvl a snapshot zone team vm = Returns (orch, op)
    /\ forall parallel adapter callback clock s0 sched s,
         execute_begin parallel orch clock = Returns s0 ->
         run parallel adapter callback sched s0 = Some s ->
         (forall i c t,
            run_coros s !! i = Some c -> tasks (run_op s) !! i = Some t ->
            match c with
            | Queued => status t = "pending"
            | Awaiting _ => status t = "running"
            | Finished => status t = "completed" \/ status t = "failed"
            end)
         /\ (forall e s' i t,
              step parallel adapter callback s e = Some s' ->
              tasks (run_op s) !! i = Some t ->
              status t = "completed" \/ status t = "failed" ->
              tasks (run_op s') !! i = Some t).
Proof.
  do 2 eexists. split; [apply plan_reset_returns|].
  set (op := mkOperation id lvl a _ None None).
  set (orch := mkOrchestrator (config self) (Some op)).
  destruct (plan_reset_planned self id lvl a snapshot zone team vm orch op
              (plan_reset_returns _ _ _ _ _ _ _ _)) as [Hop Hpl].
  intros parallel adapter callback clock s0 sched s Hb Hrun.
  destruct (execute_begin_inv parallel adapter orch op _ _ Hop Hb) as (Hinv & _).
  pose proof (run_inv _ _ _ _ _ _ _ Hinv Hrun) as Hinv'.
  assert (forall i c t,
            run_coros s !! i = Some c -> tasks (run_op s) !! i = Some t ->
            match c with
            | Queued => status t = "pending"
            | Awaiting _ => status t = "running"
            | Finished => status t = "completed" \/ status t = "failed"
            end) as Hstatus.
  { intros i c t Hc Ht. pose proof Hinv' as (Hlc & Hlt & Hall & _).
    pose proof (lookup_lt_Some _ _ _ Hc) as Hi.
    destruct (lookup_lt_is_Some_2 (tasks op) i) as [t0 Ht0]; [lia|].
    eapply coroutine_status; [by eapply Forall_lookup_1 | eauto]. }
  split; [done|].
  intros e s' i t Hstep Ht Hterm.
  assert (forall j c, run_coros s !! j = Some c -> c <> Finished -> j <> i)
    as Hother.
  { intros j c Hc Hnf ->. specialize (Hstatus _ _ _ Hc Ht).
    destruct c; [| |done]; rewrite Hstatus in Hterm; by destruct Hterm. }
  destruct e as [j|j]; simpl in Hstep.
  - destruct (run_coros s !! j) as [[| |]|] eqn:Hc; try done.
    destruct (tasks (run_op s) !! j) as [tj|]; [|done].
    case_bool_decide; [|done]. simplify_eq.
    pose proof (Hother _ _ Hc ltac:(done)) as Hne.
    unfold execute_task_enter. destruct (dispatch _); simpl;
      by rewrite list_lookup_insert_ne.
  - destruct (run_coros s !! j) as [[|call|]|] eqn:Hc; try done.
    destruct (tasks (run_op s) !! j) as [tj|]; [|done].
    destruct (adapter j call); [|done]. simplify_eq.
    pose proof (Hother _ _ Hc ltac:(done)) as Hne.
    simpl. by rewrite list_lookup_insert_ne.
Qed.
